(** * RendererD3D: the draw-call pipeline of ANGLE's base D3D renderer

    A shallow embedding of [src/libGLESv2/renderer/d3d/RendererD3D.cpp].

    - binary32 arithmetic of the sample-coverage ladder is the IEEE-754
      model of the standard library ([SpecFloat], precision 24, emax 128);
    - [unsigned int] masks are [Z] with the 32-bit wrap-around written out;
    - the pure virtual methods of [RendererD3D] and the stateful methods of
      its collaborators form the record [Backend]; every call made through
      it is logged, with its result, as an [Event];
    - the renderer's own mutable state is the incomplete-texture map and the
      allocator of the objects it creates with [new]. *)

From Stdlib Require Import ZArith List Bool Lia String SpecFloat.
From stdpp Require Import gmap sorting.
Import ListNotations.

Local Open Scope Z_scope.

(** ** binary32 *)

Module Float32.

Definition prec : Z := 24.
Definition emax : Z := 128.

Definition float := spec_float.

Definition valid (x : float) : bool := valid_binary prec emax x.

(** Conversion of an [int] to [float] (round to nearest even). *)
Definition of_int (z : Z) : float := binary_normalize prec emax z 0 false.

Definition mul (x y : float) : float := SFmul prec emax x y.
Definition add (x y : float) : float := SFadd prec emax x y.

(** [x >= y], false when either side is a NaN. *)
Definition ge (x y : float) : bool :=
  match SFcompare x y with
  | Some (Gt | Eq) => true
  | _ => false
  end.

(** [x <= y], false when either side is a NaN. *)
Definition le (x y : float) : bool := SFleb x y.

(** [x != y], true when either side is a NaN. *)
Definition ne (x y : float) : bool := negb (SFeqb x y).

Definition zero : float := S754_zero false.
Definition half : float := S754_finite false 8388608 (-24).
Definition one : float := S754_finite false 8388608 (-23).

End Float32.

(** ** 32-bit unsigned words *)

Definition UINT_MAX : Z := 0xFFFFFFFF.

(** [mask <<= 1] on an [unsigned int]. *)
Definition shl1_32 (mask : Z) : Z := (mask * 2) mod 2 ^ 32.

(** [~mask] on an [unsigned int]. *)
Definition not32 (mask : Z) : Z := Z.lxor mask UINT_MAX.

(** Number of set bits among the low [n] bits of a word. *)
Fixpoint popcount (n : nat) (mask : Z) : nat :=
  match n with
  | O => O
  | S n' => ((if Z.odd mask then 1 else 0) + popcount n' (Z.div2 mask))%nat
  end.

Definition popcount32 (mask : Z) : nat := popcount 32 mask.

(** ** Sample-coverage mask ([RendererD3D::applyState], lines 287-317) *)

(** The body of [for (int i = 0; i < samples; ++i)], run for [n] more
    iterations from index [i]. [i + 1] cannot overflow: [i < samples]. *)
Fixpoint coverageLoop (n : nat) (i : Z) (coverageValue threshold : Float32.float)
    (mask : Z) : Z :=
  match n with
  | O => mask
  | S n' =>
      let mask := shl1_32 mask in
      if Float32.ge (Float32.mul (Float32.of_int (i + 1)) coverageValue) threshold
      then coverageLoop n' (i + 1) coverageValue
             (Float32.add threshold Float32.one) (Z.lor mask 1)
      else coverageLoop n' (i + 1) coverageValue threshold mask
  end.

(** The mask before [if (coverageInvert)]. *)
Definition coverageMaskBeforeInvert (samples : Z) (coverageValue : Float32.float) : Z :=
  if Float32.ne coverageValue (Float32.of_int 0)
  then coverageLoop (Z.to_nat samples) 0 coverageValue Float32.half 0
  else 0.

(** The mask handed to [setBlendState]. *)
Definition sampleMask (sampleCoverageEnabled : bool) (coverageValue : Float32.float)
    (coverageInvert : bool) (samples : Z) : Z :=
  if sampleCoverageEnabled then
    let mask := coverageMaskBeforeInvert samples coverageValue in
    if coverageInvert then not32 mask else mask
  else UINT_MAX.

(** The ladder as the specification words it: sample indices [0..S-1], a
    running threshold that starts at 0.5; each sample left-shifts the
    accumulated mask by one bit and, when [(index+1) * c >= threshold],
    sets the new bit and advances the threshold by 1.0. The mask is an
    [S]-bit number: no word width cuts it. *)
Definition ladderStep (c : Float32.float) (acc : Z * Float32.float) (index : nat)
    : Z * Float32.float :=
  let '(mask, threshold) := acc in
  let shifted := mask * 2 in
  if Float32.ge (Float32.mul (Float32.of_int (Z.of_nat index + 1)) c) threshold
  then (Z.lor shifted 1, Float32.add threshold Float32.one)
  else (shifted, threshold).

Definition ladderMask (samples : nat) (c : Float32.float) : Z :=
  fst (fold_left (ladderStep c) (seq 0 samples) (0, Float32.half)).


(** ** GL types and constants *)

Abbreviation GLenum := Z (only parsing).
Abbreviation GLint := Z (only parsing).
Abbreviation GLuint := Z (only parsing).
Abbreviation GLsizei := Z (only parsing).

Definition GL_NO_ERROR : GLenum := 0.
Definition GL_INVALID_OPERATION : GLenum := 0x0502.
Definition GL_POINTS : GLenum := 0x0000.
Definition GL_LINES : GLenum := 0x0001.
Definition GL_LINE_LOOP : GLenum := 0x0002.
Definition GL_LINE_STRIP : GLenum := 0x0003.
Definition GL_TRIANGLES : GLenum := 0x0004.
Definition GL_TRIANGLE_STRIP : GLenum := 0x0005.
Definition GL_TRIANGLE_FAN : GLenum := 0x0006.
Definition GL_FRONT_AND_BACK : GLenum := 0x0408.
Definition GL_CCW : GLenum := 0x0901.
Definition GL_TEXTURE_2D : GLenum := 0x0DE1.
Definition GL_TEXTURE_3D : GLenum := 0x806F.
Definition GL_TEXTURE_CUBE_MAP : GLenum := 0x8513.
Definition GL_TEXTURE_CUBE_MAP_POSITIVE_X : GLenum := 0x8515.
Definition GL_TEXTURE_CUBE_MAP_NEGATIVE_X : GLenum := 0x8516.
Definition GL_TEXTURE_CUBE_MAP_POSITIVE_Y : GLenum := 0x8517.
Definition GL_TEXTURE_CUBE_MAP_NEGATIVE_Y : GLenum := 0x8518.
Definition GL_TEXTURE_CUBE_MAP_POSITIVE_Z : GLenum := 0x8519.
Definition GL_TEXTURE_CUBE_MAP_NEGATIVE_Z : GLenum := 0x851A.
Definition GL_TEXTURE_2D_ARRAY : GLenum := 0x8C1A.

(** [gl::Error]: a code and a message. *)
Record Error := { code : GLenum; message : string }.

Definition isError (e : Error) : bool := negb (code e =? GL_NO_ERROR).

(** [gl::Error(GL_NO_ERROR)]. *)
Definition NoError : Error := {| code := GL_NO_ERROR; message := EmptyString |}.

(** The error of [applyUniformBuffers], line 479. *)
Definition unboundUniformBufferError : Error :=
  {| code := GL_INVALID_OPERATION;
     message := "It is undefined behaviour to have a used but unbound uniform buffer." |}.

Inductive SamplerType := SAMPLER_PIXEL | SAMPLER_VERTEX.

(** ** Views of the client state the pipeline reads

    The classes behind [gl::Data] are not part of the renderer; they are
    taken as records of the observations the renderer makes of them. State
    blocks it only forwards are opaque handles. *)

Record SamplerState := { swizzleRequired : bool; samplerBits : Z }.

Record Texture := {
  getTextureSerial : Z;
  getSamplerState : SamplerState;
  (** [isSamplerComplete(sampler, textureCaps, extensions, clientVersion)]
      under the capabilities and client version of the draw. *)
  isSamplerComplete : SamplerState -> bool }.

(** [Sampler::getState(&sampler)] overwrites fields of [sampler]. *)
Record Sampler := { getState : SamplerState -> SamplerState }.

Record Buffer := { bufferId : GLuint }.

Inductive FramebufferAttachment :=
| TextureAttachment (texture : Texture)
| RenderbufferAttachment (renderbuffer : GLuint).

Definition isTexture (a : FramebufferAttachment) : bool :=
  match a with TextureAttachment _ => true | RenderbufferAttachment _ => false end.

Record Framebuffer := {
  framebufferId : GLuint;
  getColorbuffer : nat -> option FramebufferAttachment;
  getDepthOrStencilbuffer : option FramebufferAttachment;
  getSamples : Z }.

Record RasterizerState := {
  cullFace : bool;
  cullMode : GLenum;
  frontFace : GLenum;
  pointDrawMode : bool;
  multiSample : bool;
  rasterizerDiscard : bool;
  rasterizerBits : Z }.

Record Rectangle := { rectX : Z; rectY : Z; rectWidth : Z; rectHeight : Z }.

Record TransformFeedback := { isStarted : bool; isPaused : bool }.

(** The program binary after [updateSamplerMapping] has refreshed it. *)
Record ProgramBinary := {
  getUsedSamplerRange : SamplerType -> nat;
  getSamplerTextureType : SamplerType -> nat -> GLenum;
  (** [getSamplerMapping(type, index, caps)]; [-1] when no unit is mapped *)
  getSamplerMapping : SamplerType -> nat -> GLint;
  getActiveUniformBlockCount : nat;
  usesPointSize : bool }.

Record Program := {
  getUniformBlockBinding : nat -> GLuint;
  getProgramBinary : ProgramBinary }.

Record Caps := {
  maxTextureImageUnits : nat;
  maxVertexTextureImageUnits : nat;
  maxTransformFeedbackSeparateAttributes : nat }.

Record VertexArray := { getElementArrayBuffer : option Buffer }.

Record State := {
  getCurrentProgramId : GLuint;
  getCurrentProgramBinary : ProgramBinary;
  getDrawFramebuffer : Framebuffer;
  getRasterizerState : RasterizerState;
  getBlendState : Z;
  getBlendColor : Z;
  getDepthStencilState : Z;
  getStencilRef : GLint;
  getStencilBackRef : GLint;
  getViewport : Rectangle;
  getDepthRange : Float32.float * Float32.float;
  getScissor : Rectangle;
  isScissorTestEnabled : bool;
  isSampleCoverageEnabled : bool;
  (** [getSampleCoverageParams(&value, &invert)] *)
  getSampleCoverageParams : Float32.float * bool;
  getSamplerTexture : GLint -> GLenum -> Texture;
  getSampler : GLint -> option Sampler;
  getCurrentTransformFeedback : option TransformFeedback;
  getIndexedUniformBuffer : GLuint -> Buffer;
  getIndexedTransformFeedbackBuffer : nat -> option Buffer;
  getVertexArray : VertexArray }.

Record ResourceManager := { getProgram : GLuint -> Program }.

(** [gl::Data] *)
Record Data := {
  state : State;
  caps : Caps;
  resourceManager : ResourceManager;
  clientVersion : Z }.

(** [RangeUI]: two [unsigned int]s. *)
Record RangeUI := { rangeStart : Z; rangeEnd : Z }.

(** [RangeUI::length()], in [unsigned int]. *)
Definition rangeLength (r : RangeUI) : Z := (rangeEnd r - rangeStart r) mod 2 ^ 32.

(** Conversion of an [unsigned int] to [int]. *)
Definition to_int (z : Z) : Z := (z + 2 ^ 31) mod 2 ^ 32 - 2 ^ 31.

Record TranslatedIndexData := { indexRange : RangeUI; indexBits : Z }.

(** ** Objects the renderer creates *)

(** A texture made by [new gl::Texture2D(...)] and its siblings:
    [objectAddress] is the identity of the allocation, [objectType] the
    target of the class instantiated, [objectImpl] what [createTexture]
    returned for it. *)
Record TextureObject := {
  objectAddress : nat;
  objectType : GLenum;
  objectImpl : Z }.

(** A [gl::Texture *] as the renderer passes it to [setTexture]. *)
Inductive TexturePtr :=
| NullTexture
| ClientTexture (texture : Texture)
| RendererTexture (object : TextureObject).

(** ** Calls the renderer makes, with what came back *)

Inductive Event :=
| EvUpdateSamplerMapping
| EvGenerateSwizzle (texture : Texture) (result : Error)
| EvApplyPrimitiveType (mode : GLenum) (count : GLsizei) (result : bool)
| EvApplyRenderTarget (framebuffer : Framebuffer) (result : Error)
| EvSetViewport (viewport : Rectangle) (zNear zFar : Float32.float)
    (drawMode frontFace : GLenum) (ignoreViewport : bool)
| EvSetScissorRectangle (scissor : Rectangle) (enabled : bool)
| EvSetRasterizerState (rasterizer : RasterizerState) (result : Error)
| EvSetBlendState (framebuffer : Framebuffer) (blendState blendColor : Z)
    (sampleMask : Z) (result : Error)
| EvSetDepthStencilState (depthStencilState : Z) (stencilRef stencilBackRef : GLint)
    (frontFaceCCW : bool) (result : Error)
| EvApplyIndexBuffer (indices : Z) (elementArrayBuffer : option Buffer)
    (count : GLsizei) (mode type : GLenum) (indexInfo : TranslatedIndexData)
    (result : Error)
| EvApplyVertexBuffer (first : GLint) (count instances : GLsizei) (result : Error)
| EvApplyTransformFeedbackBuffers
| EvApplyShaders (programBinary : ProgramBinary) (framebuffer : Framebuffer)
    (rasterizerDiscard transformFeedbackActive : bool) (result : Error)
| EvApplyUniforms (result : Error)
| EvSetSamplerState (type : SamplerType) (index : nat) (texture : Texture)
    (sampler : SamplerState) (result : Error)
| EvSetTexture (type : SamplerType) (index : nat) (texture : TexturePtr)
    (result : Error)
| EvApplyUniformBuffers (boundBuffers : list Buffer) (result : Error)
| EvDrawArrays (mode : GLenum) (count instances : GLsizei)
    (transformFeedbackActive : bool) (result : Error)
| EvDrawElements (mode : GLenum) (count : GLsizei) (type : GLenum) (indices : Z)
    (elementArrayBuffer : option Buffer) (indexInfo : TranslatedIndexData)
    (instances : GLsizei) (result : Error)
| EvMarkTransformFeedbackUsage (buffer : Buffer)
| EvCreateTexture (type : GLenum) (impl : Z)
| EvSetImage (object : nat) (target : GLenum) (level width height depth : Z)
| EvERR (text : string).

(** The [gl::Error] a call came back with, for the calls that return one
    the renderer looks at. *)
Definition eventResult (ev : Event) : option Error :=
  match ev with
  | EvGenerateSwizzle _ r | EvApplyRenderTarget _ r | EvSetRasterizerState _ r
  | EvSetBlendState _ _ _ _ r | EvSetDepthStencilState _ _ _ _ r
  | EvApplyIndexBuffer _ _ _ _ _ _ r | EvApplyVertexBuffer _ _ _ r
  | EvApplyShaders _ _ _ _ r | EvApplyUniforms r | EvSetSamplerState _ _ _ _ r
  | EvSetTexture _ _ _ r | EvApplyUniformBuffers _ r | EvDrawArrays _ _ _ _ r
  | EvDrawElements _ _ _ _ _ _ _ r => Some r
  | _ => None
  end.

(** A call that came back with an error. *)
Definition eventFailed (ev : Event) : bool :=
  match eventResult ev with
  | Some r => isError r
  | None => false
  end.

(** The backend draw calls. *)
Definition isDraw (ev : Event) : bool :=
  match ev with
  | EvDrawArrays _ _ _ _ _ | EvDrawElements _ _ _ _ _ _ _ _ => true
  | _ => false
  end.

(** The calls that set device state or draw: the backend device interface
    of the specification (render target, viewport, scissor, rasterizer,
    blend and depth-stencil state, index and vertex buffers, shaders,
    uniforms, textures and sampler state, uniform and transform-feedback
    buffers, draws). Refreshing the program's sampler mapping, regenerating
    a texture's swizzle, asking whether the primitive has geometry,
    creating a placeholder and logging are not among them. *)
Definition isDeviceStateChange (ev : Event) : bool :=
  match ev with
  | EvUpdateSamplerMapping | EvGenerateSwizzle _ _ | EvApplyPrimitiveType _ _ _
  | EvCreateTexture _ _ | EvSetImage _ _ _ _ _ _ | EvERR _
  | EvMarkTransformFeedbackUsage _ => false
  | _ => true
  end.

(** ** The backend

    The pure virtual methods of [RendererD3D] and the stateful methods of
    the program binary, the textures and the buffers, over the state
    [Device] of everything outside the renderer. *)
Record Backend (Device : Type) := {
  impl_updateSamplerMapping : Device -> Device;
  impl_generateSwizzle : Texture -> Device -> Error * Device;
  impl_applyPrimitiveType : GLenum -> GLsizei -> Device -> bool * Device;
  impl_applyRenderTarget : Framebuffer -> Device -> Error * Device;
  impl_setViewport : Rectangle -> Float32.float -> Float32.float -> GLenum -> GLenum ->
                     bool -> Device -> Device;
  impl_setScissorRectangle : Rectangle -> bool -> Device -> Device;
  impl_setRasterizerState : RasterizerState -> Device -> Error * Device;
  impl_setBlendState : Framebuffer -> Z -> Z -> Z -> Device -> Error * Device;
  impl_setDepthStencilState : Z -> GLint -> GLint -> bool -> Device -> Error * Device;
  impl_applyIndexBuffer : Z -> option Buffer -> GLsizei -> GLenum -> GLenum ->
                          TranslatedIndexData -> Device ->
                          (Error * TranslatedIndexData) * Device;
  impl_applyVertexBuffer : State -> GLint -> GLsizei -> GLsizei -> Device -> Error * Device;
  impl_applyTransformFeedbackBuffers : State -> Device -> Device;
  impl_applyShaders : ProgramBinary -> Framebuffer -> bool -> bool -> Device ->
                      Error * Device;
  impl_applyUniforms : Device -> Error * Device;
  impl_setSamplerState : SamplerType -> nat -> Texture -> SamplerState -> Device ->
                         Error * Device;
  impl_setTexture : SamplerType -> nat -> TexturePtr -> Device -> Error * Device;
  impl_applyUniformBuffers : list Buffer -> Device -> Error * Device;
  impl_drawArrays : GLenum -> GLsizei -> GLsizei -> bool -> Device -> Error * Device;
  impl_drawElements : GLenum -> GLsizei -> GLenum -> Z -> option Buffer ->
                      TranslatedIndexData -> GLsizei -> Device -> Error * Device;
  impl_markTransformFeedbackUsage : Buffer -> Device -> Device;
  impl_createTexture : GLenum -> Device -> Z * Device;
  impl_setImage : nat -> GLenum -> Z -> Z -> Z -> Z -> Device -> Device }.

(** ** The renderer *)

(** [mIncompleteTextures] and the allocator behind [new]; [device] is the
    state of the backend. *)
Record Renderer (Device : Type) := {
  device : Device;
  mIncompleteTextures : gmap Z TextureObject;
  nextObject : nat }.

Arguments device {Device} _.
Arguments mIncompleteTextures {Device} _.
Arguments nextObject {Device} _.

(** [RendererD3D::RendererD3D]: no incomplete texture yet. *)
Definition newRenderer {Device : Type} (d : Device) : Renderer Device :=
  {| device := d; mIncompleteTextures := ∅; nextObject := 0 |}.

(** *** The monad of the pipeline: renderer state and the calls made *)

Definition M (Device A : Type) : Type :=
  Renderer Device -> A * Renderer Device * list Event.

Definition ret {Device A : Type} (a : A) : M Device A := fun r => (a, r, []).

Definition bind {Device A B : Type} (m : M Device A) (k : A -> M Device B) : M Device B :=
  fun r =>
    let '(a, r1, evs1) := m r in
    let '(b, r2, evs2) := k a r1 in
    (b, r2, evs1 ++ evs2).

Notation "'let!' x ':=' m 'in' k" := (bind m (fun x => k))
  (at level 10, x name, m at level 100, k at level 200).
Notation "'do!' m 'in' k" := (bind m (fun _ => k))
  (at level 10, m at level 100, k at level 200).

(** [error = m; if (error.isError()) return error; k] *)
Definition orReturn {Device : Type} (m k : M Device Error) : M Device Error :=
  let! error := m in if isError error then ret error else k.

Notation "'try!' m 'in' k" := (orReturn m k)
  (at level 10, m at level 100, k at level 200).

(** A [for] loop over [count] indices from [index] whose body may return
    from the function with an error. *)
Fixpoint forLoop {Device : Type} (count index : nat) (body : nat -> M Device Error)
    : M Device Error :=
  match count with
  | O => ret NoError
  | S count' => try! body index in forLoop count' (S index) body
  end.

(** A call through the backend that returns a value. *)
Definition call {Device A : Type} (f : Device -> A * Device) (ev : A -> Event)
    : M Device A :=
  fun r =>
    let '(a, d) := f (device r) in
    (a, {| device := d; mIncompleteTextures := mIncompleteTextures r;
           nextObject := nextObject r |}, [ev a]).

(** A call through the backend that returns nothing. *)
Definition callVoid {Device : Type} (f : Device -> Device) (ev : Event) : M Device unit :=
  fun r =>
    (tt, {| device := f (device r); mIncompleteTextures := mIncompleteTextures r;
            nextObject := nextObject r |}, [ev]).

(** [new]: the next fresh address. *)
Definition allocate {Device : Type} : M Device nat :=
  fun r =>
    (nextObject r,
     {| device := device r; mIncompleteTextures := mIncompleteTextures r;
        nextObject := S (nextObject r) |}, []).

(** ** Library routines *)

(** [std::lower_bound] over [a[first, first+count)]: halve the range until
    it is empty. [fuel] bounds the iterations; [count] decreases in each. *)
Fixpoint lower_bound (fuel : nat) (a : list Z) (first count : nat) (val : Z) : nat :=
  match fuel with
  | O => first
  | S fuel' =>
      match count with
      | O => first
      | _ =>
          let step := Nat.div2 count in
          let it := (first + step)%nat in
          if nth it a 0 <? val
          then lower_bound fuel' a (S it) (count - S step) val
          else lower_bound fuel' a first step val
      end
  end.

(** [std::binary_search(a.begin(), a.begin() + length, val)] *)
Definition binary_search (a : list Z) (val : Z) : bool :=
  let last := List.length a in
  let first := lower_bound last a 0 last val in
  (first <? last)%nat && negb (val <? nth first a 0).

(** [std::sort] on a range of [unsigned int]: the ascending rearrangement. *)
Definition std_sort (a : list Z) : list Z := merge_sort Z.le a.

(** Modelled from the spec: [gl::IsTriangleMode] of [common/utilities], which
    is not under src; the triangle-family modes. *)
Definition IsTriangleMode (drawMode : GLenum) : bool :=
  (drawMode =? GL_TRIANGLES) || (drawMode =? GL_TRIANGLE_FAN)
  || (drawMode =? GL_TRIANGLE_STRIP).

(** ** The pipeline *)

Section Pipeline.

Context {Device : Type}.
Variable B : Backend Device.

(** [gl::IMPLEMENTATION_MAX_DRAW_BUFFERS], a constant of the build. *)
Variable IMPLEMENTATION_MAX_DRAW_BUFFERS : nat.

Local Abbreviation M := (M Device).

(** *** Calls through the backend *)

Definition updateSamplerMapping : M unit :=
  callVoid (impl_updateSamplerMapping _ B) EvUpdateSamplerMapping.

Definition generateSwizzle (texture : Texture) : M Error :=
  call (impl_generateSwizzle _ B texture) (EvGenerateSwizzle texture).

Definition applyPrimitiveType (mode : GLenum) (count : GLsizei) : M bool :=
  call (impl_applyPrimitiveType _ B mode count) (EvApplyPrimitiveType mode count).

Definition applyRenderTargetImpl (framebuffer : Framebuffer) : M Error :=
  call (impl_applyRenderTarget _ B framebuffer) (EvApplyRenderTarget framebuffer).

Definition setViewport (viewport : Rectangle) (zNear zFar : Float32.float)
    (drawMode frontFace : GLenum) (ignoreViewport : bool) : M unit :=
  callVoid (impl_setViewport _ B viewport zNear zFar drawMode frontFace ignoreViewport)
    (EvSetViewport viewport zNear zFar drawMode frontFace ignoreViewport).

Definition setScissorRectangle (scissor : Rectangle) (enabled : bool) : M unit :=
  callVoid (impl_setScissorRectangle _ B scissor enabled)
    (EvSetScissorRectangle scissor enabled).

Definition setRasterizerState (rasterizer : RasterizerState) : M Error :=
  call (impl_setRasterizerState _ B rasterizer) (EvSetRasterizerState rasterizer).

Definition setBlendState (framebuffer : Framebuffer) (blendState blendColor : Z)
    (mask : Z) : M Error :=
  call (impl_setBlendState _ B framebuffer blendState blendColor mask)
    (EvSetBlendState framebuffer blendState blendColor mask).

Definition setDepthStencilState (depthStencilState : Z) (stencilRef stencilBackRef : GLint)
    (frontFaceCCW : bool) : M Error :=
  call (impl_setDepthStencilState _ B depthStencilState stencilRef stencilBackRef frontFaceCCW)
    (EvSetDepthStencilState depthStencilState stencilRef stencilBackRef frontFaceCCW).

(** [applyIndexBuffer(..., &indexInfo)] returns the error and the
    translated index data it wrote. *)
Definition applyIndexBuffer (indices : Z) (buffer : option Buffer) (count : GLsizei)
    (mode type : GLenum) (indexInfo : TranslatedIndexData)
    : M (Error * TranslatedIndexData) :=
  call (impl_applyIndexBuffer _ B indices buffer count mode type indexInfo)
    (fun r => EvApplyIndexBuffer indices buffer count mode type (snd r) (fst r)).

Definition applyVertexBuffer (st : State) (first : GLint) (count instances : GLsizei)
    : M Error :=
  call (impl_applyVertexBuffer _ B st first count instances)
    (EvApplyVertexBuffer first count instances).

Definition applyTransformFeedbackBuffersImpl (st : State) : M unit :=
  callVoid (impl_applyTransformFeedbackBuffers _ B st) EvApplyTransformFeedbackBuffers.

Definition applyShadersImpl (programBinary : ProgramBinary) (framebuffer : Framebuffer)
    (rasterizerDiscard transformFeedbackActive : bool) : M Error :=
  call (impl_applyShaders _ B programBinary framebuffer rasterizerDiscard
          transformFeedbackActive)
    (EvApplyShaders programBinary framebuffer rasterizerDiscard transformFeedbackActive).

Definition applyUniforms : M Error :=
  call (impl_applyUniforms _ B) EvApplyUniforms.

Definition setSamplerState (type : SamplerType) (index : nat) (texture : Texture)
    (sampler : SamplerState) : M Error :=
  call (impl_setSamplerState _ B type index texture sampler)
    (EvSetSamplerState type index texture sampler).

Definition setTexture (type : SamplerType) (index : nat) (texture : TexturePtr)
    : M Error :=
  call (impl_setTexture _ B type index texture) (EvSetTexture type index texture).

Definition applyUniformBuffersImpl (boundBuffers : list Buffer) : M Error :=
  call (impl_applyUniformBuffers _ B boundBuffers) (EvApplyUniformBuffers boundBuffers).

Definition drawArraysImpl (mode : GLenum) (count instances : GLsizei)
    (transformFeedbackActive : bool) : M Error :=
  call (impl_drawArrays _ B mode count instances transformFeedbackActive)
    (EvDrawArrays mode count instances transformFeedbackActive).

Definition drawElementsImpl (mode : GLenum) (count : GLsizei) (type : GLenum)
    (indices : Z) (buffer : option Buffer) (indexInfo : TranslatedIndexData)
    (instances : GLsizei) : M Error :=
  call (impl_drawElements _ B mode count type indices buffer indexInfo instances)
    (EvDrawElements mode count type indices buffer indexInfo instances).

Definition createTexture (type : GLenum) : M Z :=
  call (impl_createTexture _ B type) (EvCreateTexture type).

Definition setImage (object : nat) (target : GLenum) (level width height depth : Z)
    : M unit :=
  callVoid (impl_setImage _ B object target level width height depth)
    (EvSetImage object target level width height depth).

(** [ERR(...)]: a line in the trace log. *)
Definition ERR (text : string) : M unit := fun r => (tt, r, [EvERR text]).

(** *** generateSwizzles (lines 203-246) *)

Definition generateSwizzlesFor (data : Data) (type : SamplerType) : M Error :=
  let programBinary := getCurrentProgramBinary (state data) in
  let samplerRange := getUsedSamplerRange programBinary type in
  try! forLoop samplerRange 0 (fun i =>
    let textureType := getSamplerTextureType programBinary type i in
    let textureUnit := getSamplerMapping programBinary type i in
    if negb (textureUnit =? -1) then
      let texture := getSamplerTexture (state data) textureUnit textureType in
      if swizzleRequired (getSamplerState texture) then
        try! generateSwizzle texture in ret NoError
      else ret NoError
    else ret NoError) in
  ret NoError.

Definition generateSwizzles (data : Data) : M Error :=
  try! generateSwizzlesFor data SAMPLER_VERTEX in
  try! generateSwizzlesFor data SAMPLER_PIXEL in
  ret NoError.

(** *** applyRenderTarget (lines 250-269) *)

Definition applyRenderTarget (data : Data) (drawMode : GLenum) (ignoreViewport : bool)
    : M Error :=
  let framebufferObject := getDrawFramebuffer (state data) in
  try! applyRenderTargetImpl framebufferObject in
  let '(nearZ, farZ) := getDepthRange (state data) in
  do! setViewport (getViewport (state data)) nearZ farZ drawMode
        (frontFace (getRasterizerState (state data))) ignoreViewport in
  do! setScissorRectangle (getScissor (state data)) (isScissorTestEnabled (state data)) in
  ret NoError.

(** *** applyState (lines 272-332) *)

Definition applyState (data : Data) (drawMode : GLenum) : M Error :=
  let framebufferObject := getDrawFramebuffer (state data) in
  let samples := getSamples framebufferObject in
  let rasterizer0 := getRasterizerState (state data) in
  let rasterizer :=
    {| cullFace := cullFace rasterizer0;
       cullMode := cullMode rasterizer0;
       frontFace := frontFace rasterizer0;
       pointDrawMode := (drawMode =? GL_POINTS);
       multiSample := negb (samples =? 0);
       rasterizerDiscard := rasterizerDiscard rasterizer0;
       rasterizerBits := rasterizerBits rasterizer0 |} in
  try! setRasterizerState rasterizer in
  let '(coverageValue, coverageInvert) := getSampleCoverageParams (state data) in
  let mask := sampleMask (isSampleCoverageEnabled (state data)) coverageValue
                coverageInvert samples in
  try! setBlendState framebufferObject (getBlendState (state data))
         (getBlendColor (state data)) mask in
  try! setDepthStencilState (getDepthStencilState (state data))
         (getStencilRef (state data)) (getStencilBackRef (state data))
         (frontFace rasterizer =? GL_CCW) in
  ret NoError.

(** *** applyTransformFeedbackBuffers (lines 334-346) *)

Definition applyTransformFeedbackBuffers (data : Data) : M bool :=
  match getCurrentTransformFeedback (state data) with
  | Some curTransformFeedback =>
      if isStarted curTransformFeedback && negb (isPaused curTransformFeedback)
      then do! applyTransformFeedbackBuffersImpl (state data) in ret true
      else ret false
  | None => ret false
  end.

(** *** applyShaders (lines 349-365) *)

Definition applyShaders (data : Data) (transformFeedbackActive : bool) : M Error :=
  let programBinary := getCurrentProgramBinary (state data) in
  let fbo := getDrawFramebuffer (state data) in
  try! applyShadersImpl programBinary fbo
         (rasterizerDiscard (getRasterizerState (state data))) transformFeedbackActive in
  applyUniforms.

(** *** getIncompleteTexture (lines 559-619) *)

(** [mIncompleteTextures[type].get()] *)
Definition incompleteTextureAt (type : GLenum) : M TexturePtr :=
  fun r =>
    (match mIncompleteTextures r !! type with
     | Some t => RendererTexture t
     | None => NullTexture
     end, r, []).

(** [mIncompleteTextures[type].set(t)] *)
Definition setIncompleteTexture (type : GLenum) (t : TextureObject) : M unit :=
  fun r =>
    (tt, {| device := device r;
            mIncompleteTextures := <[type := t]> (mIncompleteTextures r);
            nextObject := nextObject r |}, []).

(** [mIncompleteTextures.find(type) == mIncompleteTextures.end()] *)
Definition incompleteTextureMissing (type : GLenum) : M bool :=
  fun r =>
    (match mIncompleteTextures r !! type with Some _ => false | None => true end, r, []).

(** [new gl::TextureXX(createTexture(target), INCOMPLETE_TEXTURE_ID)] *)
Definition newTexture (target : GLenum) : M TextureObject :=
  let! impl := createTexture target in
  let! address := allocate in
  ret {| objectAddress := address; objectType := target; objectImpl := impl |}.

Definition getIncompleteTexture (type : GLenum) : M TexturePtr :=
  let! missing := incompleteTextureMissing type in
  if missing then
    let! t :=
      if type =? GL_TEXTURE_CUBE_MAP then
        let! incompleteCube := newTexture GL_TEXTURE_CUBE_MAP in
        let object := objectAddress incompleteCube in
        do! setImage object GL_TEXTURE_CUBE_MAP_POSITIVE_X 0 1 1 1 in
        do! setImage object GL_TEXTURE_CUBE_MAP_NEGATIVE_X 0 1 1 1 in
        do! setImage object GL_TEXTURE_CUBE_MAP_POSITIVE_Y 0 1 1 1 in
        do! setImage object GL_TEXTURE_CUBE_MAP_NEGATIVE_Y 0 1 1 1 in
        do! setImage object GL_TEXTURE_CUBE_MAP_POSITIVE_Z 0 1 1 1 in
        do! setImage object GL_TEXTURE_CUBE_MAP_NEGATIVE_Z 0 1 1 1 in
        ret incompleteCube
      else if type =? GL_TEXTURE_3D then
        let! incomplete3d := newTexture GL_TEXTURE_3D in
        do! setImage (objectAddress incomplete3d) GL_TEXTURE_3D 0 1 1 1 in
        ret incomplete3d
      else if type =? GL_TEXTURE_2D_ARRAY then
        let! incomplete2darray := newTexture GL_TEXTURE_2D_ARRAY in
        do! setImage (objectAddress incomplete2darray) GL_TEXTURE_2D_ARRAY 0 1 1 1 in
        ret incomplete2darray
      else
        (* case GL_TEXTURE_2D, and default, which falls through to it *)
        let! incomplete2d := newTexture GL_TEXTURE_2D in
        do! setImage (objectAddress incomplete2d) GL_TEXTURE_2D 0 1 1 1 in
        ret incomplete2d
    in
    do! setIncompleteTexture type t in
    incompleteTextureAt type
  else incompleteTextureAt type.

(** *** getBoundFramebufferTextureSerials (lines 531-557) *)

(** The loop over the colour attachments, from index [i] for [n] more
    iterations; [serials] is [outSerialArray[0, serialCount)]. *)
Fixpoint colorbufferSerials (drawFramebuffer : Framebuffer) (n i : nat)
    (serials : list Z) : list Z :=
  match n with
  | O => serials
  | S n' =>
      match getColorbuffer drawFramebuffer i with
      | Some (TextureAttachment texture) =>
          colorbufferSerials drawFramebuffer n' (S i)
            (serials ++ [getTextureSerial texture])
      | _ => colorbufferSerials drawFramebuffer n' (S i) serials
      end
  end.

(** The result is [outSerialArray[0, serialCount)]. *)
Definition getBoundFramebufferTextureSerials (data : Data) : list Z :=
  let drawFramebuffer := getDrawFramebuffer (state data) in
  let serials :=
    colorbufferSerials drawFramebuffer IMPLEMENTATION_MAX_DRAW_BUFFERS 0 [] in
  let serials :=
    match getDepthOrStencilbuffer drawFramebuffer with
    | Some (TextureAttachment depthStencilTexture) =>
        serials ++ [getTextureSerial depthStencilTexture]
    | _ => serials
    end in
  std_sort serials.

(** *** applyTextures (lines 370-463) *)

Definition applyTexturesFor (data : Data) (shaderType : SamplerType)
    (framebufferSerials : list Z) : M Error :=
  let programBinary := getCurrentProgramBinary (state data) in
  let samplerRange := getUsedSamplerRange programBinary shaderType in
  try! forLoop samplerRange 0 (fun samplerIndex =>
    let textureType := getSamplerTextureType programBinary shaderType samplerIndex in
    let textureUnit := getSamplerMapping programBinary shaderType samplerIndex in
    if negb (textureUnit =? -1) then
      let texture := getSamplerTexture (state data) textureUnit textureType in
      let sampler := getSamplerState texture in
      let sampler :=
        match getSampler (state data) textureUnit with
        | Some samplerObject => getState samplerObject sampler
        | None => sampler
        end in
      if isSamplerComplete texture sampler
         && negb (binary_search framebufferSerials (getTextureSerial texture))
      then
        try! setSamplerState shaderType samplerIndex texture sampler in
        try! setTexture shaderType samplerIndex (ClientTexture texture) in
        ret NoError
      else
        let! incompleteTexture := getIncompleteTexture textureType in
        try! setTexture shaderType samplerIndex incompleteTexture in
        ret NoError
    else
      try! setTexture shaderType samplerIndex NullTexture in
      ret NoError) in
  let samplerCount :=
    match shaderType with
    | SAMPLER_PIXEL => maxTextureImageUnits (caps data)
    | SAMPLER_VERTEX => maxVertexTextureImageUnits (caps data)
    end in
  try! forLoop (samplerCount - samplerRange) samplerRange (fun samplerIndex =>
    try! setTexture shaderType samplerIndex NullTexture in
    ret NoError) in
  ret NoError.

Definition applyTextures (data : Data) : M Error :=
  let framebufferSerials := getBoundFramebufferTextureSerials data in
  try! applyTexturesFor data SAMPLER_VERTEX framebufferSerials in
  try! applyTexturesFor data SAMPLER_PIXEL framebufferSerials in
  ret NoError.

(** *** applyUniformBuffers (lines 465-490) *)

(** The loop over the active uniform blocks, from [uniformBlockIndex] for
    [n] more iterations: the error it returns with, or the buffers
    collected. *)
Fixpoint collectUniformBuffers (data : Data) (programObject : Program)
    (n uniformBlockIndex : nat) (boundBuffers : list Buffer) : Error + list Buffer :=
  match n with
  | O => inr boundBuffers
  | S n' =>
      let blockBinding := getUniformBlockBinding programObject uniformBlockIndex in
      if bufferId (getIndexedUniformBuffer (state data) blockBinding) =? 0 then
        inl unboundUniformBufferError
      else
        let uniformBuffer := getIndexedUniformBuffer (state data) blockBinding in
        collectUniformBuffers data programObject n' (S uniformBlockIndex)
          (boundBuffers ++ [uniformBuffer])
  end.

Definition applyUniformBuffers (data : Data) : M Error :=
  let programObject :=
    getProgram (resourceManager data) (getCurrentProgramId (state data)) in
  let programBinary := getProgramBinary programObject in
  match collectUniformBuffers data programObject
          (getActiveUniformBlockCount programBinary) 0 [] with
  | inl error => ret error
  | inr boundBuffers => applyUniformBuffersImpl boundBuffers
  end.

(** *** skipDraw (lines 492-517) *)

Definition skipDraw (data : Data) (drawMode : GLenum) : M bool :=
  if drawMode =? GL_POINTS then
    if negb (usesPointSize (getCurrentProgramBinary (state data))) then
      do! ERR "Point rendering without writing to gl_PointSize." in
      ret true
    else ret false
  else if IsTriangleMode drawMode then
    if cullFace (getRasterizerState (state data))
       && (cullMode (getRasterizerState (state data)) =? GL_FRONT_AND_BACK)
    then ret true
    else ret false
  else ret false.

(** *** markTransformFeedbackUsage (lines 519-529) *)

Fixpoint markTransformFeedbackUsageFrom (data : Data) (n i : nat) : M unit :=
  match n with
  | O => ret tt
  | S n' =>
      do! match getIndexedTransformFeedbackBuffer (state data) i with
          | Some buffer =>
              callVoid (impl_markTransformFeedbackUsage _ B buffer)
                (EvMarkTransformFeedbackUsage buffer)
          | None => ret tt
          end in
      markTransformFeedbackUsageFrom data n' (S i)
  end.

Definition markTransformFeedbackUsage (data : Data) : M unit :=
  markTransformFeedbackUsageFrom data
    (maxTransformFeedbackSeparateAttributes (caps data)) 0.

(** *** drawElements (lines 44-126) *)

Definition drawElements (data : Data) (mode : GLenum) (count : GLsizei) (type : GLenum)
    (indices : Z) (instances : GLsizei) (indexRange0 : RangeUI) : M Error :=
  do! updateSamplerMapping in
  try! generateSwizzles data in
  let! hasGeometry := applyPrimitiveType mode count in
  if negb hasGeometry then ret NoError
  else
    try! applyRenderTarget data mode false in
    try! applyState data mode in
    let vao := getVertexArray (state data) in
    let indexInfo0 := {| indexRange := indexRange0; indexBits := 0 |} in
    let! translated :=
      applyIndexBuffer indices (getElementArrayBuffer vao) count mode type indexInfo0 in
    let '(error, indexInfo) := translated in
    if isError error then ret error
    else
      let vertexCount := to_int ((rangeLength (indexRange indexInfo) + 1) mod 2 ^ 32) in
      try! applyVertexBuffer (state data)
             (to_int (rangeStart (indexRange indexInfo))) vertexCount instances in
      let! transformFeedbackActive := applyTransformFeedbackBuffers data in
      try! applyShaders data transformFeedbackActive in
      try! applyTextures data in
      try! applyUniformBuffers data in
      let! skip := skipDraw data mode in
      if negb skip then
        try! drawElementsImpl mode count type indices (getElementArrayBuffer vao)
               indexInfo instances in
        ret NoError
      else ret NoError.

(** *** drawArrays (lines 128-201) *)

Definition drawArrays (data : Data) (mode : GLenum) (first : GLint)
    (count instances : GLsizei) : M Error :=
  do! updateSamplerMapping in
  try! generateSwizzles data in
  let! hasGeometry := applyPrimitiveType mode count in
  if negb hasGeometry then ret NoError
  else
    try! applyRenderTarget data mode false in
    try! applyState data mode in
    try! applyVertexBuffer (state data) first count instances in
    let! transformFeedbackActive := applyTransformFeedbackBuffers data in
    try! applyShaders data transformFeedbackActive in
    try! applyTextures data in
    try! applyUniformBuffers data in
    let! skip := skipDraw data mode in
    if negb skip then
      try! drawArraysImpl mode count instances transformFeedbackActive in
      do! (if transformFeedbackActive then markTransformFeedbackUsage data else ret tt) in
      ret NoError
    else ret NoError.

End Pipeline.

(** ** Auxiliary definitions: rounding to binary32 *)

Definition shifted (M : Z) (k : Z) : shr_record :=
  {| shr_m := M / 2 ^ k;
     shr_r := Z.testbit M (k - 1);
     shr_s := negb (M mod 2 ^ (k - 1) =? 0) |}.

(** round to nearest even of [M / 2^k] *)
Definition rne (M k : Z) : Z :=
  if k <=? 0 then M
  else round_nearest_even (M / 2 ^ k)
         (loc_of_shr_record (shifted M k)).

Definition fexp32 (e : Z) : Z := Z.max (e - 24) (-149).

Definition round_exp (M : positive) (E : Z) : Z := fexp32 (Zpos (digits2_pos M) + E).
Definition round_mant (M : positive) (E : Z) : Z := rne (Zpos M) (round_exp M E - E).

Definition mag32 (x : spec_float) : Z :=
  match x with
  | S754_zero _ => 0
  | S754_finite _ m e => Zpos m * 2 ^ (e + 149)
  | S754_infinity _ => 2 ^ 277
  | S754_nan => 0
  end.

Definition rounded (s : bool) (x : spec_float) : Prop :=
  match x with
  | S754_zero s' => s' = s
  | S754_infinity s' => s' = s
  | S754_finite s' m e => s' = s /\ bounded 24 128 m e = true
  | S754_nan => False
  end.

Definition rexp (X E : Z) : Z := fexp32 (Z.log2 X + 1 + E).
Definition rval (X E : Z) : Z := rne X (rexp X E - E) * 2 ^ (rexp X E + 149).


Definition smag (x : spec_float) : Z :=
  match x with
  | S754_zero _ => 0
  | S754_infinity s => if s then - 2 ^ 277 else 2 ^ 277
  | S754_finite s m e => if s then - (Zpos m * 2 ^ (e + 149)) else Zpos m * 2 ^ (e + 149)
  | S754_nan => 0
  end.

Definition is_nan (x : spec_float) : bool :=
  match x with S754_nan => true | _ => false end.

Definition mul_mag (mn : positive) (en : Z) (v : Z) : Z :=
  Z.min (rval (Zpos mn * v) (en - 149)) (2 ^ 277).

Definition mul_smag (mn : positive) (en : Z) (c : spec_float) : Z :=
  match c with
  | S754_zero _ => 0
  | S754_infinity s => if s then - 2 ^ 277 else 2 ^ 277
  | S754_finite s m e =>
      if s then - mul_mag mn en (Zpos m * 2 ^ (e + 149))
      else mul_mag mn en (Zpos m * 2 ^ (e + 149))
  | S754_nan => 0
  end.

(** ** Auxiliary definitions: the coverage ladder *)

(** Number of samples of [coverageLoop] that cross the threshold. *)
Fixpoint crossings (n : nat) (i : Z) (coverageValue threshold : Float32.float) : nat :=
  match n with
  | O => O
  | S n' =>
      if Float32.ge (Float32.mul (Float32.of_int (i + 1)) coverageValue) threshold
      then S (crossings n' (i + 1) coverageValue (Float32.add threshold Float32.one))
      else crossings n' (i + 1) coverageValue threshold
  end.

(** The threshold after [k] crossings. *)
Definition thresholdAfter (k : nat) : Float32.float :=
  Nat.iter k (fun t => Float32.add t Float32.one) Float32.half.

(** [int] values whose conversion to [float] is a normal positive number. *)
Definition normalPositive (x : Float32.float) : bool :=
  match x with
  | S754_finite false m _ => 2 ^ 23 <=? Zpos m
  | _ => false
  end.

(** ** Concrete values used to exercise the theorems *)

(** 1/128 and 1/64 as binary32. *)
Definition f_1_128 : Float32.float := S754_finite false 8388608 (-30).
Definition f_1_64 : Float32.float := S754_finite false 8388608 (-29).
(** 0.25 as binary32. *)
Definition f_1_4 : Float32.float := S754_finite false 8388608 (-25).

(** [GL_OUT_OF_MEMORY], as a backend may report it. *)
Definition outOfMemory : Error := {| code := 0x0505; message := "out of memory" |}.

Definition testSampler : SamplerState := {| swizzleRequired := false; samplerBits := 0 |}.

(** A sampler-complete texture. *)
Definition testTexture (serial : Z) : Texture :=
  {| getTextureSerial := serial;
     getSamplerState := testSampler;
     isSamplerComplete := fun _ => true |}.

(** A program with one pixel sampler, mapped to unit 0 as a 2D texture, and
    [blocks] active uniform blocks. *)
Definition testProgramBinary (pointSize : bool) (blocks : nat) : ProgramBinary :=
  {| getUsedSamplerRange :=
       fun type => match type with SAMPLER_PIXEL => 1%nat | SAMPLER_VERTEX => 0%nat end;
     getSamplerTextureType := fun _ _ => GL_TEXTURE_2D;
     getSamplerMapping := fun _ _ => 0;
     getActiveUniformBlockCount := blocks;
     usesPointSize := pointSize |}.

Definition testFramebuffer (color0 color1 : option FramebufferAttachment) : Framebuffer :=
  {| framebufferId := 1;
     getColorbuffer :=
       fun i => match i with O => color0 | S O => color1 | _ => None end;
     getDepthOrStencilbuffer := None;
     getSamples := 4 |}.

Definition testRasterizer : RasterizerState :=
  {| cullFace := false; cullMode := 0x0405; frontFace := GL_CCW;
     pointDrawMode := false; multiSample := false; rasterizerDiscard := false;
     rasterizerBits := 0 |}.

Definition testRectangle : Rectangle :=
  {| rectX := 0; rectY := 0; rectWidth := 64; rectHeight := 64 |}.

(** Unit 0 holds the texture of serial 7; every uniform block is bound to
    binding point 3, where the buffer [uniformBuffer3] is bound. *)
Definition testData (pointSize : bool) (blocks : nat)
    (color0 color1 : option FramebufferAttachment) (uniformBuffer3 : Z) : Data :=
  {| state :=
       {| getCurrentProgramId := 1;
          getCurrentProgramBinary := testProgramBinary pointSize blocks;
          getDrawFramebuffer := testFramebuffer color0 color1;
          getRasterizerState := testRasterizer;
          getBlendState := 0;
          getBlendColor := 0;
          getDepthStencilState := 0;
          getStencilRef := 0;
          getStencilBackRef := 0;
          getViewport := testRectangle;
          getDepthRange := (Float32.zero, Float32.one);
          getScissor := testRectangle;
          isScissorTestEnabled := false;
          isSampleCoverageEnabled := true;
          getSampleCoverageParams := (Float32.half, false);
          getSamplerTexture := fun _ _ => testTexture 7;
          getSampler := fun _ => None;
          getCurrentTransformFeedback := None;
          getIndexedUniformBuffer :=
            fun binding => {| bufferId := if binding =? 3 then uniformBuffer3 else 1 |};
          getIndexedTransformFeedbackBuffer := fun _ => None;
          getVertexArray := {| getElementArrayBuffer := None |} |};
     caps := {| maxTextureImageUnits := 2; maxVertexTextureImageUnits := 1;
                maxTransformFeedbackSeparateAttributes := 4 |};
     resourceManager :=
       {| getProgram := fun _ =>
            {| getUniformBlockBinding := fun _ => 3;
               getProgramBinary := testProgramBinary pointSize blocks |} |};
     clientVersion := 3 |}.

(** A backend without state: [applyPrimitiveType] answers [hasGeometry],
    [applyRenderTarget] comes back with [renderTarget], every other call
    succeeds. *)
Definition testBackend (hasGeometry : bool) (renderTarget : Error) : Backend unit :=
  {| impl_updateSamplerMapping := fun d => d;
     impl_generateSwizzle := fun _ d => (NoError, d);
     impl_applyPrimitiveType := fun _ _ d => (hasGeometry, d);
     impl_applyRenderTarget := fun _ d => (renderTarget, d);
     impl_setViewport := fun _ _ _ _ _ _ d => d;
     impl_setScissorRectangle := fun _ _ d => d;
     impl_setRasterizerState := fun _ d => (NoError, d);
     impl_setBlendState := fun _ _ _ _ d => (NoError, d);
     impl_setDepthStencilState := fun _ _ _ _ d => (NoError, d);
     impl_applyIndexBuffer := fun _ _ _ _ _ info d => ((NoError, info), d);
     impl_applyVertexBuffer := fun _ _ _ _ d => (NoError, d);
     impl_applyTransformFeedbackBuffers := fun _ d => d;
     impl_applyShaders := fun _ _ _ _ d => (NoError, d);
     impl_applyUniforms := fun d => (NoError, d);
     impl_setSamplerState := fun _ _ _ _ d => (NoError, d);
     impl_setTexture := fun _ _ _ d => (NoError, d);
     impl_applyUniformBuffers := fun _ d => (NoError, d);
     impl_drawArrays := fun _ _ _ _ d => (NoError, d);
     impl_drawElements := fun _ _ _ _ _ _ _ d => (NoError, d);
     impl_markTransformFeedbackUsage := fun _ d => d;
     impl_createTexture := fun _ d => (0, d);
     impl_setImage := fun _ _ _ _ _ _ d => d |}.

(** The data of a plain draw: a renderbuffer as colour attachment, no
    uniform block. *)
Definition plainData : Data :=
  testData true 0 (Some (RenderbufferAttachment 1)) None 1.

(** One used uniform block, with nothing bound at its binding point 3. *)
Definition unboundData : Data :=
  testData true 1 (Some (RenderbufferAttachment 1)) None 0.

(** A program that does not write the point size. *)
Definition noPointSizeData : Data :=
  testData false 0 (Some (RenderbufferAttachment 1)) None 1.

(** The sampled texture of serial 7 is also colour attachment 0. *)
Definition feedbackData : Data :=
  testData true 0 (Some (TextureAttachment (testTexture 7))) None 1.

(** The texture of serial 7 at colour attachments 0 and 1. *)
Definition twiceAttachedData : Data :=
  testData true 0 (Some (TextureAttachment (testTexture 7)))
    (Some (TextureAttachment (testTexture 7))) 1.


(** [drawArrays] of two vertices as triangles: no geometry. *)
Definition noGeometryRun : Error * Renderer unit * list Event :=
  drawArrays (testBackend false NoError) 8 plainData GL_TRIANGLES 0 2 1
    (newRenderer tt).

(** [drawArrays] with a used but unbound uniform block. *)
Definition unboundRun : Error * Renderer unit * list Event :=
  drawArrays (testBackend true NoError) 8 unboundData GL_TRIANGLES 0 3 1
    (newRenderer tt).

(** The same draw when the primitive has no geometry. *)
Definition unboundNoGeometryRun : Error * Renderer unit * list Event :=
  drawArrays (testBackend false NoError) 8 unboundData GL_TRIANGLES 0 2 1
    (newRenderer tt).

(** [drawArrays] of points with a program that does not write the point
    size. *)
Definition pointsRun : Error * Renderer unit * list Event :=
  drawArrays (testBackend true NoError) 8 noPointSizeData GL_POINTS 0 3 1
    (newRenderer tt).

(** The same draw on a backend whose [applyRenderTarget] runs out of
    memory. *)
Definition pointsFailedRun : Error * Renderer unit * list Event :=
  drawArrays (testBackend true outOfMemory) 8 noPointSizeData GL_POINTS 0 3 1
    (newRenderer tt).

(** [applyTextures] when the sampled texture is also a render target. *)
Definition feedbackRun : Error * Renderer unit * list Event :=
  applyTextures (testBackend true NoError) 8 feedbackData (newRenderer tt).

(** The incomplete 2D texture a fresh renderer creates first. *)
Definition firstIncomplete2D : TextureObject :=
  {| objectAddress := 0; objectType := GL_TEXTURE_2D; objectImpl := 0 |}.

(** ** Auxiliary definitions: runs of the pipeline *)

(** What a run returned, the renderer it left, the calls it made. *)
Definition returned {Device A : Type} (run : A * Renderer Device * list Event) : A :=
  fst (fst run).
Definition after {Device A : Type} (run : A * Renderer Device * list Event)
    : Renderer Device :=
  snd (fst run).
Definition calls {Device A : Type} (run : A * Renderer Device * list Event)
    : list Event :=
  snd run.

(** [applyPrimitiveType] answering that there is no geometry. *)
Definition isNoGeometryAnswer (ev : Event) : bool :=
  match ev with
  | EvApplyPrimitiveType _ _ false => true
  | _ => false
  end.

(** The calls made before [applyPrimitiveType]: the refresh of the sampler
    mapping and the swizzles generated. *)
Definition isSwizzleWork (ev : Event) : bool :=
  match ev with
  | EvUpdateSamplerMapping => true
  | EvGenerateSwizzle _ r => negb (isError r)
  | _ => false
  end.

(** A call that did not fail, is not a draw and is not a no-geometry
    answer. *)
Definition benign (ev : Event) : bool :=
  negb (eventFailed ev) && negb (isDraw ev) && negb (isNoGeometryAnswer ev).

Definition isMark (ev : Event) : bool :=
  match ev with
  | EvMarkTransformFeedbackUsage _ => true
  | _ => false
  end.

Definition isCreateTexture (ev : Event) : bool :=
  match ev with
  | EvCreateTexture _ _ => true
  | _ => false
  end.

Definition isSetImage (ev : Event) : bool :=
  match ev with
  | EvSetImage _ _ _ _ _ _ => true
  | _ => false
  end.

(** How a fallible step ends: without error after calls that are all
    [good], or with the error of its last call, the calls before it being
    [good]. *)
Inductive StepOutcome (good : Event -> bool) : Error -> list Event -> Prop :=
| StepOk (e : Error) (evs : list Event) :
    isError e = false ->
    Forall (fun ev => good ev = true) evs ->
    StepOutcome good e evs
| StepFailed (e : Error) (pre : list Event) (ev : Event) :
    isError e = true ->
    Forall (fun ev => good ev = true) pre ->
    eventResult ev = Some e ->
    isDraw ev = false ->
    StepOutcome good e (pre ++ [ev]).

(** Some active uniform block whose binding point has no buffer bound. *)
Definition usedBlockUnbound (data : Data) : Prop :=
  let programObject :=
    getProgram (resourceManager data) (getCurrentProgramId (state data)) in
  exists uniformBlockIndex : nat,
    (uniformBlockIndex < getActiveUniformBlockCount (getProgramBinary programObject))%nat
    /\ bufferId (getIndexedUniformBuffer (state data)
                   (getUniformBlockBinding programObject uniformBlockIndex)) = 0.

(** What [skipDraw] answers. *)
Definition skipDrawResult (data : Data) (drawMode : GLenum) : bool :=
  if drawMode =? GL_POINTS then
    negb (usesPointSize (getCurrentProgramBinary (state data)))
  else if IsTriangleMode drawMode then
    cullFace (getRasterizerState (state data))
    && (cullMode (getRasterizerState (state data)) =? GL_FRONT_AND_BACK)
  else false.

(** The runs of a draw from [applyRenderTarget] on. *)
Inductive TailRun (data : Data) (mode : GLenum) : Error -> list Event -> Prop :=
| RunFailed (e : Error) (pre : list Event) (ev : Event) :
    (* a call before the draw failed *)
    Forall (fun ev => benign ev = true) pre ->
    eventResult ev = Some e -> isError e = true -> isDraw ev = false ->
    TailRun data mode e (pre ++ [ev])
| RunInvalid (pre : list Event) :
    (* the uniform-buffer validation failed *)
    Forall (fun ev => benign ev = true) pre ->
    usedBlockUnbound data ->
    TailRun data mode unboundUniformBufferError pre
| RunSkipped (pre : list Event) :
    Forall (fun ev => benign ev = true) pre ->
    ~ usedBlockUnbound data -> skipDrawResult data mode = true ->
    TailRun data mode NoError pre
| RunDrawFailed (e : Error) (pre : list Event) (ev : Event) :
    Forall (fun ev => benign ev = true) pre ->
    isDraw ev = true -> eventResult ev = Some e -> isError e = true ->
    ~ usedBlockUnbound data -> skipDrawResult data mode = false ->
    TailRun data mode e (pre ++ [ev])
| RunDrawn (pre : list Event) (ev : Event) (marks : list Event) :
    Forall (fun ev => benign ev = true) pre ->
    isDraw ev = true -> eventFailed ev = false ->
    Forall (fun ev => isMark ev = true) marks ->
    ~ usedBlockUnbound data -> skipDrawResult data mode = false ->
    TailRun data mode NoError (pre ++ ev :: marks).

(** The runs of a draw. *)
Inductive DrawRun (data : Data) (mode : GLenum) (count : GLsizei)
    : Error -> list Event -> Prop :=
| RunNoGeometry (pre : list Event) :
    Forall (fun ev => isSwizzleWork ev = true) pre ->
    DrawRun data mode count NoError (pre ++ [EvApplyPrimitiveType mode count false])
| RunTail (e : Error) (evs : list Event) :
    TailRun data mode e evs ->
    DrawRun data mode count e evs.

(** The target of the class [getIncompleteTexture] instantiates for a
    type. *)
Definition placeholderTarget (type : GLenum) : GLenum :=
  if type =? GL_TEXTURE_CUBE_MAP then GL_TEXTURE_CUBE_MAP
  else if type =? GL_TEXTURE_3D then GL_TEXTURE_3D
  else if type =? GL_TEXTURE_2D_ARRAY then GL_TEXTURE_2D_ARRAY
  else GL_TEXTURE_2D.

(** The texture-target kinds. *)
Definition isTextureKind (type : GLenum) : bool :=
  (type =? GL_TEXTURE_2D) || (type =? GL_TEXTURE_CUBE_MAP)
  || (type =? GL_TEXTURE_3D) || (type =? GL_TEXTURE_2D_ARRAY).

(** The incomplete textures are objects the renderer allocated, one
    object per type, each of the class of its type. *)
Definition cacheInvariant {Device : Type} (r : Renderer Device) : Prop :=
  (forall type o, mIncompleteTextures r !! type = Some o ->
     (objectAddress o < nextObject r)%nat /\ objectType o = placeholderTarget type)
  /\ (forall type1 type2 o1 o2,
        mIncompleteTextures r !! type1 = Some o1 ->
        mIncompleteTextures r !! type2 = Some o2 ->
        objectAddress o1 = objectAddress o2 -> type1 = type2).

(** The renderer only ever adds incomplete textures. *)
Definition grows {Device : Type} (r r' : Renderer Device) : Prop :=
  (nextObject r <= nextObject r')%nat
  /\ (forall type o, mIncompleteTextures r !! type = Some o ->
        mIncompleteTextures r' !! type = Some o)
  /\ (cacheInvariant r -> cacheInvariant r').

(** Specifications of a computation over every renderer it may start
    from. *)
Definition Grows {Device A : Type} (m : M Device A) : Prop :=
  forall r, grows r (after (m r)).

Definition QuietSpec {Device A : Type} (good : Event -> bool) (m : M Device A) : Prop :=
  forall r, Forall (fun ev => good ev = true) (calls (m r)).

Definition StepSpec {Device : Type} (good : Event -> bool) (m : M Device Error) : Prop :=
  forall r, StepOutcome good (returned (m r)) (calls (m r)).

Definition TailSpec {Device : Type} (data : Data) (mode : GLenum) (m : M Device Error)
    : Prop :=
  forall r, TailRun data mode (returned (m r)) (calls (m r)).

(** The texture a sampler slot resolves to. *)
Definition slotTexture (data : Data) (shaderType : SamplerType) (samplerIndex : nat)
    : Texture :=
  let programBinary := getCurrentProgramBinary (state data) in
  getSamplerTexture (state data)
    (getSamplerMapping programBinary shaderType samplerIndex)
    (getSamplerTextureType programBinary shaderType samplerIndex).

(** A used, mapped sampler slot whose texture has its serial among
    [serials]. *)
Definition feedbackLoopSlot (data : Data) (serials : list Z)
    (shaderType : SamplerType) (samplerIndex : nat) : Prop :=
  let programBinary := getCurrentProgramBinary (state data) in
  (samplerIndex < getUsedSamplerRange programBinary shaderType)%nat
  /\ getSamplerMapping programBinary shaderType samplerIndex <> -1
  /\ In (getTextureSerial (slotTexture data shaderType samplerIndex)) serials.

(** What a call may bind at a slot, given the incomplete textures of [r]:
    at a feedback-loop slot, [setTexture] is given the incomplete texture
    of the slot's type and [setSamplerState] is not called. *)
Definition placed {Device : Type} (data : Data) (serials : list Z)
    (r : Renderer Device) (ev : Event) : Prop :=
  match ev with
  | EvSetTexture shaderType samplerIndex texture _ =>
      feedbackLoopSlot data serials shaderType samplerIndex ->
      exists o, texture = RendererTexture o
                /\ mIncompleteTextures r
                     !! getSamplerTextureType (getCurrentProgramBinary (state data))
                          shaderType samplerIndex = Some o
  | EvSetSamplerState shaderType samplerIndex _ _ _ =>
      ~ feedbackLoopSlot data serials shaderType samplerIndex
  | _ => True
  end.

Definition PlacedSpec {Device A : Type} (data : Data) (serials : list Z)
    (m : M Device A) : Prop :=
  forall r, Forall (placed data serials (after (m r))) (calls (m r)).

(** The serials of the texture attachments, one per attachment point, in
    the order of the attachment points. *)
Definition attachmentSerial (attachment : option FramebufferAttachment) : list Z :=
  match attachment with
  | Some (TextureAttachment texture) => [getTextureSerial texture]
  | _ => []
  end.

Definition attachedTextureSerials (maxDrawBuffers : nat) (framebuffer : Framebuffer)
    : list Z :=
  flat_map attachmentSerial
    (map (getColorbuffer framebuffer) (seq 0 maxDrawBuffers)
     ++ [getDepthOrStencilbuffer framebuffer]).

(** ** Auxiliary definitions: what the steps of a draw are expected to do *)

(** Transform feedback is current, started and not paused. *)
Definition feedbackActive (data : Data) : bool :=
  match getCurrentTransformFeedback (state data) with
  | Some curTransformFeedback =>
      isStarted curTransformFeedback && negb (isPaused curTransformFeedback)
  | None => false
  end.

(** The indexed transform-feedback buffers that are bound, by index. *)
Definition boundFeedbackBuffers (data : Data) : list Buffer :=
  omap (getIndexedTransformFeedbackBuffer (state data))
    (seq 0 (maxTransformFeedbackSeparateAttributes (caps data))).

(** The buffers of the active uniform blocks, by block index. *)
Definition blockBuffers (data : Data) : list Buffer :=
  let programObject :=
    getProgram (resourceManager data) (getCurrentProgramId (state data)) in
  map (fun uniformBlockIndex =>
         getIndexedUniformBuffer (state data)
           (getUniformBlockBinding programObject uniformBlockIndex))
    (seq 0 (getActiveUniformBlockCount (getProgramBinary programObject))).

(** The sampler state a slot's texture is tested and bound with: the
    texture's own, overwritten by the sampler object of the unit when there
    is one. *)
Definition slotSampler (data : Data) (shaderType : SamplerType) (samplerIndex : nat)
    : SamplerState :=
  let programBinary := getCurrentProgramBinary (state data) in
  let sampler := getSamplerState (slotTexture data shaderType samplerIndex) in
  match getSampler (state data)
          (getSamplerMapping programBinary shaderType samplerIndex) with
  | Some samplerObject => getState samplerObject sampler
  | None => sampler
  end.

(** [serial] is among [serials]. *)
Definition isAttached (serials : list Z) (serial : Z) : bool :=
  existsb (Z.eqb serial) serials.

(** What a call does to a sampler slot. *)
Inductive SlotCall :=
| SamplerStateSet (type : SamplerType) (index : nat) (texture : Texture)
    (sampler : SamplerState)
| TextureBound (type : SamplerType) (index : nat) (texture : Texture)
| IncompleteBound (type : SamplerType) (index : nat)
| NullBound (type : SamplerType) (index : nat).

Definition slotCall (ev : Event) : option SlotCall :=
  match ev with
  | EvSetSamplerState type index texture sampler _ =>
      Some (SamplerStateSet type index texture sampler)
  | EvSetTexture type index NullTexture _ => Some (NullBound type index)
  | EvSetTexture type index (ClientTexture texture) _ =>
      Some (TextureBound type index texture)
  | EvSetTexture type index (RendererTexture _) _ => Some (IncompleteBound type index)
  | _ => None
  end.

(** The calls expected for a used sampler slot, when the textures attached
    to the framebuffer have the serials [attached]. *)
Definition slotCalls (data : Data) (attached : list Z) (shaderType : SamplerType)
    (samplerIndex : nat) : list SlotCall :=
  let programBinary := getCurrentProgramBinary (state data) in
  if getSamplerMapping programBinary shaderType samplerIndex =? -1 then
    [NullBound shaderType samplerIndex]
  else
    let texture := slotTexture data shaderType samplerIndex in
    let sampler := slotSampler data shaderType samplerIndex in
    if isSamplerComplete texture sampler
       && negb (isAttached attached (getTextureSerial texture))
    then [SamplerStateSet shaderType samplerIndex texture sampler;
          TextureBound shaderType samplerIndex texture]
    else [IncompleteBound shaderType samplerIndex].

(** The number of sampler slots of a shader stage. *)
Definition samplerCount (data : Data) (shaderType : SamplerType) : nat :=
  match shaderType with
  | SAMPLER_PIXEL => maxTextureImageUnits (caps data)
  | SAMPLER_VERTEX => maxVertexTextureImageUnits (caps data)
  end.

(** The calls expected for the slots of a shader stage: the used slots,
    then the remaining ones, unbound. *)
Definition stageCalls (data : Data) (attached : list Z) (shaderType : SamplerType)
    : list SlotCall :=
  let samplerRange :=
    getUsedSamplerRange (getCurrentProgramBinary (state data)) shaderType in
  flat_map (slotCalls data attached shaderType) (seq 0 samplerRange)
  ++ map (NullBound shaderType)
       (seq samplerRange (samplerCount data shaderType - samplerRange)).

(** The texture whose swizzle a call regenerates. *)
Definition swizzledTexture (ev : Event) : option Texture :=
  match ev with
  | EvGenerateSwizzle texture _ => Some texture
  | _ => None
  end.

(** The swizzles expected for a used sampler slot. *)
Definition slotSwizzles (data : Data) (shaderType : SamplerType) (samplerIndex : nat)
    : list Texture :=
  let programBinary := getCurrentProgramBinary (state data) in
  if getSamplerMapping programBinary shaderType samplerIndex =? -1 then []
  else if swizzleRequired (getSamplerState (slotTexture data shaderType samplerIndex))
       then [slotTexture data shaderType samplerIndex]
       else [].

Definition stageSwizzles (data : Data) (shaderType : SamplerType) : list Texture :=
  flat_map (slotSwizzles data shaderType)
    (seq 0 (getUsedSamplerRange (getCurrentProgramBinary (state data)) shaderType)).

(** A computation whose calls, seen through [proj], are a prefix of
    [expected], and all of it when it returns without error. *)
Definition TraceSpec {Device X : Type} (proj : Event -> option X) (expected : list X)
    (m : M Device Error) : Prop :=
  forall r,
    omap proj (calls (m r)) `prefix_of` expected
    /\ (isError (returned (m r)) = false -> omap proj (calls (m r)) = expected).

(** A computation whose calls, seen through [proj], are [expected]. *)
Definition ExactSpec {Device A X : Type} (proj : Event -> option X) (expected : list X)
    (m : M Device A) : Prop :=
  forall r, omap proj (calls (m r)) = expected.

(** A computation all of whose calls satisfy [P]. *)
Definition AllSpec {Device A : Type} (P : Event -> Prop) (m : M Device A) : Prop :=
  forall r, Forall P (calls (m r)).

(** *** The order of the steps *)

(** The place of a call in the pipeline. *)
Definition pipelineStep (ev : Event) : nat :=
  match ev with
  | EvUpdateSamplerMapping => 0
  | EvGenerateSwizzle _ _ => 1
  | EvApplyPrimitiveType _ _ _ => 2
  | EvApplyRenderTarget _ _ => 3
  | EvSetViewport _ _ _ _ _ _ => 4
  | EvSetScissorRectangle _ _ => 5
  | EvSetRasterizerState _ _ => 6
  | EvSetBlendState _ _ _ _ _ => 7
  | EvSetDepthStencilState _ _ _ _ _ => 8
  | EvApplyIndexBuffer _ _ _ _ _ _ _ => 9
  | EvApplyVertexBuffer _ _ _ _ => 10
  | EvApplyTransformFeedbackBuffers => 11
  | EvApplyShaders _ _ _ _ _ => 12
  | EvApplyUniforms _ => 13
  | EvSetSamplerState _ _ _ _ _ | EvSetTexture _ _ _ _
  | EvCreateTexture _ _ | EvSetImage _ _ _ _ _ _ => 14
  | EvApplyUniformBuffers _ _ => 15
  | EvERR _ => 16
  | EvDrawArrays _ _ _ _ _ | EvDrawElements _ _ _ _ _ _ _ _ => 17
  | EvMarkTransformFeedbackUsage _ => 18
  end.

(** The steps made of several calls: the swizzles, the textures, the
    marking of the transform-feedback buffers. *)
Definition repeatedStep (step : nat) : bool :=
  match step with
  | 1 | 14 | 18 => true
  | _ => false
  end%nat.

(** [b] may come after [a] in a draw: it belongs to a later step, or to
    the same step when the step is made of several calls. *)
Definition follows (a b : Event) : Prop :=
  (pipelineStep a < pipelineStep b)%nat
  \/ (pipelineStep a = pipelineStep b /\ repeatedStep (pipelineStep a) = true).

(** A computation whose calls are in the order of the pipeline, within the
    steps [lo] to [hi]. *)
Definition Ordered {Device A : Type} (lo hi : nat) (m : M Device A) : Prop :=
  forall r,
    StronglySorted follows (calls (m r))
    /\ Forall (fun ev => (lo <= pipelineStep ev <= hi)%nat) (calls (m r)).

(** *** The end of a draw *)

(** A call that is neither a draw nor the marking of a buffer. *)
Definition beforeDraw (ev : Event) : bool := negb (isDraw ev) && negb (isMark ev).

(** A run that, after calls that come before the draw, ends with the
    calls [post] such that [Q pre post], or with nothing more. *)
Definition EndsWith (Q : list Event -> list Event -> Prop) (evs : list Event) : Prop :=
  exists pre post,
    evs = pre ++ post
    /\ Forall (fun ev => beforeDraw ev = true) pre
    /\ (post = [] \/ Q pre post).

Definition EndSpec {Device A : Type} (Q : list Event -> list Event -> Prop)
    (m : M Device A) : Prop :=
  forall r, EndsWith Q (calls (m r)).

(** [Q] still holds when more calls come first. *)
Definition Prepends (Q : list Event -> list Event -> Prop) : Prop :=
  forall more pre post, Q pre post -> Q (more ++ pre) post.

(** How [drawArrays] ends. *)
Definition arraysEnd (data : Data) (mode : GLenum) (count instances : Z)
    (post : list Event) : Prop :=
  exists result,
    post = EvDrawArrays mode count instances (feedbackActive data) result
           :: (if isError result || negb (feedbackActive data) then []
               else map EvMarkTransformFeedbackUsage (boundFeedbackBuffers data)).

(** How [drawElements] ends, after the calls [pre]. *)
Definition elementsEnd (data : Data) (mode : GLenum) (count type indices instances : Z)
    (pre post : list Event) : Prop :=
  let buffer := getElementArrayBuffer (getVertexArray (state data)) in
  exists indexInfo translated applied result,
    isError translated = false
    /\ In (EvApplyIndexBuffer indices buffer count mode type indexInfo translated) pre
    /\ In (EvApplyVertexBuffer
             (to_int (rangeStart (indexRange indexInfo)))
             (to_int ((rangeLength (indexRange indexInfo) + 1) mod 2 ^ 32))
             instances applied) pre
    /\ post = [EvDrawElements mode count type indices buffer indexInfo instances result].

(** A computation that leaves the incomplete textures and the allocator
    as they are. *)
Definition Keeps {Device A : Type} (m : M Device A) : Prop :=
  forall r,
    mIncompleteTextures (after (m r)) = mIncompleteTextures r
    /\ nextObject (after (m r)) = nextObject r.

(** The calls of a successful [getIncompleteTexture] that finds nothing
    kept for the type: the images of the texture it creates. *)
Definition imageTargets (target : GLenum) : list GLenum :=
  if target =? GL_TEXTURE_CUBE_MAP then
    [GL_TEXTURE_CUBE_MAP_POSITIVE_X; GL_TEXTURE_CUBE_MAP_NEGATIVE_X;
     GL_TEXTURE_CUBE_MAP_POSITIVE_Y; GL_TEXTURE_CUBE_MAP_NEGATIVE_Y;
     GL_TEXTURE_CUBE_MAP_POSITIVE_Z; GL_TEXTURE_CUBE_MAP_NEGATIVE_Z]
  else [target].

(** A used, mapped sampler slot that is bound to an incomplete texture:
    its texture is not sampler-complete or is attached to the
    framebuffer. *)
Definition needsIncomplete (data : Data) (attached : list Z)
    (shaderType : SamplerType) (samplerIndex : nat) : bool :=
  let programBinary := getCurrentProgramBinary (state data) in
  let texture := slotTexture data shaderType samplerIndex in
  negb (getSamplerMapping programBinary shaderType samplerIndex =? -1)
  && negb (isSamplerComplete texture (slotSampler data shaderType samplerIndex)
           && negb (isAttached attached (getTextureSerial texture))).

(** The rasterizer state [applyState] hands to the backend. *)
Definition drawRasterizer (data : Data) (drawMode : GLenum) : RasterizerState :=
  let rasterizer := getRasterizerState (state data) in
  {| cullFace := cullFace rasterizer;
     cullMode := cullMode rasterizer;
     frontFace := frontFace rasterizer;
     pointDrawMode := (drawMode =? GL_POINTS);
     multiSample := negb (getSamples (getDrawFramebuffer (state data)) =? 0);
     rasterizerDiscard := rasterizerDiscard rasterizer;
     rasterizerBits := rasterizerBits rasterizer |}.

(** What the calls of a draw of mode [mode] carry of the client state. *)
Definition carriesClientState (data : Data) (mode : GLenum) (ev : Event) : Prop :=
  let st := state data in
  match ev with
  | EvApplyRenderTarget framebuffer _ => framebuffer = getDrawFramebuffer st
  | EvSetViewport viewport zNear zFar drawMode front ignoreViewport =>
      viewport = getViewport st /\ (zNear, zFar) = getDepthRange st
      /\ drawMode = mode /\ front = frontFace (getRasterizerState st)
      /\ ignoreViewport = false
  | EvSetScissorRectangle scissor enabled =>
      scissor = getScissor st /\ enabled = isScissorTestEnabled st
  | EvSetRasterizerState rasterizer _ => rasterizer = drawRasterizer data mode
  | EvSetBlendState framebuffer blendState blendColor _ _ =>
      framebuffer = getDrawFramebuffer st /\ blendState = getBlendState st
      /\ blendColor = getBlendColor st
  | EvSetDepthStencilState depthStencilState stencilRef stencilBackRef frontFaceCCW _ =>
      depthStencilState = getDepthStencilState st /\ stencilRef = getStencilRef st
      /\ stencilBackRef = getStencilBackRef st
      /\ frontFaceCCW = (frontFace (getRasterizerState st) =? GL_CCW)
  | EvApplyTransformFeedbackBuffers => feedbackActive data = true
  | EvApplyShaders programBinary framebuffer discard active _ =>
      programBinary = getCurrentProgramBinary st /\ framebuffer = getDrawFramebuffer st
      /\ discard = rasterizerDiscard (getRasterizerState st)
      /\ active = feedbackActive data
  | EvERR _ => mode = GL_POINTS /\ usesPointSize (getCurrentProgramBinary st) = false
  | EvMarkTransformFeedbackUsage _ => feedbackActive data = true
  | _ => True
  end.

(** A call that creates nothing. *)
Definition createsNothing (ev : Event) : bool :=
  negb (isCreateTexture ev) && negb (isSetImage ev).

(** An incomplete texture bound to a slot is the one the renderer [r] keeps
    for the texture type of the slot. *)
Definition keptAt {Device : Type} (data : Data) (r : Renderer Device) (ev : Event)
    : Prop :=
  match ev with
  | EvSetTexture shaderType samplerIndex (RendererTexture o) _ =>
      mIncompleteTextures r
        !! getSamplerTextureType (getCurrentProgramBinary (state data))
             shaderType samplerIndex = Some o
  | _ => True
  end.

Definition KeptSpec {Device A : Type} (data : Data) (m : M Device A) : Prop :=
  forall r, Forall (keptAt data (after (m r))) (calls (m r)).

(** The incomplete textures [kept] hold one for the texture type of every
    used sampler slot that is bound to an incomplete texture. *)
Definition placeholdersKept (data : Data) (attached : list Z)
    (kept : gmap Z TextureObject) : Prop :=
  forall shaderType samplerIndex,
    (samplerIndex < getUsedSamplerRange (getCurrentProgramBinary (state data))
                      shaderType)%nat ->
    needsIncomplete data attached shaderType samplerIndex = true ->
    exists o,
      kept !! getSamplerTextureType (getCurrentProgramBinary (state data))
                shaderType samplerIndex = Some o.

(** A computation that, started with incomplete textures such that [C],
    leaves them and the allocator as they are and creates nothing. *)
Definition KeepsWhen {Device A : Type} (C : gmap Z TextureObject -> Prop)
    (m : M Device A) : Prop :=
  forall r, C (mIncompleteTextures r) ->
    mIncompleteTextures (after (m r)) = mIncompleteTextures r
    /\ nextObject (after (m r)) = nextObject r
    /\ Forall (fun ev => createsNothing ev = true) (calls (m r)).

(** ** More concrete values *)

(** Two used uniform blocks, both at binding point 3, where buffer 5 is
    bound. *)
Definition boundData : Data :=
  testData true 2 (Some (RenderbufferAttachment 1)) None 5.


(** The renderer after a first [applyTextures] that binds an incomplete
    texture. *)
Definition afterFeedbackRun : Renderer unit := after feedbackRun.

(** A texture whose sampler state requires a swizzle. *)
Definition swizzleTexture : Texture :=
  {| getTextureSerial := 9;
     getSamplerState := {| swizzleRequired := true; samplerBits := 0 |};
     isSamplerComplete := fun _ => true |}.

(** The plain draw with that texture at every unit. *)
Definition swizzleData : Data :=
  {| state :=
       {| getCurrentProgramId := getCurrentProgramId (state plainData);
          getCurrentProgramBinary := getCurrentProgramBinary (state plainData);
          getDrawFramebuffer := getDrawFramebuffer (state plainData);
          getRasterizerState := getRasterizerState (state plainData);
          getBlendState := getBlendState (state plainData);
          getBlendColor := getBlendColor (state plainData);
          getDepthStencilState := getDepthStencilState (state plainData);
          getStencilRef := getStencilRef (state plainData);
          getStencilBackRef := getStencilBackRef (state plainData);
          getViewport := getViewport (state plainData);
          getDepthRange := getDepthRange (state plainData);
          getScissor := getScissor (state plainData);
          isScissorTestEnabled := isScissorTestEnabled (state plainData);
          isSampleCoverageEnabled := isSampleCoverageEnabled (state plainData);
          getSampleCoverageParams := getSampleCoverageParams (state plainData);
          getSamplerTexture := fun _ _ => swizzleTexture;
          getSampler := getSampler (state plainData);
          getCurrentTransformFeedback := getCurrentTransformFeedback (state plainData);
          getIndexedUniformBuffer := getIndexedUniformBuffer (state plainData);
          getIndexedTransformFeedbackBuffer :=
            getIndexedTransformFeedbackBuffer (state plainData);
          getVertexArray := getVertexArray (state plainData) |};
     caps := caps plainData;
     resourceManager := resourceManager plainData;
     clientVersion := clientVersion plainData |}.

(** * Facts *)

(** ** binary32 rounding and order *)

Lemma digits2_pos_size (m : positive) : digits2_pos m = Pos.size m.
Proof. induction m; simpl; congruence. Qed.

Lemma digits_bounds (m : positive) :
  2 ^ (Zpos (digits2_pos m) - 1) <= Zpos m < 2 ^ Zpos (digits2_pos m).
Proof.
  rewrite digits2_pos_size.
  pose proof (Pos.size_gt m) as Hgt.
  pose proof (Pos.size_le m) as Hle.
  split.
  - assert (2 ^ Zpos (Pos.size m) <= 2 * Zpos m).
    { change (2 * Zpos m) with (Zpos (m~0)). rewrite <- Pos2Z.inj_pow. apply Pos2Z.pos_le_pos. exact Hle. }
    replace (Zpos (Pos.size m)) with (Z.succ (Zpos (Pos.size m) - 1)) in H by lia.
    rewrite Z.pow_succ_r in H by lia. lia.
  - rewrite <- Pos2Z.inj_pow. apply Pos2Z.pos_lt_pos. exact Hgt.
Qed.

Lemma iter_pos_iter {A} (f : A -> A) (p : positive) (x : A) :
  SpecFloat.iter_pos f p x = Pos.iter f x p.
Proof.
  revert x. induction p; intros x; simpl.
  - rewrite !IHp. rewrite <- !Pos.iter_swap. reflexivity.
  - rewrite !IHp. reflexivity.
  - reflexivity.
Qed.

Lemma shr_1_nonneg (m : Z) (r s : bool) : 0 <= m ->
  shr_1 {| shr_m := m; shr_r := r; shr_s := s |} =
  {| shr_m := m / 2; shr_r := Z.odd m; shr_s := r || s |}.
Proof.
  intros Hm. destruct m as [|p|p]; [reflexivity| |lia].
  destruct p; simpl shr_1; f_equal;
    try (apply Z.div_unique with 1; lia);
    try (apply Z.div_unique with 0; lia).
Qed.

Lemma mod_pow2_split (M k : Z) : 1 <= k ->
  M mod 2 ^ k = M mod 2 ^ (k - 1) + 2 ^ (k - 1) * ((M / 2 ^ (k - 1)) mod 2).
Proof.
  intros Hk. replace (2 ^ k) with (2 ^ (k - 1) * 2).
  - apply Z.rem_mul_r; [apply Z.pow_nonzero; lia | lia].
  - replace k with (Z.succ (k - 1)) at 2 by lia.
    rewrite Z.pow_succ_r by lia. lia.
Qed.

Lemma testbit_div (M k : Z) : 0 <= k -> Z.testbit M k = Z.odd (M / 2 ^ k).
Proof.
  intros Hk. rewrite Z.testbit_odd, Z.shiftr_div_pow2 by lia. reflexivity.
Qed.

Lemma shr_1_shifted (M k : Z) : 0 <= M -> 1 <= k ->
  shr_1 (shifted M k) = shifted M (k + 1).
Proof.
  intros HM Hk. unfold shifted.
  rewrite shr_1_nonneg by (apply Z.div_pos; [lia | apply Z.pow_pos_nonneg; lia]).
  replace (k + 1 - 1) with k by lia.
  f_equal.
  - rewrite Z.div_div by (try apply Z.pow_pos_nonneg; lia).
    rewrite Z.mul_comm, <- Z.pow_succ_r by lia. reflexivity.
  - rewrite testbit_div by lia. reflexivity.
  - rewrite (mod_pow2_split M k) by lia.
    rewrite testbit_div by lia. rewrite <- Z.bit0_mod, Z.bit0_odd.
    assert (Hp : 0 < 2 ^ (k - 1)) by (apply Z.pow_pos_nonneg; lia).
    pose proof (Z.mod_pos_bound M (2 ^ (k - 1)) Hp) as Hb.
    destruct (Z.odd (M / 2 ^ (k - 1))); simpl.
    + symmetry. apply negb_true_iff, Z.eqb_neq. lia.
    + rewrite Z.mul_0_r, Z.add_0_r. reflexivity.
Qed.

Lemma shr_1_first (M : Z) : 0 <= M ->
  shr_1 {| shr_m := M; shr_r := false; shr_s := false |} = shifted M 1.
Proof.
  intros HM. rewrite shr_1_nonneg by assumption. unfold shifted.
  simpl (1 - 1). rewrite Z.mod_1_r. change (2 ^ 1) with 2.
  rewrite testbit_div by lia. change (2 ^ 0) with 1. rewrite Z.div_1_r. reflexivity.
Qed.

Lemma iter_shr_1 (M : Z) (p : positive) : 0 <= M ->
  SpecFloat.iter_pos shr_1 p {| shr_m := M; shr_r := false; shr_s := false |} = shifted M (Zpos p).
Proof.
  intros HM. rewrite iter_pos_iter.
  induction p using Pos.peano_ind.
  - simpl. apply shr_1_first; assumption.
  - rewrite Pos.iter_succ, IHp, shr_1_shifted by lia.
    f_equal. lia.
Qed.

Lemma rne_bounds (M k : Z) : 0 <= M -> 1 <= k ->
  M / 2 ^ k <= rne M k <= M / 2 ^ k + 1.
Proof.
  intros HM Hk. unfold rne. destruct (Z.leb_spec k 0); [lia|].
  unfold shifted, loc_of_shr_record, round_nearest_even.
  destruct (Z.testbit _ _), (negb _); try destruct (Z.even _); lia.
Qed.

Lemma testbit_half (M k : Z) : 0 <= M -> 1 <= k ->
  Z.testbit M (k - 1) = (2 ^ (k - 1) <=? M mod 2 ^ k).
Proof.
  intros HM Hk. rewrite (mod_pow2_split M k) by lia.
  rewrite testbit_div by lia. rewrite <- Z.bit0_mod, Z.bit0_odd.
  assert (Hp : 0 < 2 ^ (k - 1)) by (apply Z.pow_pos_nonneg; lia).
  pose proof (Z.mod_pos_bound M (2 ^ (k - 1)) Hp) as Hb.
  destruct (Z.odd _); simpl; symmetry; [apply Z.leb_le | apply Z.leb_gt]; lia.
Qed.

Lemma rne_mono (M N k : Z) : 0 <= M -> M <= N -> rne M k <= rne N k.
Proof.
  intros HM HMN. unfold rne. destruct (Z.leb_spec k 0) as [|Hk]; [lia|].
  assert (Hp : 0 < 2 ^ k) by (apply Z.pow_pos_nonneg; lia).
  assert (Hq : M / 2 ^ k <= N / 2 ^ k) by (apply Z.div_le_mono; lia).
  destruct (Z.eq_dec (M / 2 ^ k) (N / 2 ^ k)) as [Heq|Hne].
  - (* same quotient: compare remainders *)
    assert (Hrem : M mod 2 ^ k <= N mod 2 ^ k).
    { rewrite !Z.mod_eq by lia. rewrite Heq. lia. }
    unfold shifted, loc_of_shr_record, round_nearest_even. simpl.
    rewrite !testbit_half by lia. rewrite Heq.
    pose proof (mod_pow2_split M k ltac:(lia)) as HsM.
    pose proof (mod_pow2_split N k ltac:(lia)) as HsN.
    assert (Hh : 0 < 2 ^ (k - 1)) by (apply Z.pow_pos_nonneg; lia).
    pose proof (Z.mod_pos_bound M (2 ^ (k - 1)) Hh).
    pose proof (Z.mod_pos_bound N (2 ^ (k - 1)) Hh).
    pose proof (Z.mod_pos_bound (M / 2 ^ (k - 1)) 2 ltac:(lia)).
    pose proof (Z.mod_pos_bound (N / 2 ^ (k - 1)) 2 ltac:(lia)).
    destruct (Z.leb_spec (2 ^ (k - 1)) (M mod 2 ^ k)) as [HrM|HrM];
    destruct (Z.leb_spec (2 ^ (k - 1)) (N mod 2 ^ k)) as [HrN|HrN];
    destruct (Z.eqb_spec (M mod 2 ^ (k - 1)) 0) as [HsM0|HsM0];
    destruct (Z.eqb_spec (N mod 2 ^ (k - 1)) 0) as [HsN0|HsN0];
    simpl; try destruct (Z.even _); try lia.
    all: assert ((M / 2 ^ (k - 1)) mod 2 = 1) by nia;
         assert ((N / 2 ^ (k - 1)) mod 2 = 1) by nia; nia.
  - pose proof (rne_bounds M k HM ltac:(lia)) as HbM.
    pose proof (rne_bounds N k ltac:(lia) ltac:(lia)) as HbN.
    unfold rne in HbM, HbN. destruct (Z.leb_spec k 0); lia.
Qed.

(** *** binary32 rounding *)

Lemma fexp32_eq e : fexp 24 128 e = fexp32 e.
Proof. reflexivity. Qed.

Lemma shr_exact_eq (m e n : Z) : 0 <= m ->
  shr {| shr_m := m; shr_r := false; shr_s := false |} e n =
  (if n <=? 0 then {| shr_m := m; shr_r := false; shr_s := false |} else shifted m n,
   e + Z.max n 0).
Proof.
  intros Hm. unfold shr. destruct n as [|p|p].
  - change (0 <=? 0) with true. cbv iota. f_equal. lia.
  - change (Z.pos p <=? 0) with false. cbv iota.
    rewrite iter_shr_1 by assumption. f_equal.
  - change (Z.neg p <=? 0) with true. cbv iota. f_equal. lia.
Qed.

Lemma round_shr_exact (m n : Z) : 0 <= m ->
  round_nearest_even
    (shr_m (if n <=? 0 then {| shr_m := m; shr_r := false; shr_s := false |} else shifted m n))
    (loc_of_shr_record
       (if n <=? 0 then {| shr_m := m; shr_r := false; shr_s := false |} else shifted m n))
  = rne m n.
Proof.
  intros Hm. unfold rne. destruct (n <=? 0); reflexivity.
Qed.

Lemma rne_nonneg (M k : Z) : 0 <= M -> 0 <= rne M k.
Proof.
  intros HM. destruct (Z.leb_spec k 0) as [Hk|Hk].
  - unfold rne. apply Z.leb_le in Hk. rewrite Hk. assumption.
  - pose proof (rne_bounds M k HM ltac:(lia)).
    assert (0 <= M / 2 ^ k) by (apply Z.div_pos; [lia | apply Z.pow_pos_nonneg; lia]).
    lia.
Qed.

Lemma binary_round_aux_eq (s : bool) (M : positive) (E : Z) :
  binary_round_aux 24 128 s (Zpos M) E loc_Exact =
  let m2 := round_mant M E in
  let e1 := E + Z.max (round_exp M E - E) 0 in
  let n2 := fexp32 (Zdigits2 m2 + e1) - e1 in
  match m2 / 2 ^ Z.max n2 0 with
  | Z0 => S754_zero s
  | Zpos m => if e1 + Z.max n2 0 <=? 104 then S754_finite s m (e1 + Z.max n2 0)
              else S754_infinity s
  | Zneg _ => S754_nan
  end.
Proof.
  unfold binary_round_aux, shr_fexp. simpl shr_record_of_loc.
  rewrite shr_exact_eq by lia.
  rewrite round_shr_exact by lia.
  simpl Zdigits2 at 1. rewrite !fexp32_eq.
  fold (round_exp M E). fold (round_mant M E).
  rewrite shr_exact_eq by (apply rne_nonneg; lia).
  cbv zeta. unfold round_mant, round_exp, fexp32, fexp, emin.
  change (128 - 24) with 104. change (3 - 128 - 24) with (-149).
  change (Zdigits2 (Z.pos M)) with (Zpos (digits2_pos M)).
  set (e1 := E + Z.max (Z.max (Z.pos (digits2_pos M) + E - 24) (-149) - E) 0).
  set (m2 := rne (Z.pos M) (Z.max (Z.pos (digits2_pos M) + E - 24) (-149) - E)).
  set (n2 := Z.max (Zdigits2 m2 + e1 - 24) (-149) - e1).
  destruct (Z.leb_spec n2 0).
  - rewrite Z.max_r by lia. simpl shr_m. change (2 ^ 0) with 1.
    rewrite Z.div_1_r. reflexivity.
  - rewrite Z.max_l by lia. reflexivity.
Qed.

Lemma pow2_pos (k : Z) : 0 <= k -> 0 < 2 ^ k.
Proof. intros. apply Z.pow_pos_nonneg; lia. Qed.

Lemma pow2_le (a b : Z) : 0 <= a <= b -> 2 ^ a <= 2 ^ b.
Proof. intros. apply Z.pow_le_mono_r; lia. Qed.

Lemma pow2_lt_inv (a b : Z) : 0 <= b -> 2 ^ a < 2 ^ b -> a < b.
Proof. intros Hb H. apply (Z.pow_lt_mono_r_iff 2); lia. Qed.

Lemma Zdigits2_le (m k : Z) : 0 <= k -> 0 < m < 2 ^ k -> 0 < Zdigits2 m <= k.
Proof.
  intros Hk [Hm Hlt]. destruct m as [|p|p]; try lia. simpl.
  pose proof (digits_bounds p) as [Hlo _].
  assert (Zpos (digits2_pos p) - 1 < k) by (apply pow2_lt_inv; lia).
  lia.
Qed.

Lemma Zdigits2_ge (m k : Z) : 0 <= k -> 2 ^ k <= m -> k < Zdigits2 m.
Proof.
  intros Hk Hle. pose proof (pow2_pos k Hk).
  destruct m as [|p|p]; try lia. simpl.
  pose proof (digits_bounds p) as [_ Hhi].
  apply pow2_lt_inv; lia.
Qed.

Lemma bounded32_iff (m : positive) (e : Z) :
  bounded 24 128 m e = true <-> fexp32 (Zpos (digits2_pos m) + e) = e /\ e <= 104.
Proof.
  unfold bounded, canonical_mantissa. rewrite andb_true_iff, Z.eqb_eq, Z.leb_le.
  rewrite fexp32_eq. change (128 - 24) with 104. reflexivity.
Qed.

Lemma round_mant_bounds (M : positive) (E : Z) :
  E <= round_exp M E ->
  0 <= round_mant M E <= 2 ^ 24 /\
  (-149 < round_exp M E -> 2 ^ 23 <= round_mant M E).
Proof.
  intros Hpre. unfold round_mant.
  pose proof (digits_bounds M) as [Hlo Hhi].
  set (d := Zpos (digits2_pos M)) in *.
  assert (Hd : 0 < d) by (unfold d; lia).
  assert (He : round_exp M E = Z.max (d + E - 24) (-149)) by reflexivity.
  set (e1 := round_exp M E) in *.
  set (n1 := e1 - E).
  destruct (Z.eq_dec n1 0) as [Hn|Hn].
  - rewrite Hn. unfold rne. simpl.
    assert (d <= 24) by lia.
    assert (2 ^ d <= 2 ^ 24) by (apply pow2_le; lia).
    split; [lia|]. intros Hn149.
    assert (d = 24) by lia.
    assert (2 ^ 23 <= 2 ^ (d - 1)) by (apply pow2_le; lia). lia.
  - assert (Hn1 : 1 <= n1) by (unfold n1; lia).
    pose proof (rne_bounds (Zpos M) n1 ltac:(lia) Hn1) as Hb.
    pose proof (pow2_pos n1 ltac:(lia)) as Hp.
    assert (Hq : Zpos M / 2 ^ n1 < 2 ^ 24).
    { apply Z.div_lt_upper_bound; [lia|].
      rewrite <- Z.pow_add_r by lia.
      assert (2 ^ d <= 2 ^ (n1 + 24)) by (apply pow2_le; lia). lia. }
    assert (0 <= Zpos M / 2 ^ n1) by (apply Z.div_pos; lia).
    split; [lia|]. intros Hn149.
    assert (n1 = d - 24) by lia.
    assert (2 ^ 23 <= Zpos M / 2 ^ n1).
    { apply Z.div_le_lower_bound; [lia|].
      rewrite <- Z.pow_add_r by lia.
      replace (n1 + 23) with (d - 1) by lia. lia. }
    lia.
Qed.

Lemma mul_pow2_lt (p k a b : Z) :
  0 <= p < 2 ^ a -> 0 <= k <= b -> 0 <= a -> p * 2 ^ k < 2 ^ (a + b).
Proof.
  intros Hp Hk Ha. rewrite Z.pow_add_r by lia.
  pose proof (pow2_pos k ltac:(lia)). pose proof (pow2_le k b ltac:(lia)).
  nia.
Qed.

Lemma mul_pow2_ge (p k a b : Z) :
  2 ^ a <= p -> 0 <= b <= k -> 0 <= a -> 2 ^ (a + b) <= p * 2 ^ k.
Proof.
  intros Hp Hk Ha. rewrite Z.pow_add_r by lia.
  pose proof (pow2_pos a ltac:(lia)). pose proof (pow2_pos b ltac:(lia)).
  pose proof (pow2_le b k ltac:(lia)).
  nia.
Qed.

Lemma binary_round_aux_spec (s : bool) (M : positive) (E : Z) :
  E <= round_exp M E ->
  rounded s (binary_round_aux 24 128 s (Zpos M) E loc_Exact) /\
  mag32 (binary_round_aux 24 128 s (Zpos M) E loc_Exact) =
    Z.min (round_mant M E * 2 ^ (round_exp M E + 149)) (2 ^ 277).
Proof.
  intros Hpre. rewrite binary_round_aux_eq. cbv zeta.
  pose proof (round_mant_bounds M E Hpre) as [[Hm0 Hm24] Hnorm].
  assert (He149 : -149 <= round_exp M E) by (unfold round_exp, fexp32; lia).
  rewrite (Z.max_l (round_exp M E - E) 0) by lia.
  replace (E + (round_exp M E - E)) with (round_exp M E) by lia.
  set (e1 := round_exp M E) in *. set (m2 := round_mant M E) in *.
  destruct (Z.eq_dec m2 0) as [Hz|Hz].
  { rewrite Hz. rewrite Z.div_0_l by (apply Z.pow_nonzero; lia).
    simpl. split; [reflexivity|]. rewrite Z.min_l; [reflexivity|].
    pose proof (pow2_pos 277). lia. }
  destruct (Z.eq_dec m2 (2 ^ 24)) as [Htop|Htop].
  - (* the mantissa rounded up to 2^24 *)
    rewrite Htop. change (Zdigits2 (2 ^ 24)) with 25.
    assert (Hn2 : fexp32 (25 + e1) - e1 = 1) by (unfold fexp32; lia).
    rewrite Hn2. change (2 ^ 24 / 2 ^ Z.max 1 0) with (Zpos 8388608).
    change (Z.max 1 0) with 1. cbv iota.
    destruct (Z.leb_spec (e1 + 1) 104) as [Hov|Hov].
    + split.
      * split; [reflexivity|]. apply bounded32_iff.
        change (Zpos (digits2_pos 8388608)) with 24. unfold fexp32. lia.
      * unfold mag32. rewrite Z.min_l.
        -- replace (e1 + 1 + 149) with (Z.succ (e1 + 149)) by lia.
           rewrite Z.pow_succ_r by lia. change (2 ^ 24) with 16777216. lia.
        -- apply Z.lt_le_incl.
           apply (mul_pow2_lt (2 ^ 24) (e1 + 149) 25 252); lia.
    + split; [reflexivity|]. unfold mag32. rewrite Z.min_r; [reflexivity|].
      apply (mul_pow2_ge (2 ^ 24) (e1 + 149) 24 253); lia.
  - assert (Hlt : 0 < m2 < 2 ^ 24) by lia.
    pose proof (Zdigits2_le m2 24 ltac:(lia) Hlt) as Hdig.
    assert (Hn2 : fexp32 (Zdigits2 m2 + e1) - e1 <= 0) by (unfold fexp32; lia).
    rewrite (Z.max_r _ 0) by lia. change (2 ^ 0) with 1. rewrite Z.div_1_r, Z.add_0_r.
    destruct m2 as [|p|p] eqn:Hm2; try lia.
    destruct (Z.leb_spec e1 104) as [Hov|Hov].
    + split.
      * split; [reflexivity|]. apply bounded32_iff. split; [|assumption].
        simpl in Hdig. unfold fexp32.
        destruct (Z.eq_dec e1 (-149)) as [Hsub|Hsub]; [lia|].
        specialize (Hnorm ltac:(lia)).
        pose proof (Zdigits2_ge (Zpos p) 23 ltac:(lia) Hnorm) as Hge. simpl in Hge. lia.
      * unfold mag32. rewrite Z.min_l; [reflexivity|].
        apply Z.lt_le_incl. apply (mul_pow2_lt (Zpos p) (e1 + 149) 24 253); lia.
    + split; [reflexivity|]. unfold mag32. rewrite Z.min_r; [reflexivity|].
      specialize (Hnorm ltac:(lia)).
      apply (mul_pow2_ge (Zpos p) (e1 + 149) 23 254); lia.
Qed.

(** *** The rounded value as a function of the exact one *)

Lemma digits_log2 (M : positive) : Zpos (digits2_pos M) = Z.log2 (Zpos M) + 1.
Proof.
  pose proof (digits_bounds M) as [Hlo Hhi].
  assert (Z.log2 (Zpos M) = Zpos (digits2_pos M) - 1); [|lia].
  apply Z.log2_unique; [lia|].
  replace (Z.succ (Zpos (digits2_pos M) - 1)) with (Zpos (digits2_pos M)) by lia. lia.
Qed.

Lemma round_exp_rexp (M : positive) (E : Z) : round_exp M E = rexp (Zpos M) E.
Proof. unfold round_exp, rexp. rewrite digits_log2. reflexivity. Qed.

Lemma round_val_rval (M : positive) (E : Z) :
  round_mant M E * 2 ^ (round_exp M E + 149) = rval (Zpos M) E.
Proof. unfold round_mant, rval. rewrite round_exp_rexp. reflexivity. Qed.

Lemma rne_scale (X n j : Z) : 0 <= X -> 0 <= n -> 0 <= j ->
  rne (X * 2 ^ j) (n + j) = rne X n.
Proof.
  intros HX Hn Hj.
  destruct (Z.eq_dec j 0) as [->|Hj0].
  { rewrite Z.mul_1_r, Z.add_0_r. reflexivity. }
  pose proof (pow2_pos j Hj) as Hpj.
  unfold rne. destruct (Z.leb_spec (n + j) 0) as [|_]; [lia|].
  assert (Hq : X * 2 ^ j / 2 ^ (n + j) = X / 2 ^ n).
  { rewrite Z.pow_add_r by lia.
    rewrite Z.div_mul_cancel_r by (try apply Z.pow_nonzero; lia). reflexivity. }
  unfold shifted, loc_of_shr_record. simpl shr_m. rewrite Hq.
  destruct (Z.leb_spec n 0) as [Hn0|Hn0].
  - assert (n = 0) by lia. subst n. simpl (0 + j).
    rewrite Z.mul_pow2_bits_low by lia.
    change (2 ^ 0) with 1. rewrite Z.div_1_r.
    destruct (negb _); reflexivity.
  - replace (n + j - 1) with (j + (n - 1)) by lia.
    rewrite Z.mul_pow2_bits_add by lia.
    replace (j + (n - 1)) with (n - 1 + j) by lia.
    rewrite Z.pow_add_r by lia.
    rewrite Z.mul_mod_distr_r by (try apply Z.pow_nonzero; lia).
    assert (Hs : (X mod 2 ^ (n - 1) * 2 ^ j =? 0) = (X mod 2 ^ (n - 1) =? 0)).
    { destruct (Z.eqb_spec (X mod 2 ^ (n - 1)) 0) as [->|Hne]; [reflexivity|].
      apply Z.eqb_neq. nia. }
    rewrite Hs. reflexivity.
Qed.

Lemma log2_scale (X j : Z) : 0 < X -> 0 <= j -> Z.log2 (X * 2 ^ j) = Z.log2 X + j.
Proof. intros. rewrite Z.log2_mul_pow2 by lia. lia. Qed.

Lemma rval_scale (X E j : Z) : 0 < X -> 0 <= j -> E <= rexp X E ->
  rval (X * 2 ^ j) (E - j) = rval X E.
Proof.
  intros HX Hj Hpre. unfold rval.
  assert (He : rexp (X * 2 ^ j) (E - j) = rexp X E).
  { unfold rexp. rewrite log2_scale by lia. f_equal. lia. }
  rewrite He. replace (rexp X E - (E - j)) with (rexp X E - E + j) by lia.
  rewrite rne_scale by lia. reflexivity.
Qed.

Lemma rne_upper (X n d : Z) : 0 <= X < 2 ^ d -> 0 <= n -> 0 <= d ->
  rne X n <= 2 ^ Z.max (d - n) 0.
Proof.
  intros HX Hn Hd. destruct (Z.eq_dec n 0) as [->|Hn0].
  - unfold rne. simpl. rewrite Z.max_l by lia. rewrite Z.sub_0_r. lia.
  - pose proof (rne_bounds X n ltac:(lia) ltac:(lia)) as Hb.
    pose proof (pow2_pos n Hn) as Hpn.
    destruct (Z.le_gt_cases n d) as [Hnd|Hnd].
    + rewrite Z.max_l by lia.
      assert (X / 2 ^ n < 2 ^ (d - n)); [|lia].
      apply Z.div_lt_upper_bound; [lia|].
      rewrite <- Z.pow_add_r by lia. replace (n + (d - n)) with d by lia. lia.
    + rewrite Z.max_r by lia. change (2 ^ 0) with 1.
      assert (X / 2 ^ n = 0); [|lia].
      apply Z.div_small. pose proof (pow2_le d n ltac:(lia)). lia.
Qed.

Lemma rval_mono (X Y E : Z) : 0 < X -> X <= Y -> E <= rexp X E ->
  rval X E <= rval Y E.
Proof.
  intros HX HXY Hpre. unfold rval.
  pose proof (Z.log2_le_mono X Y HXY) as Hlog.
  pose proof (Z.log2_nonneg X) as HlX.
  assert (HeXY : rexp X E <= rexp Y E) by (unfold rexp, fexp32; lia).
  assert (He149 : -149 <= rexp X E) by (unfold rexp, fexp32; lia).
  destruct (Z.eq_dec (rexp X E) (rexp Y E)) as [Heq|Hne].
  - rewrite <- Heq. apply Z.mul_le_mono_nonneg_r.
    + pose proof (pow2_pos (rexp X E + 149)). lia.
    + apply rne_mono; lia.
  - set (dX := Z.log2 X + 1). set (dY := Z.log2 Y + 1).
    assert (HeY : rexp Y E = dY + E - 24) by (unfold rexp, fexp32, dY in *; lia).
    assert (HeX : dX + E - 24 <= rexp X E) by (unfold rexp, fexp32, dX; lia).
    pose proof (Z.log2_spec X HX) as HsX. pose proof (Z.log2_spec Y ltac:(lia)) as HsY.
    replace (Z.succ (Z.log2 X)) with dX in HsX by (unfold dX; lia).
    replace (Z.succ (Z.log2 Y)) with dY in HsY by (unfold dY; lia).
    set (nX := rexp X E - E). set (nY := rexp Y E - E).
    assert (HnY : nY = dY - 24) by (unfold nY; lia).
    (* upper bound on the left *)
    pose proof (rne_upper X nX dX ltac:(lia) ltac:(unfold nX; lia) ltac:(unfold dX; lia)) as HuX.
    assert (Hleft : rne X nX * 2 ^ (rexp X E + 149) <= 2 ^ (dY - 1 + E + 149)).
    { apply Z.le_trans with (2 ^ Z.max (dX - nX) 0 * 2 ^ (rexp X E + 149)).
      - apply Z.mul_le_mono_nonneg_r; [|assumption].
        pose proof (pow2_pos (rexp X E + 149)). lia.
      - rewrite <- Z.pow_add_r by lia. apply pow2_le. unfold nX. lia. }
    (* lower bound on the right *)
    assert (Hright : 2 ^ (dY - 1 + E + 149) <= rne Y nY * 2 ^ (rexp Y E + 149)).
    { assert (HqY : 2 ^ 23 <= Y / 2 ^ nY).
      { apply Z.div_le_lower_bound; [apply pow2_pos; lia|].
        rewrite <- Z.pow_add_r by lia. replace (nY + 23) with (Z.log2 Y) by (unfold dY in *; lia).
        lia. }
      assert (HrY : 2 ^ 23 <= rne Y nY).
      { destruct (Z.eq_dec nY 0) as [Hz|Hz].
        - rewrite Hz in *. unfold rne. simpl. change (2 ^ 0) with 1 in HqY.
          rewrite Z.div_1_r in HqY. lia.
        - pose proof (rne_bounds Y nY ltac:(lia) ltac:(lia)). lia. }
      replace (dY - 1 + E + 149) with (23 + (rexp Y E + 149)) by lia.
      apply mul_pow2_ge; lia. }
    lia.
Qed.

(** *** Order *)

Ltac order_cases :=
  repeat match goal with
    | |- context [Z.compare ?a ?b] => destruct (Z.compare_spec a b)
    | H : context [Z.compare ?a ?b] |- _ => destruct (Z.compare_spec a b)
    | |- context [Pos.compare_cont Eq ?a ?b] =>
        change (Pos.compare_cont Eq a b) with (Pos.compare a b);
        destruct (Pos.compare_spec a b)
    | H : context [Pos.compare_cont Eq ?a ?b] |- _ =>
        change (Pos.compare_cont Eq a b) with (Pos.compare a b) in H;
        destruct (Pos.compare_spec a b)
    end.

Lemma ge_leb_trans (x1 x2 t : spec_float) :
  SFleb x1 x2 = true -> Float32.ge x1 t = true -> Float32.ge x2 t = true.
Proof.
  unfold SFleb, Float32.ge.
  destruct x1 as [s1|s1| |s1 m1 e1], x2 as [s2|s2| |s2 m2 e2],
           t as [s3|s3| |s3 m3 e3];
    try destruct s1; try destruct s2; try destruct s3;
    simpl; try discriminate; try reflexivity;
    intros H1 H2; order_cases; simpl in *;
    try discriminate; try reflexivity; subst; try lia.
Qed.

Lemma bounded_range (m : positive) (e : Z) :
  bounded 24 128 m e = true ->
  -149 <= e <= 104 /\ Zpos m < 2 ^ 24 /\ (-149 < e -> 2 ^ 23 <= Zpos m).
Proof.
  intros Hb. apply bounded32_iff in Hb. destruct Hb as [Hc He].
  pose proof (digits_bounds m) as [Hlo Hhi].
  unfold fexp32 in Hc.
  assert (Hd : Zpos (digits2_pos m) <= 24) by lia.
  split; [lia|]. split.
  - pose proof (pow2_le (Zpos (digits2_pos m)) 24 ltac:(lia)). lia.
  - intros Hn. assert (Zpos (digits2_pos m) = 24) as Hd24 by lia.
    rewrite Hd24 in Hlo. exact Hlo.
Qed.

Lemma bounded_mag (m : positive) (e : Z) :
  bounded 24 128 m e = true -> 0 < Zpos m * 2 ^ (e + 149) < 2 ^ 277.
Proof.
  intros Hb. apply bounded_range in Hb. destruct Hb as [He [Hm _]].
  split.
  - pose proof (pow2_pos (e + 149) ltac:(lia)). lia.
  - apply (mul_pow2_lt (Zpos m) (e + 149) 24 253); lia.
Qed.

Lemma compare_bounded (m1 m2 : positive) (e1 e2 : Z) :
  bounded 24 128 m1 e1 = true -> bounded 24 128 m2 e2 = true ->
  match e1 ?= e2 with
  | Lt => Lt
  | Gt => Gt
  | Eq => Pos.compare_cont Eq m1 m2
  end = (Zpos m1 * 2 ^ (e1 + 149) ?= Zpos m2 * 2 ^ (e2 + 149)).
Proof.
  intros H1 H2.
  apply bounded_range in H1. destruct H1 as [He1 [Hm1 Hn1]].
  apply bounded_range in H2. destruct H2 as [He2 [Hm2 Hn2]].
  destruct (Z.compare_spec e1 e2) as [Heq|Hlt|Hgt].
  - subst e2. change (Pos.compare_cont Eq m1 m2) with (Pos.compare m1 m2).
    rewrite Pos2Z.inj_compare. apply Zmult_compare_compat_r.
    pose proof (pow2_pos (e1 + 149) ltac:(lia)). lia.
  - symmetry. apply Z.compare_lt_iff.
    apply Z.lt_le_trans with (2 ^ (24 + (e1 + 149))).
    + apply mul_pow2_lt; lia.
    + apply Z.le_trans with (2 ^ (23 + (e2 + 149))).
      * apply pow2_le; lia.
      * apply mul_pow2_ge; lia.
  - symmetry. apply Z.compare_gt_iff.
    apply Z.lt_le_trans with (2 ^ (24 + (e2 + 149))).
    + apply mul_pow2_lt; lia.
    + apply Z.le_trans with (2 ^ (23 + (e1 + 149))).
      * apply pow2_le; lia.
      * apply mul_pow2_ge; lia.
Qed.

Lemma compare_bounded_opp (m1 m2 : positive) (e1 e2 : Z) :
  bounded 24 128 m1 e1 = true -> bounded 24 128 m2 e2 = true ->
  match e1 ?= e2 with
  | Lt => Gt
  | Gt => Lt
  | Eq => CompOpp (Pos.compare_cont Eq m1 m2)
  end = CompOpp (Zpos m1 * 2 ^ (e1 + 149) ?= Zpos m2 * 2 ^ (e2 + 149)).
Proof.
  intros H1 H2. rewrite <- (compare_bounded _ _ _ _ H1 H2).
  destruct (e1 ?= e2); reflexivity.
Qed.

Lemma SFleb_smag (x y : spec_float) :
  valid_binary 24 128 x = true -> valid_binary 24 128 y = true ->
  is_nan x = false -> is_nan y = false ->
  SFleb x y = (smag x <=? smag y).
Proof.
  intros Hx Hy Hnx Hny. pose proof (pow2_pos 277 ltac:(lia)) as H277.
  destruct x as [sx|sx| |sx mx ex], y as [sy|sy| |sy my ey];
    try discriminate; simpl in Hx, Hy;
    try (pose proof (bounded_mag _ _ Hx)); try (pose proof (bounded_mag _ _ Hy));
    unfold SFleb, SFcompare, smag;
    try rewrite (compare_bounded _ _ _ _ Hx Hy);
    try rewrite (compare_bounded_opp _ _ _ _ Hx Hy);
    try destruct sx; try destruct sy; symmetry;
    try (apply Z.leb_le; lia); try (apply Z.leb_gt; lia).
  - rewrite Z.leb_compare, Z.compare_opp.
    rewrite (Z.compare_antisym (Zpos mx * 2 ^ (ex + 149))).
    destruct (Z.compare _ _); reflexivity.
  - rewrite Z.leb_compare. destruct (Z.compare _ _); reflexivity.
Qed.

(** *** Multiplication by a normal positive number is monotone *)

Lemma rval_nonneg (X E : Z) : 0 <= X -> 0 <= rval X E.
Proof.
  intros HX. unfold rval. apply Z.mul_nonneg_nonneg.
  - apply rne_nonneg; assumption.
  - apply Z.pow_nonneg; lia.
Qed.

Lemma rexp_pre (X E : Z) : 2 ^ 23 <= X -> E <= rexp X E.
Proof.
  intros HX. unfold rexp, fexp32.
  assert (23 <= Z.log2 X) by (apply Z.log2_le_pow2; lia). lia.
Qed.

Lemma rounded_facts (s : bool) (r : spec_float) :
  rounded s r ->
  valid_binary 24 128 r = true /\ is_nan r = false /\
  smag r = if s then - mag32 r else mag32 r.
Proof.
  destruct r as [s'|s'| |s' m e]; simpl; intros H; try contradiction.
  - subst. destruct s; auto.
  - subst. destruct s; auto.
  - destruct H as [-> Hb]. destruct s; auto.
Qed.

Lemma SFmul_finite_spec (mn : positive) (en : Z) (s : bool) (m : positive) (e : Z) :
  2 ^ 23 <= Zpos mn -> -149 <= e ->
  rounded s (SFmul 24 128 (S754_finite false mn en) (S754_finite s m e)) /\
  mag32 (SFmul 24 128 (S754_finite false mn en) (S754_finite s m e)) =
    mul_mag mn en (Zpos m * 2 ^ (e + 149)).
Proof.
  intros Hn He. unfold SFmul. change (xorb false s) with s.
  assert (Hge : 2 ^ 23 <= Zpos (mn * m)) by (rewrite Pos2Z.inj_mul; nia).
  assert (Hpre : en + e <= round_exp (mn * m) (en + e)).
  { rewrite round_exp_rexp. apply rexp_pre. assumption. }
  destruct (binary_round_aux_spec s (mn * m) (en + e) Hpre) as [Hr Hm].
  split; [assumption|]. rewrite Hm. unfold mul_mag. f_equal.
  rewrite round_val_rval.
  rewrite <- (rval_scale (Zpos (mn * m)) (en + e) (e + 149)); try lia.
  - f_equal; [rewrite Pos2Z.inj_mul| ]; lia.
  - rewrite <- round_exp_rexp. assumption.
Qed.

Lemma mul_mag_mono (mn : positive) (en : Z) (v w : Z) :
  2 ^ 23 <= Zpos mn -> 0 < v -> v <= w -> mul_mag mn en v <= mul_mag mn en w.
Proof.
  intros Hn Hv Hvw. unfold mul_mag. apply Z.min_le_compat_r.
  apply rval_mono; try nia. apply rexp_pre. nia.
Qed.

Lemma mul_mag_range (mn : positive) (en : Z) (v : Z) :
  0 <= v -> 0 <= mul_mag mn en v <= 2 ^ 277.
Proof.
  intros Hv. unfold mul_mag. pose proof (rval_nonneg (Zpos mn * v) (en - 149) ltac:(lia)).
  pose proof (pow2_pos 277 ltac:(lia)). lia.
Qed.

Lemma SFmul_smag (mn : positive) (en : Z) (c : spec_float) :
  2 ^ 23 <= Zpos mn -> valid_binary 24 128 c = true -> is_nan c = false ->
  valid_binary 24 128 (SFmul 24 128 (S754_finite false mn en) c) = true /\
  is_nan (SFmul 24 128 (S754_finite false mn en) c) = false /\
  smag (SFmul 24 128 (S754_finite false mn en) c) = mul_smag mn en c.
Proof.
  intros Hn Hv Hnan. destruct c as [s|s| |s m e]; try discriminate.
  - repeat split.
  - repeat split.
  - pose proof (bounded_range m e Hv) as [He _].
    destruct (SFmul_finite_spec mn en s m e Hn ltac:(lia)) as [Hr Hm].
    destruct (rounded_facts s _ Hr) as [Ha [Hb Hc]].
    rewrite Hc, Hm. auto.
Qed.

Lemma mul_smag_mono (mn : positive) (en : Z) (c1 c2 : spec_float) :
  2 ^ 23 <= Zpos mn ->
  valid_binary 24 128 c1 = true -> valid_binary 24 128 c2 = true ->
  is_nan c1 = false -> is_nan c2 = false ->
  smag c1 <= smag c2 -> mul_smag mn en c1 <= mul_smag mn en c2.
Proof.
  intros Hn Hv1 Hv2 Hn1 Hn2.
  pose proof (pow2_pos 277 ltac:(lia)) as H277.
  destruct c1 as [s1|s1| |s1 m1 e1], c2 as [s2|s2| |s2 m2 e2]; try discriminate;
    unfold smag, mul_smag; unfold valid_binary in Hv1, Hv2;
    try (pose proof (bounded_mag _ _ Hv1) as Hb1;
         pose proof (mul_mag_range mn en (Zpos m1 * 2 ^ (e1 + 149)) ltac:(lia)));
    try (pose proof (bounded_mag _ _ Hv2) as Hb2;
         pose proof (mul_mag_range mn en (Zpos m2 * 2 ^ (e2 + 149)) ltac:(lia)));
    try destruct s1; try destruct s2; intros Hle; try lia.
  - pose proof (mul_mag_mono mn en (Zpos m2 * 2 ^ (e2 + 149)) (Zpos m1 * 2 ^ (e1 + 149))
                  Hn ltac:(lia) ltac:(lia)).
    lia.
  - pose proof (mul_mag_mono mn en (Zpos m1 * 2 ^ (e1 + 149)) (Zpos m2 * 2 ^ (e2 + 149))
                  Hn ltac:(lia) ltac:(lia)).
    lia.
Qed.

Lemma SFleb_not_nan (c1 c2 : spec_float) :
  SFleb c1 c2 = true -> is_nan c1 = false /\ is_nan c2 = false.
Proof. destruct c1, c2; try discriminate; auto. Qed.

Lemma SFmul_mono (mn : positive) (en : Z) (c1 c2 : spec_float) :
  2 ^ 23 <= Zpos mn ->
  valid_binary 24 128 c1 = true -> valid_binary 24 128 c2 = true ->
  SFleb c1 c2 = true ->
  SFleb (SFmul 24 128 (S754_finite false mn en) c1)
        (SFmul 24 128 (S754_finite false mn en) c2) = true.
Proof.
  intros Hn Hv1 Hv2 Hle.
  destruct (SFleb_not_nan c1 c2 Hle) as [Hn1 Hn2].
  rewrite (SFleb_smag c1 c2 Hv1 Hv2 Hn1 Hn2) in Hle. apply Z.leb_le in Hle.
  destruct (SFmul_smag mn en c1 Hn Hv1 Hn1) as [Ha1 [Hb1 Hc1]].
  destruct (SFmul_smag mn en c2 Hn Hv2 Hn2) as [Ha2 [Hb2 Hc2]].
  rewrite SFleb_smag by assumption. apply Z.leb_le. rewrite Hc1, Hc2.
  apply mul_smag_mono; assumption.
Qed.

(** ** The sample-coverage mask *)

Lemma lor_double_1 (m : Z) : Z.lor (2 * m) 1 = 2 * m + 1.
Proof.
  apply Z.bits_inj'. intros n Hn. rewrite Z.lor_spec.
  destruct (Z.eq_dec n 0) as [->|Hn0].
  - rewrite Z.testbit_even_0, Z.testbit_odd_0. reflexivity.
  - assert (H1 : Z.testbit 1 n = false)
      by (apply Z.bits_above_log2; [lia | change (Z.log2 1) with 0; lia]).
    rewrite H1, orb_false_r.
    replace n with (Z.succ (n - 1)) by lia.
    rewrite Z.testbit_even_succ, Z.testbit_odd_succ by lia. reflexivity.
Qed.

Lemma shl1_32_small (mask k : Z) :
  0 <= mask < 2 ^ k -> 0 <= k < 32 -> shl1_32 mask = 2 * mask.
Proof.
  intros Hm Hk. unfold shl1_32. rewrite Z.mod_small; [lia|].
  assert (2 ^ k <= 2 ^ 31) by (apply Z.pow_le_mono_r; lia). lia.
Qed.

Lemma mul_zero_not_ge (x : Float32.float) (s : bool) (t : Float32.float) :
  t = Float32.half \/ Float32.ge (S754_zero false) t = false ->
  Float32.ge (Float32.mul x (S754_zero s)) t = false.
Proof.
  intros Ht. destruct x as [sx|sx| |sx mx ex]; simpl; try reflexivity;
    destruct Ht as [->|Ht]; try reflexivity;
    destruct t as [st|st| |st mt et]; try destruct st; try reflexivity; discriminate.
Qed.

Lemma coverageLoop_zero (n : nat) (i : Z) (s : bool) :
  coverageLoop n i (S754_zero s) Float32.half 0 = 0.
Proof.
  revert i. induction n as [|n IH]; intros i; simpl; [reflexivity|].
  rewrite mul_zero_not_ge by (left; reflexivity).
  change (shl1_32 0) with 0. apply IH.
Qed.

Lemma ne_zero_false (c : Float32.float) :
  Float32.ne c (Float32.of_int 0) = false -> exists s, c = S754_zero s.
Proof.
  unfold Float32.ne, SFeqb. change (Float32.of_int 0) with (S754_zero false).
  destruct c as [s|s| |s m e]; simpl; try discriminate;
    try (destruct s; discriminate).
  eauto.
Qed.

(** The guard [coverageValue != 0] changes nothing: the loop yields 0 on a
    zero coverage value. *)
Lemma coverageMaskBeforeInvert_loop (samples : Z) (c : Float32.float) :
  coverageMaskBeforeInvert samples c =
  coverageLoop (Z.to_nat samples) 0 c Float32.half 0.
Proof.
  unfold coverageMaskBeforeInvert.
  destruct (Float32.ne c (Float32.of_int 0)) eqn:Hne; [reflexivity|].
  destruct (ne_zero_false c Hne) as [s ->]. symmetry. apply coverageLoop_zero.
Qed.

(** The mask of the code is the ladder of the specification cut to the 32
    bits of the word. *)
Lemma coverageLoop_ladder (n j : nat) (c t : Float32.float) (mask ladder : Z) :
  mask = ladder mod 2 ^ 32 ->
  coverageLoop n (Z.of_nat j) c t mask =
  fst (fold_left (ladderStep c) (seq j n) (ladder, t)) mod 2 ^ 32.
Proof.
  revert j t mask ladder. induction n as [|n IH]; intros j t mask ladder Hm;
    [exact Hm|].
  cbn [coverageLoop seq fold_left ladderStep].
  replace (Z.of_nat j + 1) with (Z.of_nat (S j)) by lia.
  assert (Hshift : shl1_32 mask = (ladder * 2) mod 2 ^ 32).
  { unfold shl1_32. rewrite Hm. apply Z.mul_mod_idemp_l. lia. }
  destruct (Float32.ge _ _); apply IH; [|exact Hshift].
  rewrite Hshift, <- !Z.land_ones by lia.
  rewrite Z.land_lor_distr_l. reflexivity.
Qed.

Lemma ladder_bound (n j : nat) (c t : Float32.float) (ladder k : Z) :
  0 <= ladder < 2 ^ k -> 0 <= k ->
  0 <= fst (fold_left (ladderStep c) (seq j n) (ladder, t)) < 2 ^ (k + Z.of_nat n).
Proof.
  revert j t ladder k. induction n as [|n IH]; intros j t ladder k Hl Hk.
  - simpl. rewrite Z.add_0_r. exact Hl.
  - cbn [seq fold_left ladderStep].
    replace (k + Z.of_nat (S n)) with ((k + 1) + Z.of_nat n) by lia.
    assert (Hpow : 2 ^ (k + 1) = 2 * 2 ^ k) by (rewrite Z.pow_add_r by lia; lia).
    destruct (Float32.ge _ _); apply IH; try lia.
    rewrite (Z.mul_comm ladder 2), lor_double_1. lia.
Qed.

Lemma ladderMask_bound (n : nat) (c : Float32.float) :
  0 <= ladderMask n c < 2 ^ Z.of_nat n.
Proof.
  unfold ladderMask.
  pose proof (ladder_bound n 0 c Float32.half 0 0 ltac:(simpl; lia) ltac:(lia)) as H.
  exact H.
Qed.

Lemma coverageMaskBeforeInvert_ladder (samples : Z) (c : Float32.float) :
  coverageMaskBeforeInvert samples c = ladderMask (Z.to_nat samples) c mod 2 ^ 32.
Proof.
  rewrite coverageMaskBeforeInvert_loop. apply (coverageLoop_ladder _ 0). reflexivity.
Qed.

Lemma coverageMaskBeforeInvert_ladder_small (samples : Z) (c : Float32.float) :
  samples <= 32 ->
  coverageMaskBeforeInvert samples c = ladderMask (Z.to_nat samples) c.
Proof.
  intros Hs. rewrite coverageMaskBeforeInvert_ladder.
  pose proof (ladderMask_bound (Z.to_nat samples) c) as Hb.
  apply Z.mod_small. split; [lia|].
  apply Z.lt_le_trans with (2 ^ Z.of_nat (Z.to_nat samples)); [lia|].
  apply Z.pow_le_mono_r; lia.
Qed.

Lemma coverageLoop_bound (n : nat) (i : Z) (c t : Float32.float) (mask k : Z) :
  0 <= mask < 2 ^ k -> 0 <= k -> k + Z.of_nat n <= 32 ->
  0 <= coverageLoop n i c t mask < 2 ^ (k + Z.of_nat n).
Proof.
  revert i t mask k. induction n as [|n IH]; intros i t mask k Hm Hk Hn.
  - simpl. rewrite Z.add_0_r. assumption.
  - cbn [coverageLoop]. rewrite (shl1_32_small mask k) by lia.
    replace (k + Z.of_nat (S n)) with (k + 1 + Z.of_nat n) by lia.
    assert (Hp : 2 ^ (k + 1) = 2 * 2 ^ k) by (rewrite Z.pow_add_r by lia; lia).
    destruct (Float32.ge _ _).
    + rewrite lor_double_1. apply IH; lia.
    + apply IH; lia.
Qed.

Lemma coverageMaskBeforeInvert_bound (samples : Z) (c : Float32.float) :
  samples <= 32 ->
  0 <= coverageMaskBeforeInvert samples c < 2 ^ Z.max samples 0.
Proof.
  intros Hs. rewrite coverageMaskBeforeInvert_loop.
  pose proof (coverageLoop_bound (Z.to_nat samples) 0 c Float32.half 0 0) as H.
  replace (0 + Z.of_nat (Z.to_nat samples)) with (Z.max samples 0) in H by lia.
  apply H; lia.
Qed.

Lemma testbit_UINT_MAX (p : Z) : 0 <= p < 32 -> Z.testbit UINT_MAX p = true.
Proof. intros Hp. change UINT_MAX with (Z.ones 32). apply Z.ones_spec_low. lia. Qed.

Lemma testbit_not32 (mask p : Z) :
  0 <= p < 32 -> Z.testbit (not32 mask) p = negb (Z.testbit mask p).
Proof.
  intros Hp. unfold not32. rewrite Z.lxor_spec, testbit_UINT_MAX by assumption.
  apply xorb_true_r.
Qed.

Lemma testbit_above (mask k p : Z) :
  0 <= mask < 2 ^ k -> 0 <= k <= p -> Z.testbit mask p = false.
Proof.
  intros Hm Hk. destruct (Z.eq_dec mask 0) as [->|Hnz]; [apply Z.testbit_0_l|].
  apply Z.bits_above_log2; [lia|].
  assert (Z.log2 mask < k) by (apply Z.log2_lt_pow2; lia). lia.
Qed.

Lemma popcount_small (n : nat) (m : Z) :
  0 <= m < 2 ^ Z.of_nat n -> popcount (S n) m = popcount n m.
Proof.
  revert m. induction n as [|n IH]; intros m Hm.
  - assert (m = 0) by (change (2 ^ Z.of_nat 0) with 1 in Hm; lia). subst. reflexivity.
  - cbn [popcount]. f_equal. apply (IH (Z.div2 m)).
    rewrite Z.div2_div. rewrite Nat2Z.inj_succ, Z.pow_succ_r in Hm by lia.
    split; [apply Z.div_pos; lia | apply Z.div_lt_upper_bound; lia].
Qed.

Lemma popcount_double (n : nat) (m : Z) (b : bool) :
  popcount (S n) (2 * m + (if b then 1 else 0)) =
  ((if b then 1 else 0) + popcount n m)%nat.
Proof.
  cbn [popcount]. f_equal.
  - destruct b.
    + rewrite Z.add_comm, Z.odd_add_mul_2. reflexivity.
    + rewrite Z.add_0_r, Z.odd_mul. reflexivity.
  - f_equal. rewrite Z.div2_div. symmetry.
    apply Z.div_unique with (if b then 1 else 0); destruct b; lia.
Qed.

Lemma popcount32_double (m k : Z) (b : bool) :
  0 <= m < 2 ^ k -> 0 <= k < 32 ->
  popcount32 (2 * m + (if b then 1 else 0)) = ((if b then 1 else 0) + popcount32 m)%nat.
Proof.
  intros Hm Hk. unfold popcount32. rewrite popcount_double.
  rewrite (popcount_small 31 m); [reflexivity|].
  assert (2 ^ k <= 2 ^ 31) by (apply Z.pow_le_mono_r; lia).
  change (Z.of_nat 31) with 31. lia.
Qed.

Lemma popcount_loop (n : nat) (i : Z) (c t : Float32.float) (mask k : Z) :
  0 <= mask < 2 ^ k -> 0 <= k -> k + Z.of_nat n <= 32 ->
  popcount32 (coverageLoop n i c t mask) = (popcount32 mask + crossings n i c t)%nat.
Proof.
  revert i t mask k. induction n as [|n IH]; intros i t mask k Hm Hk Hn.
  - simpl. lia.
  - cbn [coverageLoop crossings]. rewrite (shl1_32_small mask k) by lia.
    assert (Hp : 2 ^ (k + 1) = 2 * 2 ^ k) by (rewrite Z.pow_add_r by lia; lia).
    destruct (Float32.ge _ _).
    + rewrite lor_double_1. rewrite (IH _ _ _ (k + 1)) by lia.
      rewrite (popcount32_double mask k true) by lia. lia.
    + rewrite (IH _ _ _ (k + 1)) by lia.
      pose proof (popcount32_double mask k false ltac:(lia) ltac:(lia)) as Hd.
      rewrite Z.add_0_r in Hd. rewrite Hd. lia.
Qed.

Lemma popcount_coverageMask (samples : Z) (c : Float32.float) :
  samples <= 32 ->
  popcount32 (coverageMaskBeforeInvert samples c) =
  crossings (Z.to_nat samples) 0 c Float32.half.
Proof.
  intros Hs. rewrite coverageMaskBeforeInvert_loop.
  rewrite (popcount_loop _ _ _ _ 0 0) by lia. reflexivity.
Qed.

Lemma of_int_normal (k : Z) : 1 <= k <= 32 -> normalPositive (Float32.of_int k) = true.
Proof.
  intros Hk.
  assert (Hall : forallb (fun j => normalPositive (Float32.of_int (Z.of_nat j)))
                   (seq 1 32) = true) by (vm_compute; reflexivity).
  rewrite forallb_forall in Hall.
  specialize (Hall (Z.to_nat k)). rewrite Z2Nat.id in Hall by lia.
  apply Hall. apply in_seq. lia.
Qed.

Lemma crossing_mono (k : Z) (c1 c2 t : Float32.float) :
  normalPositive (Float32.of_int k) = true ->
  Float32.valid c1 = true -> Float32.valid c2 = true -> Float32.le c1 c2 = true ->
  Float32.ge (Float32.mul (Float32.of_int k) c1) t = true ->
  Float32.ge (Float32.mul (Float32.of_int k) c2) t = true.
Proof.
  intros Hn Hv1 Hv2 Hle Hge.
  destruct (Float32.of_int k) as [s|s| |s mn en]; try discriminate.
  destruct s; try discriminate. simpl in Hn. apply Z.leb_le in Hn.
  apply (ge_leb_trans (Float32.mul (S754_finite false mn en) c1)); [|assumption].
  apply SFmul_mono; assumption.
Qed.

Lemma crossings_mono (n : nat) (i : Z) (c1 c2 : Float32.float) (k1 k2 : nat) :
  0 <= i -> i + Z.of_nat n <= 32 ->
  Float32.valid c1 = true -> Float32.valid c2 = true -> Float32.le c1 c2 = true ->
  (k1 <= k2)%nat ->
  (k1 + crossings n i c1 (thresholdAfter k1) <=
   k2 + crossings n i c2 (thresholdAfter k2))%nat.
Proof.
  intros Hi Hn Hv1 Hv2 Hle. revert i k1 k2 Hi Hn.
  induction n as [|n IH]; intros i k1 k2 Hi Hn Hk; [simpl; lia|].
  cbn [crossings].
  pose proof (of_int_normal (i + 1) ltac:(lia)) as Hnorm.
  change (Float32.add (thresholdAfter k1) Float32.one) with (thresholdAfter (S k1)).
  change (Float32.add (thresholdAfter k2) Float32.one) with (thresholdAfter (S k2)).
  destruct (Float32.ge (Float32.mul (Float32.of_int (i + 1)) c1) (thresholdAfter k1)) eqn:H1;
  destruct (Float32.ge (Float32.mul (Float32.of_int (i + 1)) c2) (thresholdAfter k2)) eqn:H2.
  - specialize (IH (i + 1) (S k1) (S k2) ltac:(lia) ltac:(lia) ltac:(lia)). lia.
  - destruct (Nat.eq_dec k1 k2) as [->|Hne].
    + rewrite (crossing_mono (i + 1) c1 c2 _ Hnorm Hv1 Hv2 Hle H1) in H2. discriminate.
    + specialize (IH (i + 1) (S k1) k2 ltac:(lia) ltac:(lia) ltac:(lia)). lia.
  - specialize (IH (i + 1) k1 (S k2) ltac:(lia) ltac:(lia) ltac:(lia)). lia.
  - specialize (IH (i + 1) k1 k2 ltac:(lia) ltac:(lia) ltac:(lia)). lia.
Qed.

(** ** Runs of the monad *)

Section Runs.

Context {Device : Type}.

Lemma run_bind {A B : Type} (m : M Device A) (k : A -> M Device B) (r : Renderer Device) :
  bind m k r =
  (returned (k (returned (m r)) (after (m r))),
   after (k (returned (m r)) (after (m r))),
   calls (m r) ++ calls (k (returned (m r)) (after (m r)))).
Proof.
  unfold bind, returned, after, calls.
  destruct (m r) as [[a r1] evs1]. simpl.
  destruct (k a r1) as [[b r2] evs2]. reflexivity.
Qed.

Lemma run_eta {A : Type} (x : A * Renderer Device * list Event) :
  x = (returned x, after x, calls x).
Proof. destruct x as [[a r] evs]. reflexivity. Qed.

Lemma run_orReturn (m k : M Device Error) (r : Renderer Device) :
  orReturn m k r =
  if isError (returned (m r)) then m r
  else (returned (k (after (m r))), after (k (after (m r))),
        calls (m r) ++ calls (k (after (m r)))).
Proof.
  unfold orReturn. rewrite run_bind.
  destruct (isError (returned (m r))).
  - unfold ret, returned, after, calls. simpl. rewrite app_nil_r.
    destruct (m r) as [[a r1] evs1]. reflexivity.
  - reflexivity.
Qed.

(** *** The renderer only grows *)

Lemma grows_refl (r : Renderer Device) : grows r r.
Proof. unfold grows. split; [lia|]. split; auto. Qed.

Lemma grows_trans (r1 r2 r3 : Renderer Device) :
  grows r1 r2 -> grows r2 r3 -> grows r1 r3.
Proof.
  intros (Hn1 & Hc1 & Hi1) (Hn2 & Hc2 & Hi2).
  unfold grows. split; [lia|]. split; auto.
Qed.

Lemma grows_same (r r' : Renderer Device) :
  mIncompleteTextures r' = mIncompleteTextures r -> nextObject r' = nextObject r ->
  grows r r'.
Proof.
  intros Hc Hn. unfold grows, cacheInvariant. rewrite Hc, Hn.
  split; [lia|]. split; auto.
Qed.

Lemma Grows_ret {A : Type} (a : A) : Grows (ret (Device := Device) a).
Proof. intros r. apply grows_refl. Qed.

Lemma Grows_bind {A B : Type} (m : M Device A) (k : A -> M Device B) :
  Grows m -> (forall a, Grows (k a)) -> Grows (bind m k).
Proof.
  intros Hm Hk r. rewrite run_bind. unfold after at 1. simpl.
  eapply grows_trans; [apply Hm | apply Hk].
Qed.

Lemma Grows_orReturn (m k : M Device Error) :
  Grows m -> Grows k -> Grows (orReturn m k).
Proof.
  intros Hm Hk. unfold orReturn. apply Grows_bind; [assumption|].
  intros e. destruct (isError e); [apply Grows_ret | assumption].
Qed.

Lemma Grows_forLoop (n i : nat) (body : nat -> M Device Error) :
  (forall j, Grows (body j)) -> Grows (forLoop n i body).
Proof.
  intros Hb. revert i. induction n as [|n IH]; intros i; simpl.
  - apply Grows_ret.
  - apply Grows_orReturn; auto.
Qed.

Lemma Grows_call {A : Type} (f : Device -> A * Device) (ev : A -> Event) :
  Grows (call f ev).
Proof.
  intros r. unfold call. destruct (f (device r)) as [a d].
  apply grows_same; reflexivity.
Qed.

Lemma Grows_callVoid (f : Device -> Device) (ev : Event) : Grows (callVoid f ev).
Proof. intros r. apply grows_same; reflexivity. Qed.

(** *** Calls that are all good *)

Lemma QuietSpec_ret {A : Type} (good : Event -> bool) (a : A) :
  QuietSpec good (ret (Device := Device) a).
Proof. intros r. constructor. Qed.

Lemma QuietSpec_bind {A B : Type} (good : Event -> bool)
    (m : M Device A) (k : A -> M Device B) :
  QuietSpec good m -> (forall a, QuietSpec good (k a)) -> QuietSpec good (bind m k).
Proof.
  intros Hm Hk r. rewrite run_bind. unfold calls at 1. simpl.
  apply Forall_app. split; [apply Hm | apply Hk].
Qed.

Lemma QuietSpec_call {A : Type} (good : Event -> bool)
    (f : Device -> A * Device) (ev : A -> Event) :
  (forall a, good (ev a) = true) -> QuietSpec good (call f ev).
Proof.
  intros Hg r. unfold call. destruct (f (device r)) as [a d].
  unfold calls. simpl. repeat constructor. apply Hg.
Qed.

Lemma QuietSpec_callVoid (good : Event -> bool) (f : Device -> Device) (ev : Event) :
  good ev = true -> QuietSpec good (callVoid f ev).
Proof. intros Hg r. unfold calls. simpl. repeat constructor. assumption. Qed.

Lemma QuietSpec_silent {A : Type} (good : Event -> bool) (m : M Device A) :
  (forall r, calls (m r) = []) -> QuietSpec good m.
Proof. intros H r. rewrite H. constructor. Qed.

Lemma QuietSpec_weaken {A : Type} (good good' : Event -> bool) (m : M Device A) :
  (forall ev, good ev = true -> good' ev = true) ->
  QuietSpec good m -> QuietSpec good' m.
Proof. intros Hw Hm r. eapply Forall_impl; [apply Hm | apply Hw]. Qed.

(** *** Steps that stop at their first failing call *)

Lemma StepOutcome_prefix (good : Event -> bool) (pre : list Event)
    (e : Error) (evs : list Event) :
  Forall (fun ev => good ev = true) pre ->
  StepOutcome good e evs -> StepOutcome good e (pre ++ evs).
Proof.
  intros Hpre [e' evs' He Hevs | e' pre' ev He Hpre' Hres Hdraw].
  - apply StepOk; [assumption|]. apply Forall_app; auto.
  - rewrite app_assoc. apply StepFailed; try assumption. apply Forall_app; auto.
Qed.

Lemma StepOutcome_ok_calls (good : Event -> bool) (e : Error) (evs : list Event) :
  StepOutcome good e evs -> isError e = false -> Forall (fun ev => good ev = true) evs.
Proof. intros [? ? ? H | ? ? ? He] Hok; [assumption | congruence]. Qed.

Lemma StepOutcome_weaken (good good' : Event -> bool) (e : Error) (evs : list Event) :
  (forall ev, good ev = true -> good' ev = true) ->
  StepOutcome good e evs -> StepOutcome good' e evs.
Proof.
  intros Hw [e' evs' He Hevs | e' pre' ev He Hpre' Hres Hdraw].
  - apply StepOk; [assumption|]. eapply Forall_impl; eauto.
  - apply StepFailed; try assumption. eapply Forall_impl; eauto.
Qed.

Lemma StepSpec_weaken (good good' : Event -> bool) (m : M Device Error) :
  (forall ev, good ev = true -> good' ev = true) ->
  StepSpec good m -> StepSpec good' m.
Proof. intros Hw Hm r. eapply StepOutcome_weaken; eauto. Qed.

Lemma StepSpec_ret (good : Event -> bool) (e : Error) :
  isError e = false -> StepSpec good (ret (Device := Device) e).
Proof. intros He r. apply StepOk; [assumption | constructor]. Qed.

Lemma StepSpec_orReturn (good : Event -> bool) (m k : M Device Error) :
  StepSpec good m -> StepSpec good k -> StepSpec good (orReturn m k).
Proof.
  intros Hm Hk r. rewrite run_orReturn.
  destruct (isError (returned (m r))) eqn:He; [apply Hm|].
  unfold returned at 1, calls at 1. simpl.
  apply StepOutcome_prefix; [|apply Hk].
  eapply StepOutcome_ok_calls; [apply Hm | assumption].
Qed.

Lemma StepSpec_bind {A : Type} (good : Event -> bool)
    (m : M Device A) (k : A -> M Device Error) :
  QuietSpec good m -> (forall a, StepSpec good (k a)) -> StepSpec good (bind m k).
Proof.
  intros Hm Hk r. rewrite run_bind. unfold returned at 1, calls at 1. simpl.
  apply StepOutcome_prefix; [apply Hm | apply Hk].
Qed.

Lemma StepSpec_forLoop (good : Event -> bool) (n i : nat) (body : nat -> M Device Error) :
  (forall j, StepSpec good (body j)) -> StepSpec good (forLoop n i body).
Proof.
  intros Hb. revert i. induction n as [|n IH]; intros i; simpl.
  - apply StepSpec_ret. reflexivity.
  - apply StepSpec_orReturn; auto.
Qed.

Lemma StepSpec_call (good : Event -> bool) (f : Device -> Error * Device)
    (ev : Error -> Event) :
  (forall e, eventResult (ev e) = Some e) ->
  (forall e, isDraw (ev e) = false) ->
  (forall e, isError e = false -> good (ev e) = true) ->
  StepSpec good (call f ev).
Proof.
  intros Hres Hdraw Hgood r. unfold call. destruct (f (device r)) as [e d].
  unfold returned, calls. simpl.
  destruct (isError e) eqn:He.
  - apply (StepFailed good e [] (ev e)); auto.
  - apply StepOk; [assumption|]. repeat constructor. auto.
Qed.

End Runs.

(** ** Library routines: searching and sorting *)

Lemma sorted_nth (a : list Z) :
  StronglySorted Z.le a ->
  forall i j, (i <= j < List.length a)%nat -> nth i a 0 <= nth j a 0.
Proof.
  induction 1 as [|x l Hl IH Hx]; intros i j Hij; simpl in Hij; [lia|].
  destruct i as [|i], j as [|j]; simpl; try lia.
  - rewrite List.Forall_forall in Hx. apply Hx. apply nth_In. lia.
  - apply IH. lia.
Qed.

Lemma lower_bound_spec (a : list Z) (val : Z) :
  StronglySorted Z.le a ->
  forall fuel first count,
    (count <= fuel)%nat -> (first + count <= List.length a)%nat ->
    (first <= lower_bound fuel a first count val <= first + count)%nat
    /\ (forall k, (first <= k < lower_bound fuel a first count val)%nat ->
                  nth k a 0 < val)
    /\ (forall k, (lower_bound fuel a first count val <= k < first + count)%nat ->
                  val <= nth k a 0).
Proof.
  intros Hsorted. pose proof (sorted_nth a Hsorted) as Hnth.
  induction fuel as [|fuel IH]; intros first count Hfuel Hlen.
  - simpl. repeat split; intros; lia.
  - destruct count as [|c]; [simpl; repeat split; intros; lia|].
    cbn [lower_bound].
    set (step := Nat.div2 (S c)).
    assert (Hstep : (step < S c)%nat) by (apply Nat.lt_div2; lia).
    destruct (Z.ltb_spec (nth (first + step) a 0) val) as [Hlt|Hge].
    + destruct (IH (S (first + step)) (S c - S step)%nat ltac:(lia) ltac:(lia))
        as (Hp & Hlow & Hhigh).
      set (p := lower_bound fuel a (S (first + step)) (S c - S step) val) in *.
      split; [lia|]. split.
      * intros k Hk. destruct (Nat.le_gt_cases k (first + step)) as [Hle|Hgt].
        -- specialize (Hnth k (first + step)%nat ltac:(lia)). lia.
        -- apply Hlow. lia.
      * intros k Hk. apply Hhigh. lia.
    + destruct (IH first step ltac:(lia) ltac:(lia)) as (Hp & Hlow & Hhigh).
      set (p := lower_bound fuel a first step val) in *.
      split; [lia|]. split.
      * intros k Hk. apply Hlow. lia.
      * intros k Hk. destruct (Nat.lt_ge_cases k (first + step)) as [Hlt|Hle].
        -- apply Hhigh. lia.
        -- specialize (Hnth (first + step)%nat k ltac:(lia)). lia.
Qed.

(** On a sorted range [std::binary_search] decides membership. *)
Lemma binary_search_In (a : list Z) (val : Z) :
  StronglySorted Z.le a -> (binary_search a val = true <-> In val a).
Proof.
  intros Hsorted. unfold binary_search.
  destruct (lower_bound_spec a val Hsorted (List.length a) 0 (List.length a)
              ltac:(lia) ltac:(lia)) as (Hp & Hlow & Hhigh).
  set (p := lower_bound (List.length a) a 0 (List.length a) val) in *.
  rewrite andb_true_iff, negb_true_iff, Nat.ltb_lt, Z.ltb_ge. split.
  - intros [Hlt Hle]. specialize (Hhigh p ltac:(lia)).
    assert (Heq : nth p a 0 = val) by lia.
    apply (eq_ind (nth p a 0) (fun v => In v a)); [apply nth_In; lia | exact Heq].
  - intros Hin. destruct (In_nth a val 0 Hin) as (k & Hk & Hval).
    assert (Hpk : (p <= k)%nat).
    { destruct (Nat.le_gt_cases p k) as [|Hgt]; [assumption|].
      specialize (Hlow k ltac:(lia)). lia. }
    split; [lia|].
    pose proof (sorted_nth a Hsorted p k ltac:(lia)). lia.
Qed.

Lemma std_sort_sorted (a : list Z) : StronglySorted Z.le (std_sort a).
Proof.
  unfold std_sort. apply StronglySorted_merge_sort.
  - intros x y z. apply Z.le_trans.
  - intros x y. apply Z.le_ge_cases.
Qed.

Lemma std_sort_permutation (a : list Z) : Permutation (std_sort a) a.
Proof. unfold std_sort. apply merge_sort_Permutation. Qed.

(** ** The steps of the pipeline *)

Lemma isSwizzleWork_benign (ev : Event) : isSwizzleWork ev = true -> benign ev = true.
Proof.
  destruct ev; simpl; try discriminate; try reflexivity.
  unfold benign, eventFailed. simpl. intros ->. reflexivity.
Qed.

Lemma isSwizzleWork_no_state_change (ev : Event) :
  isSwizzleWork ev = true -> isDeviceStateChange ev = false.
Proof. destruct ev; simpl; try discriminate; reflexivity. Qed.

Lemma benign_not_draw (ev : Event) : benign ev = true -> isDraw ev = false.
Proof.
  unfold benign. intros H. apply andb_true_iff in H. destruct H as [H _].
  apply andb_true_iff in H. destruct H as [_ H]. apply negb_true_iff in H. exact H.
Qed.

Lemma benign_not_failed (ev : Event) : benign ev = true -> eventFailed ev = false.
Proof.
  unfold benign. intros H. apply andb_true_iff in H. destruct H as [H _].
  apply andb_true_iff in H. destruct H as [H _]. apply negb_true_iff in H. exact H.
Qed.

Lemma benign_not_no_geometry (ev : Event) :
  benign ev = true -> isNoGeometryAnswer ev = false.
Proof.
  unfold benign. intros H. apply andb_true_iff in H. destruct H as [_ H].
  apply negb_true_iff in H. exact H.
Qed.

Lemma isMark_facts (ev : Event) :
  isMark ev = true ->
  eventFailed ev = false /\ isDraw ev = false /\ isNoGeometryAnswer ev = false.
Proof. destruct ev; simpl; try discriminate; auto. Qed.

(** Solves the side conditions of [StepSpec_call] and [QuietSpec_call]. *)
Ltac event_facts :=
  intros;
  first
    [ reflexivity
    | unfold benign, eventFailed; simpl;
      repeat match goal with H : isError _ = false |- _ => rewrite H end;
      reflexivity ].

(** Decomposes a step into its calls. *)
Ltac step_spec :=
  repeat match goal with
    | |- StepSpec _ (orReturn _ _) => apply StepSpec_orReturn
    | |- StepSpec _ (forLoop _ _ _) => apply StepSpec_forLoop; intros
    | |- StepSpec _ (ret _) => apply StepSpec_ret; reflexivity
    | |- StepSpec _ (call _ _) => apply StepSpec_call; event_facts
    | |- StepSpec _ (bind _ _) => apply StepSpec_bind; [|intros]
    | |- QuietSpec _ (call _ _) => apply QuietSpec_call; event_facts
    | |- QuietSpec _ (callVoid _ _) => apply QuietSpec_callVoid; event_facts
    | |- QuietSpec _ (ret _) => apply QuietSpec_ret
    | |- QuietSpec _ (bind _ _) => apply QuietSpec_bind; [|intros]
    | |- StepSpec _ (if ?c then _ else _) => destruct c
    | |- StepSpec _ (match ?x with _ => _ end) => destruct x
    | |- QuietSpec _ (if ?c then _ else _) => destruct c
    | |- QuietSpec _ (match ?x with _ => _ end) => destruct x
    end.

Ltac grows_spec :=
  repeat match goal with
    | |- Grows (orReturn _ _) => apply Grows_orReturn
    | |- Grows (forLoop _ _ _) => apply Grows_forLoop; intros
    | |- Grows (ret _) => apply Grows_ret
    | |- Grows (call _ _) => apply Grows_call
    | |- Grows (callVoid _ _) => apply Grows_callVoid
    | |- Grows (bind _ _) => apply Grows_bind; [|intros]
    | |- Grows (if ?c then _ else _) => destruct c
    | |- Grows (match ?x with _ => _ end) => destruct x
    end.

Section PipelineFacts.

Context {Device : Type}.
Variable B : Backend Device.
Variable maxDrawBuffers : nat.

Lemma generateSwizzles_spec (data : Data) :
  StepSpec isSwizzleWork (generateSwizzles B data).
Proof.
  unfold generateSwizzles, generateSwizzlesFor, generateSwizzle. step_spec.
Qed.

Lemma generateSwizzles_grows (data : Data) : Grows (generateSwizzles B data).
Proof.
  unfold generateSwizzles, generateSwizzlesFor, generateSwizzle. grows_spec.
Qed.

Lemma applyRenderTarget_spec (data : Data) (mode : GLenum) (ignoreViewport : bool) :
  StepSpec benign (applyRenderTarget B data mode ignoreViewport).
Proof.
  unfold applyRenderTarget, applyRenderTargetImpl, setViewport, setScissorRectangle.
  step_spec.
Qed.

Lemma applyRenderTarget_grows (data : Data) (mode : GLenum) (ignoreViewport : bool) :
  Grows (applyRenderTarget B data mode ignoreViewport).
Proof.
  unfold applyRenderTarget, applyRenderTargetImpl, setViewport, setScissorRectangle.
  grows_spec.
Qed.

Lemma applyState_spec (data : Data) (mode : GLenum) :
  StepSpec benign (applyState B data mode).
Proof.
  unfold applyState, setRasterizerState, setBlendState, setDepthStencilState.
  step_spec.
Qed.

Lemma applyState_grows (data : Data) (mode : GLenum) : Grows (applyState B data mode).
Proof.
  unfold applyState, setRasterizerState, setBlendState, setDepthStencilState.
  grows_spec.
Qed.

Lemma applyVertexBuffer_spec (st : State) (first count instances : Z) :
  StepSpec benign (applyVertexBuffer B st first count instances).
Proof. unfold applyVertexBuffer. step_spec. Qed.

Lemma applyTransformFeedbackBuffers_spec (data : Data) :
  QuietSpec benign (applyTransformFeedbackBuffers B data).
Proof.
  unfold applyTransformFeedbackBuffers, applyTransformFeedbackBuffersImpl. step_spec.
Qed.

Lemma applyTransformFeedbackBuffers_grows (data : Data) :
  Grows (applyTransformFeedbackBuffers B data).
Proof.
  unfold applyTransformFeedbackBuffers, applyTransformFeedbackBuffersImpl. grows_spec.
Qed.

Lemma applyShaders_spec (data : Data) (transformFeedbackActive : bool) :
  StepSpec benign (applyShaders B data transformFeedbackActive).
Proof. unfold applyShaders, applyShadersImpl, applyUniforms. step_spec. Qed.

Lemma applyShaders_grows (data : Data) (transformFeedbackActive : bool) :
  Grows (applyShaders B data transformFeedbackActive).
Proof. unfold applyShaders, applyShadersImpl, applyUniforms. grows_spec. Qed.


(** *** getIncompleteTexture *)

Lemma getIncompleteTexture_hit (type : GLenum) (o : TextureObject)
    (r : Renderer Device) :
  mIncompleteTextures r !! type = Some o ->
  getIncompleteTexture B type r = (RendererTexture o, r, []).
Proof.
  intros H. unfold getIncompleteTexture, incompleteTextureMissing, incompleteTextureAt, bind.
  rewrite H. cbn iota beta. rewrite H. reflexivity.
Qed.

Lemma getIncompleteTexture_miss (type : GLenum) (r : Renderer Device) :
  mIncompleteTextures r !! type = None ->
  exists (impl : Z) (d : Device) (images : list Event),
    getIncompleteTexture B type r =
    (RendererTexture {| objectAddress := nextObject r;
                        objectType := placeholderTarget type;
                        objectImpl := impl |},
     {| device := d;
        mIncompleteTextures :=
          <[type := {| objectAddress := nextObject r;
                       objectType := placeholderTarget type;
                       objectImpl := impl |}]> (mIncompleteTextures r);
        nextObject := S (nextObject r) |},
     EvCreateTexture (placeholderTarget type) impl :: images)
    /\ Forall (fun ev => isSetImage ev = true) images.
Proof.
  intros H.
  unfold getIncompleteTexture, incompleteTextureMissing, incompleteTextureAt,
    setIncompleteTexture, newTexture, createTexture, setImage, allocate, call, callVoid,
    bind, ret, placeholderTarget.
  rewrite H.
  destruct (type =? GL_TEXTURE_CUBE_MAP);
    [|destruct (type =? GL_TEXTURE_3D); [|destruct (type =? GL_TEXTURE_2D_ARRAY)]];
    match goal with
    | |- context [impl_createTexture Device B ?t (device r)] =>
        destruct (impl_createTexture Device B t (device r)) as [impl d]
    end;
    cbn [device mIncompleteTextures nextObject objectAddress app];
    rewrite lookup_insert_eq;
    (eexists _, _, _; split; [reflexivity | repeat constructor]).
Qed.

Lemma getIncompleteTexture_quiet (type : GLenum) :
  QuietSpec benign (getIncompleteTexture B type).
Proof.
  intros r. destruct (mIncompleteTextures r !! type) as [o|] eqn:H.
  - rewrite (getIncompleteTexture_hit type o r H). constructor.
  - destruct (getIncompleteTexture_miss type r H) as (impl & d & images & -> & Himg).
    unfold calls. simpl. constructor; [reflexivity|].
    eapply Forall_impl; [exact Himg|]. intros ev. destruct ev; try discriminate. reflexivity.
Qed.

Lemma getIncompleteTexture_grows (type : GLenum) : Grows (getIncompleteTexture B type).
Proof.
  intros r. destruct (mIncompleteTextures r !! type) as [o|] eqn:H.
  - rewrite (getIncompleteTexture_hit type o r H). apply grows_refl.
  - destruct (getIncompleteTexture_miss type r H) as (impl & d & images & -> & _).
    unfold after, grows, cacheInvariant. cbn [fst snd nextObject mIncompleteTextures].
    split; [lia|]. split.
    + intros type' o' Ho'. rewrite lookup_insert_ne; [assumption|]. congruence.
    + intros [Hfresh Hinj]. split.
      * intros type' o'. rewrite lookup_insert.
        destruct (decide (type = type')) as [<-|Hne].
        -- intros [= <-]. simpl. split; [lia | reflexivity].
        -- intros Ho'. destruct (Hfresh _ _ Ho'). split; [lia | assumption].
      * intros type1 type2 o1 o2. rewrite !lookup_insert.
        destruct (decide (type = type1)) as [<-|Hne1];
          destruct (decide (type = type2)) as [<-|Hne2]; try reflexivity.
        -- intros [= <-] Ho2 Haddr. simpl in Haddr.
           destruct (Hfresh _ _ Ho2). lia.
        -- intros Ho1 [= <-] Haddr. simpl in Haddr.
           destruct (Hfresh _ _ Ho1). lia.
        -- apply Hinj.
Qed.

(** What [getIncompleteTexture] returns is the texture it leaves in the
    map for the type. *)
Lemma getIncompleteTexture_returns (type : GLenum) (r : Renderer Device) :
  exists o, returned (getIncompleteTexture B type r) = RendererTexture o
            /\ mIncompleteTextures (after (getIncompleteTexture B type r)) !! type = Some o.
Proof.
  destruct (mIncompleteTextures r !! type) as [o|] eqn:H.
  - rewrite (getIncompleteTexture_hit type o r H). exists o. auto.
  - destruct (getIncompleteTexture_miss type r H) as (impl & d & images & -> & _).
    eexists. split; [reflexivity|]. unfold after. simpl. apply lookup_insert_eq.
Qed.

(** *** applyTextures *)

Lemma applyTexturesFor_spec (data : Data) (shaderType : SamplerType) (serials : list Z) :
  StepSpec benign (applyTexturesFor B data shaderType serials).
Proof.
  unfold applyTexturesFor, setSamplerState, setTexture. step_spec.
  all: apply getIncompleteTexture_quiet.
Qed.

Lemma applyTexturesFor_grows (data : Data) (shaderType : SamplerType) (serials : list Z) :
  Grows (applyTexturesFor B data shaderType serials).
Proof.
  unfold applyTexturesFor, setSamplerState, setTexture. grows_spec.
  all: apply getIncompleteTexture_grows.
Qed.

Lemma applyTextures_spec (data : Data) :
  StepSpec benign (applyTextures B maxDrawBuffers data).
Proof.
  unfold applyTextures. step_spec; apply applyTexturesFor_spec.
Qed.

Lemma applyTextures_grows (data : Data) : Grows (applyTextures B maxDrawBuffers data).
Proof.
  unfold applyTextures. grows_spec; apply applyTexturesFor_grows.
Qed.

(** *** applyUniformBuffers *)

Lemma collectUniformBuffers_inl (data : Data) (programObject : Program)
    (n i : nat) (bound : list Buffer) (e : Error) :
  collectUniformBuffers data programObject n i bound = inl e ->
  e = unboundUniformBufferError
  /\ exists j, (i <= j < i + n)%nat
       /\ bufferId (getIndexedUniformBuffer (state data)
                      (getUniformBlockBinding programObject j)) = 0.
Proof.
  revert i bound. induction n as [|n IH]; intros i bound; simpl; [discriminate|].
  destruct (Z.eqb_spec (bufferId (getIndexedUniformBuffer (state data)
                                    (getUniformBlockBinding programObject i))) 0)
    as [Hz|Hnz].
  - intros [= <-]. split; [reflexivity|]. exists i. split; [lia | assumption].
  - intros H. destruct (IH _ _ H) as [He (j & Hj & Hb)].
    split; [assumption|]. exists j. split; [lia | assumption].
Qed.

Lemma collectUniformBuffers_inr (data : Data) (programObject : Program)
    (n i : nat) (bound buffers : list Buffer) :
  collectUniformBuffers data programObject n i bound = inr buffers ->
  forall j, (i <= j < i + n)%nat ->
    bufferId (getIndexedUniformBuffer (state data)
                (getUniformBlockBinding programObject j)) <> 0.
Proof.
  revert i bound. induction n as [|n IH]; intros i bound; simpl; [intros; lia|].
  destruct (Z.eqb_spec (bufferId (getIndexedUniformBuffer (state data)
                                    (getUniformBlockBinding programObject i))) 0)
    as [Hz|Hnz]; [discriminate|].
  intros H j Hj. destruct (Nat.eq_dec j i) as [->|Hne]; [assumption|].
  apply (IH _ _ H). lia.
Qed.

(** The validation fails, without a call, exactly when a used block is
    unbound; otherwise the step is the backend's. *)
Lemma applyUniformBuffers_cases (data : Data) :
  (usedBlockUnbound data
   /\ forall r, applyUniformBuffers B data r = (unboundUniformBufferError, r, []))
  \/ (~ usedBlockUnbound data /\ StepSpec benign (applyUniformBuffers B data)).
Proof.
  unfold applyUniformBuffers, usedBlockUnbound.
  destruct (collectUniformBuffers data _ _ 0 []) as [e|buffers] eqn:Hc.
  - left. destruct (collectUniformBuffers_inl _ _ _ _ _ _ Hc) as [-> (j & Hj & Hb)].
    split; [|reflexivity]. exists j. split; [lia | assumption].
  - right. split.
    + intros (j & Hj & Hb).
      apply (collectUniformBuffers_inr _ _ _ _ _ _ Hc j); [lia | assumption].
    + unfold applyUniformBuffersImpl. step_spec.
Qed.

Lemma applyUniformBuffers_grows (data : Data) : Grows (applyUniformBuffers B data).
Proof. unfold applyUniformBuffers, applyUniformBuffersImpl. grows_spec. Qed.

(** *** skipDraw and markTransformFeedbackUsage *)

Lemma skipDraw_returned (data : Data) (mode : GLenum) (r : Renderer Device) :
  returned (skipDraw data mode r) = skipDrawResult data mode
  /\ after (skipDraw data mode r) = r.
Proof.
  unfold skipDraw, skipDrawResult.
  destruct (mode =? GL_POINTS).
  - destruct (usesPointSize _); split; reflexivity.
  - destruct (IsTriangleMode mode); [|split; reflexivity].
    destruct (cullFace _ && _); split; reflexivity.
Qed.

Lemma skipDraw_quiet (data : Data) (mode : GLenum) :
  QuietSpec benign (skipDraw (Device := Device) data mode).
Proof.
  unfold skipDraw, ERR. step_spec.
  intros r. unfold calls. simpl. repeat constructor.
Qed.

Lemma markTransformFeedbackUsage_quiet (data : Data) :
  QuietSpec isMark (markTransformFeedbackUsage B data).
Proof.
  unfold markTransformFeedbackUsage.
  generalize (maxTransformFeedbackSeparateAttributes (caps data)) 0%nat.
  intros n. induction n as [|n IH]; intros i; simpl; step_spec. apply IH.
Qed.

Lemma markTransformFeedbackUsage_grows (data : Data) :
  Grows (markTransformFeedbackUsage B data).
Proof.
  unfold markTransformFeedbackUsage.
  generalize (maxTransformFeedbackSeparateAttributes (caps data)) 0%nat.
  intros n. induction n as [|n IH]; intros i; simpl; grows_spec. apply IH.
Qed.

(** *** The draws *)

Lemma TailRun_prefix (data : Data) (mode : GLenum) (pre : list Event)
    (e : Error) (evs : list Event) :
  Forall (fun ev => benign ev = true) pre ->
  TailRun data mode e evs -> TailRun data mode e (pre ++ evs).
Proof.
  intros Hpre H. destruct H; rewrite ?app_assoc.
  - apply RunFailed; try assumption. apply Forall_app; auto.
  - apply RunInvalid; try assumption. apply Forall_app; auto.
  - apply RunSkipped; try assumption. apply Forall_app; auto.
  - apply RunDrawFailed; try assumption. apply Forall_app; auto.
  - apply RunDrawn; try assumption. apply Forall_app; auto.
Qed.

Lemma TailSpec_orReturn (data : Data) (mode : GLenum) (m k : M Device Error) :
  StepSpec benign m -> TailSpec data mode k -> TailSpec data mode (orReturn m k).
Proof.
  intros Hm Hk r. rewrite run_orReturn.
  destruct (isError (returned (m r))) eqn:He.
  - destruct (Hm r) as [e evs Hok _ | e pre ev _ Hpre Hres Hdraw]; [congruence|].
    apply RunFailed; assumption.
  - unfold returned at 1, calls at 1. simpl.
    apply TailRun_prefix; [|apply Hk].
    eapply StepOutcome_ok_calls; [apply Hm | assumption].
Qed.

Lemma TailSpec_bind {A : Type} (data : Data) (mode : GLenum)
    (m : M Device A) (k : A -> M Device Error) :
  QuietSpec benign m -> (forall a, TailSpec data mode (k a)) ->
  TailSpec data mode (bind m k).
Proof.
  intros Hm Hk r. rewrite run_bind. unfold returned at 1, calls at 1. simpl.
  apply TailRun_prefix; [apply Hm | apply Hk].
Qed.

Lemma TailSpec_uniformBuffers (data : Data) (mode : GLenum) (k : M Device Error) :
  (~ usedBlockUnbound data -> TailSpec data mode k) ->
  TailSpec data mode (orReturn (applyUniformBuffers B data) k).
Proof.
  intros Hk. destruct (applyUniformBuffers_cases data) as [[Hu Hrun] | [Hb Hspec]].
  - intros r. rewrite run_orReturn, Hrun. unfold returned, calls. simpl.
    apply RunInvalid; [constructor | assumption].
  - apply TailSpec_orReturn; auto.
Qed.

Lemma TailSpec_intro (data : Data) (mode : GLenum) (m : M Device Error) :
  (forall r e r' evs, m r = (e, r', evs) -> TailRun data mode e evs) ->
  TailSpec data mode m.
Proof. intros H r. apply (H r _ (after (m r))). apply run_eta. Qed.

Lemma skipDraw_run (data : Data) (mode : GLenum) (r : Renderer Device) :
  exists evs, skipDraw data mode r = (skipDrawResult data mode, r, evs)
              /\ Forall (fun ev => benign ev = true) evs.
Proof.
  destruct (skipDraw_returned data mode r) as [Hret Hafter].
  pose proof (skipDraw_quiet data mode r) as Hq.
  exists (calls (skipDraw data mode r)). split; [|assumption].
  rewrite (run_eta (skipDraw data mode r)) at 1. rewrite Hret, Hafter. reflexivity.
Qed.

Lemma TailSpec_indexBuffer (data : Data) (mode : GLenum)
    (indices : Z) (buffer : option Buffer) (count : Z) (type : Z)
    (indexInfo0 : TranslatedIndexData) (k : TranslatedIndexData -> M Device Error) :
  (forall indexInfo, TailSpec data mode (k indexInfo)) ->
  TailSpec data mode
    (let! translated := applyIndexBuffer B indices buffer count mode type indexInfo0 in
     let '(error, indexInfo) := translated in
     if isError error then ret error else k indexInfo).
Proof.
  intros Hk. apply TailSpec_intro. intros r e r' evs Hrun.
  unfold bind, applyIndexBuffer, call in Hrun.
  destruct (impl_applyIndexBuffer Device B indices buffer count mode type indexInfo0
              (device r)) as [[error indexInfo] d].
  cbn [fst snd] in Hrun.
  destruct (isError error) eqn:He.
  - unfold ret in Hrun. injection Hrun as <- <- <-.
    apply (RunFailed data mode error []); [constructor | reflexivity | assumption | reflexivity].
  - match type of Hrun with context [k indexInfo ?r1] =>
      specialize (Hk indexInfo r1); destruct (k indexInfo r1) as [[e2 r2] evs2]
    end.
    injection Hrun as <- <- <-. unfold returned, calls in Hk. cbn [fst snd] in Hk.
    match goal with
    | |- TailRun _ _ _ (?ev :: ?l) => apply (TailRun_prefix data mode [ev] _ l)
    end; [|assumption].
    repeat constructor. unfold benign, eventFailed. simpl. rewrite He. reflexivity.
Qed.

Lemma TailSpec_drawArrays (data : Data) (mode : GLenum) (count instances : Z)
    (transformFeedbackActive : bool) :
  ~ usedBlockUnbound data ->
  TailSpec data mode
    (let! skip := skipDraw data mode in
     if negb skip then
       try! drawArraysImpl B mode count instances transformFeedbackActive in
       do! (if transformFeedbackActive then markTransformFeedbackUsage B data
            else ret tt) in
       ret NoError
     else ret NoError).
Proof.
  intros Hb. apply TailSpec_intro. intros r e r' evs Hrun.
  destruct (skipDraw_run data mode r) as (evs1 & Hs & Hq).
  unfold bind at 1 in Hrun. rewrite Hs in Hrun.
  destruct (skipDrawResult data mode) eqn:Hskip; cbn [negb] in Hrun.
  - unfold ret in Hrun. injection Hrun as <- <- <-. rewrite app_nil_r.
    apply RunSkipped; assumption.
  - unfold orReturn, bind, drawArraysImpl, call in Hrun.
    destruct (impl_drawArrays Device B mode count instances transformFeedbackActive
                (device r)) as [e1 d].
    destruct (isError e1) eqn:He.
    + unfold ret in Hrun. injection Hrun as <- <- <-. cbn [app].
      apply RunDrawFailed; auto.
    + pose proof (markTransformFeedbackUsage_quiet data) as Hmarks.
      match type of Hrun with
      | context [(if transformFeedbackActive then _ else _) ?r1] =>
          assert (Hm : Forall (fun ev => isMark ev = true)
                         (calls ((if transformFeedbackActive
                                  then markTransformFeedbackUsage B data
                                  else ret tt) r1)))
            by (destruct transformFeedbackActive; [apply Hmarks | constructor]);
          destruct ((if transformFeedbackActive then markTransformFeedbackUsage B data
                     else ret tt) r1) as [[u r2] marks]
      end.
      unfold ret in Hrun. injection Hrun as <- <- <-.
      unfold calls in Hm. cbn [snd app] in *. rewrite app_nil_r.
      apply RunDrawn; auto.
Qed.

Lemma TailSpec_drawElements (data : Data) (mode : GLenum) (count : Z) (type : Z)
    (indices : Z) (buffer : option Buffer) (indexInfo : TranslatedIndexData)
    (instances : Z) :
  ~ usedBlockUnbound data ->
  TailSpec data mode
    (let! skip := skipDraw data mode in
     if negb skip then
       try! drawElementsImpl B mode count type indices buffer indexInfo instances in
       ret NoError
     else ret NoError).
Proof.
  intros Hb. apply TailSpec_intro. intros r e r' evs Hrun.
  destruct (skipDraw_run data mode r) as (evs1 & Hs & Hq).
  unfold bind at 1 in Hrun. rewrite Hs in Hrun.
  destruct (skipDrawResult data mode) eqn:Hskip; cbn [negb] in Hrun.
  - unfold ret in Hrun. injection Hrun as <- <- <-. rewrite app_nil_r.
    apply RunSkipped; assumption.
  - unfold orReturn, bind, drawElementsImpl, call in Hrun.
    destruct (impl_drawElements Device B mode count type indices buffer indexInfo
                instances (device r)) as [e1 d].
    destruct (isError e1) eqn:He.
    + unfold ret in Hrun. injection Hrun as <- <- <-. cbn [app].
      apply RunDrawFailed; auto.
    + unfold ret in Hrun. injection Hrun as <- <- <-. cbn [app].
      apply (RunDrawn data mode _ _ []); auto.
Qed.

(** The common beginning of the two draws, up to the answer of
    [applyPrimitiveType]. *)
Lemma draw_prefix_run (data : Data) (mode : GLenum) (count : Z) (tail : M Device Error)
    (r r' : Renderer Device) (e : Error) (evs : list Event) :
  TailSpec data mode tail ->
  (do! updateSamplerMapping B in
   try! generateSwizzles B data in
   let! hasGeometry := applyPrimitiveType B mode count in
   if negb hasGeometry then ret NoError else tail) r = (e, r', evs) ->
  DrawRun data mode count e evs.
Proof.
  intros Htail Hrun.
  unfold bind at 1 in Hrun. unfold updateSamplerMapping, callVoid in Hrun.
  match type of Hrun with context [orReturn _ _ ?r1] => set (r1' := r1) in Hrun end.
  rewrite run_orReturn in Hrun.
  pose proof (generateSwizzles_spec data r1') as Hswz.
  destruct (generateSwizzles B data r1') as [[e1 r2] evs1].
  unfold returned, after, calls in Hrun, Hswz. cbn [fst snd] in Hrun, Hswz.
  destruct (isError e1) eqn:He1.
  - injection Hrun as <- <- <-.
    destruct Hswz as [e1 evs1 Hok _ | e1 pre ev _ Hpre Hres Hdraw]; [congruence|].
    apply RunTail.
    change (EvUpdateSamplerMapping :: pre ++ [ev])
      with ((EvUpdateSamplerMapping :: pre) ++ [ev]).
    apply RunFailed; try assumption.
    constructor; [reflexivity|].
    eapply Forall_impl; [exact Hpre | apply isSwizzleWork_benign].
  - pose proof (StepOutcome_ok_calls _ _ _ Hswz He1) as Hq.
    unfold bind, applyPrimitiveType, call in Hrun.
    destruct (impl_applyPrimitiveType Device B mode count (device r2))
      as [hasGeometry d].
    destruct hasGeometry; cbn [negb] in Hrun.
    + match type of Hrun with context [tail ?r3] =>
        specialize (Htail r3); destruct (tail r3) as [[e3 r4] evs3]
      end.
      unfold returned, calls in Htail. cbn [fst snd] in Htail.
      injection Hrun as <- <- <-. apply RunTail.
      match goal with
      | |- TailRun _ _ _ ?l =>
          replace l
            with ((EvUpdateSamplerMapping
                     :: evs1 ++ [EvApplyPrimitiveType mode count true]) ++ evs3)
            by (cbn; rewrite <- app_assoc; reflexivity)
      end.
      apply TailRun_prefix; [|assumption].
      constructor; [reflexivity|]. apply Forall_app. split.
      * eapply Forall_impl; [exact Hq | apply isSwizzleWork_benign].
      * repeat constructor.
    + unfold ret in Hrun. injection Hrun as <- <- <-.
      match goal with
      | |- DrawRun _ _ _ _ ?l =>
          replace l
            with ((EvUpdateSamplerMapping :: evs1)
                    ++ [EvApplyPrimitiveType mode count false])
            by reflexivity
      end.
      apply RunNoGeometry.
      constructor; [reflexivity | assumption].
Qed.

(** Decomposes the rest of a draw into its steps. *)
Ltac tail_spec :=
  repeat match goal with
    | |- TailSpec _ _ (orReturn (applyUniformBuffers _ _) _) =>
        apply TailSpec_uniformBuffers; intros
    | |- TailSpec _ _ (orReturn _ _) => apply TailSpec_orReturn
    | |- TailSpec _ _ (bind (applyIndexBuffer _ _ _ _ _ _ _) _) =>
        apply TailSpec_indexBuffer; intros
    | |- TailSpec _ _ (let _ := _ in _) => cbv zeta
    | |- TailSpec _ _ (bind (skipDraw _ _) _) => fail 1
    | |- TailSpec _ _ (bind _ _) => apply TailSpec_bind; [|intros]
    end.

Lemma drawArrays_run (data : Data) (mode : GLenum) (first : Z) (count instances : Z)
    (r : Renderer Device) :
  DrawRun data mode count
    (returned (drawArrays B maxDrawBuffers data mode first count instances r))
    (calls (drawArrays B maxDrawBuffers data mode first count instances r)).
Proof.
  eapply (draw_prefix_run data mode count _ r); [|apply run_eta].
  tail_spec.
  - apply applyRenderTarget_spec.
  - apply applyState_spec.
  - apply applyVertexBuffer_spec.
  - apply applyTransformFeedbackBuffers_spec.
  - apply applyShaders_spec.
  - apply applyTextures_spec.
  - apply TailSpec_drawArrays. assumption.
Qed.

Lemma drawElements_run (data : Data) (mode : GLenum) (count : Z) (type : Z)
    (indices : Z) (instances : Z) (indexRange0 : RangeUI) (r : Renderer Device) :
  DrawRun data mode count
    (returned (drawElements B maxDrawBuffers data mode count type indices instances
                 indexRange0 r))
    (calls (drawElements B maxDrawBuffers data mode count type indices instances
              indexRange0 r)).
Proof.
  eapply (draw_prefix_run data mode count _ r); [|apply run_eta].
  tail_spec.
  - apply applyRenderTarget_spec.
  - apply applyState_spec.
  - apply applyVertexBuffer_spec.
  - apply applyTransformFeedbackBuffers_spec.
  - apply applyShaders_spec.
  - apply applyTextures_spec.
  - apply TailSpec_drawElements. assumption.
Qed.

(** *** What applyTextures binds at a feedback-loop slot *)

Lemma placed_grows (data : Data) (serials : list Z) (r r' : Renderer Device)
    (ev : Event) :
  grows r r' -> placed data serials r ev -> placed data serials r' ev.
Proof.
  intros (_ & Hkeep & _). destruct ev; simpl; auto.
  intros H Hslot. destruct (H Hslot) as (o & -> & Ho). exists o. auto.
Qed.

Lemma PlacedSpec_ret {A : Type} (data : Data) (serials : list Z) (a : A) :
  PlacedSpec data serials (ret (Device := Device) a).
Proof. intros r. constructor. Qed.

Lemma PlacedSpec_bind {A C : Type} (data : Data) (serials : list Z)
    (m : M Device A) (k : A -> M Device C) :
  PlacedSpec data serials m -> (forall a, PlacedSpec data serials (k a)) ->
  (forall a, Grows (k a)) -> PlacedSpec data serials (bind m k).
Proof.
  intros Hm Hk Hg r. rewrite run_bind. unfold after at 1, calls at 1. cbn [fst snd].
  apply Forall_app. split; [|apply Hk].
  eapply Forall_impl; [apply Hm|]. intros ev. apply placed_grows. apply Hg.
Qed.

Lemma PlacedSpec_orReturn (data : Data) (serials : list Z) (m k : M Device Error) :
  PlacedSpec data serials m -> PlacedSpec data serials k -> Grows k ->
  PlacedSpec data serials (orReturn m k).
Proof.
  intros Hm Hk Hg. unfold orReturn. apply PlacedSpec_bind; [assumption| |].
  - intros e. destruct (isError e); [apply PlacedSpec_ret | assumption].
  - intros e. destruct (isError e); [apply Grows_ret | assumption].
Qed.

Lemma PlacedSpec_forLoop (data : Data) (serials : list Z) (n i : nat)
    (body : nat -> M Device Error) :
  (forall j, (i <= j)%nat -> PlacedSpec data serials (body j)) ->
  (forall j, Grows (body j)) ->
  PlacedSpec data serials (forLoop n i body).
Proof.
  intros Hb Hg. revert i Hb. induction n as [|n IH]; intros i Hb; simpl.
  - apply PlacedSpec_ret.
  - apply PlacedSpec_orReturn.
    + apply Hb. lia.
    + apply IH. intros j Hj. apply Hb. lia.
    + apply Grows_forLoop. assumption.
Qed.

Lemma PlacedSpec_call (data : Data) (serials : list Z)
    (f : Device -> Error * Device) (ev : Error -> Event) :
  (forall e (r : Renderer Device), placed data serials r (ev e)) ->
  PlacedSpec data serials (call f ev).
Proof.
  intros Hp r. unfold call. destruct (f (device r)) as [e d].
  unfold calls. simpl. repeat constructor. apply Hp.
Qed.

Lemma PlacedSpec_intro {A : Type} (data : Data) (serials : list Z) (m : M Device A) :
  (forall r a r' evs, m r = (a, r', evs) -> Forall (placed data serials r') evs) ->
  PlacedSpec data serials m.
Proof. intros H r. apply (H r (returned (m r))). apply run_eta. Qed.

Lemma PlacedSpec_placeholder (data : Data) (serials : list Z)
    (shaderType : SamplerType) (samplerIndex : nat) :
  PlacedSpec data serials
    (let! incompleteTexture :=
       getIncompleteTexture B
         (getSamplerTextureType (getCurrentProgramBinary (state data))
            shaderType samplerIndex) in
     try! setTexture B shaderType samplerIndex incompleteTexture in
     ret NoError).
Proof.
  set (type := getSamplerTextureType (getCurrentProgramBinary (state data))
                 shaderType samplerIndex).
  apply PlacedSpec_intro. intros r a r' evs Hrun0.
  assert (Hrun : exists o r1 evs1,
             getIncompleteTexture B type r = (RendererTexture o, r1, evs1)
             /\ mIncompleteTextures r1 !! type = Some o
             /\ Forall (placed data serials r1) evs1).
  { destruct (mIncompleteTextures r !! type) as [o|] eqn:H.
    - exists o, r, []. rewrite (getIncompleteTexture_hit type o r H). auto.
    - destruct (getIncompleteTexture_miss type r H) as (impl & d & images & -> & Himg).
      eexists _, _, _. split; [reflexivity|]. cbn [mIncompleteTextures].
      split; [apply lookup_insert_eq|].
      constructor; [exact I|].
      eapply Forall_impl; [exact Himg|].
      intros ev. destruct ev; try discriminate. intros _. exact I. }
  destruct Hrun as (o & r1 & evs1 & Hrun & Hcache & Hevs).
  unfold bind at 1 in Hrun0. rewrite Hrun in Hrun0.
  unfold orReturn, bind, setTexture, call, ret in Hrun0.
  destruct (impl_setTexture Device B shaderType samplerIndex (RendererTexture o)
              (device r1)) as [e d].
  assert (Hset : placed data serials
                   {| device := d; mIncompleteTextures := mIncompleteTextures r1;
                      nextObject := nextObject r1 |}
                   (EvSetTexture shaderType samplerIndex (RendererTexture o) e)).
  { intros _. exists o. auto. }
  assert (Hevs' : Forall (placed data serials
                    {| device := d; mIncompleteTextures := mIncompleteTextures r1;
                       nextObject := nextObject r1 |}) evs1).
  { eapply Forall_impl; [exact Hevs|]. intros ev. apply placed_grows.
    apply grows_same; reflexivity. }
  destruct (isError e); injection Hrun0 as <- <- <-;
    apply Forall_app; split; try assumption; repeat constructor; assumption.
Qed.

Lemma applyTexturesFor_placed (data : Data) (shaderType : SamplerType)
    (serials : list Z) :
  StronglySorted Z.le serials ->
  PlacedSpec data serials (applyTexturesFor B data shaderType serials).
Proof.
  intros Hsorted. unfold applyTexturesFor.
  apply PlacedSpec_orReturn; [apply PlacedSpec_forLoop; [intros j _|intros j] | |].
  - (* a used slot *)
    destruct (negb (getSamplerMapping (getCurrentProgramBinary (state data))
                      shaderType j =? -1)) eqn:Hunit.
    + match goal with |- context [if ?c then _ else _] => destruct c eqn:Hc end.
      * apply andb_true_iff in Hc. destruct Hc as [_ Hc].
        apply negb_true_iff in Hc.
        assert (Hno : ~ feedbackLoopSlot data serials shaderType j).
        { intros (_ & _ & Hin). apply (binary_search_In _ _ Hsorted) in Hin.
          unfold slotTexture in Hin. congruence. }
        apply PlacedSpec_orReturn; [| |unfold setTexture; grows_spec].
        -- apply PlacedSpec_call. intros e r. exact Hno.
        -- apply PlacedSpec_orReturn; [| apply PlacedSpec_ret | apply Grows_ret].
           apply PlacedSpec_call. intros e r Hslot. contradiction.
      * apply PlacedSpec_placeholder.
    + apply negb_false_iff, Z.eqb_eq in Hunit.
      apply PlacedSpec_orReturn; [| apply PlacedSpec_ret | apply Grows_ret].
      apply PlacedSpec_call. intros e r (_ & Hmapped & _). contradiction.
  - unfold setSamplerState, setTexture. grows_spec.
    all: apply getIncompleteTexture_grows.
  - (* the remaining slots *)
    apply PlacedSpec_orReturn; [| apply PlacedSpec_ret | apply Grows_ret].
    apply PlacedSpec_forLoop; [intros j Hj | intros j; unfold setTexture; grows_spec].
    apply PlacedSpec_orReturn; [| apply PlacedSpec_ret | apply Grows_ret].
    apply PlacedSpec_call. intros e r (Hused & _). lia.
  - unfold setTexture. grows_spec.
Qed.

Lemma getBoundFramebufferTextureSerials_sorted (data : Data) :
  StronglySorted Z.le (getBoundFramebufferTextureSerials maxDrawBuffers data).
Proof. unfold getBoundFramebufferTextureSerials. apply std_sort_sorted. Qed.

Lemma applyTextures_placed (data : Data) :
  PlacedSpec data (getBoundFramebufferTextureSerials maxDrawBuffers data)
    (applyTextures B maxDrawBuffers data).
Proof.
  pose proof (getBoundFramebufferTextureSerials_sorted data) as Hsorted.
  unfold applyTextures. cbv zeta.
  apply PlacedSpec_orReturn; [apply applyTexturesFor_placed; assumption | |].
  - apply PlacedSpec_orReturn;
      [apply applyTexturesFor_placed; assumption | apply PlacedSpec_ret | apply Grows_ret].
  - apply Grows_orReturn; [apply applyTexturesFor_grows | apply Grows_ret].
Qed.

(** *** A draw that succeeds binds every used slot *)

Lemma orReturn_success (m k : M Device Error) (r : Renderer Device) :
  isError (returned (orReturn m k r)) = false ->
  isError (returned (m r)) = false
  /\ isError (returned (k (after (m r)))) = false
  /\ calls (orReturn m k r) = calls (m r) ++ calls (k (after (m r))).
Proof.
  rewrite run_orReturn. destruct (isError (returned (m r))) eqn:He.
  - intros H. congruence.
  - unfold returned at 1, calls at 1. cbn [fst snd]. auto.
Qed.

Lemma forLoop_success (n i : nat) (body : nat -> M Device Error) (r : Renderer Device) :
  isError (returned (forLoop n i body r)) = false ->
  forall j, (i <= j < i + n)%nat ->
    exists r', isError (returned (body j r')) = false
               /\ incl (calls (body j r')) (calls (forLoop n i body r)).
Proof.
  revert i r. induction n as [|n IH]; intros i r Hok j Hj; [lia|].
  cbn [forLoop] in *.
  destruct (orReturn_success _ _ _ Hok) as (Hbody & Hrest & ->).
  destruct (Nat.eq_dec j i) as [->|Hne].
  - exists r. split; [assumption|]. apply incl_appl, incl_refl.
  - destruct (IH (S i) _ Hrest j ltac:(lia)) as (r' & Hr' & Hincl).
    exists r'. split; [assumption|]. apply incl_appr. assumption.
Qed.

Lemma setTexture_last (shaderType : SamplerType) (samplerIndex : nat)
    (texture : TexturePtr) (r : Renderer Device) :
  In (EvSetTexture shaderType samplerIndex texture
        (returned (setTexture B shaderType samplerIndex texture r)))
     (calls (orReturn (setTexture B shaderType samplerIndex texture) (ret NoError) r)).
Proof.
  unfold orReturn, bind, setTexture, call, ret.
  destruct (impl_setTexture Device B shaderType samplerIndex texture (device r)) as [e d].
  unfold returned, calls. cbn [fst snd].
  destruct (isError e); simpl; auto.
Qed.

Lemma applyTexturesFor_binds (data : Data) (shaderType : SamplerType)
    (serials : list Z) (r : Renderer Device) (samplerIndex : nat) :
  isError (returned (applyTexturesFor B data shaderType serials r)) = false ->
  (samplerIndex < getUsedSamplerRange (getCurrentProgramBinary (state data)) shaderType)%nat ->
  exists texture result,
    In (EvSetTexture shaderType samplerIndex texture result)
       (calls (applyTexturesFor B data shaderType serials r)).
Proof.
  unfold applyTexturesFor. intros Hok Hused.
  destruct (orReturn_success _ _ _ Hok) as (Hloop & _ & ->).
  destruct (forLoop_success _ _ _ _ Hloop samplerIndex ltac:(lia))
    as (r' & Hbody & Hincl).
  cbv beta zeta in Hbody, Hincl.
  assert (Hin : exists texture result,
            In (EvSetTexture shaderType samplerIndex texture result)
               (calls ((fun samplerIndex0 : nat =>
                  let textureType :=
                    getSamplerTextureType (getCurrentProgramBinary (state data))
                      shaderType samplerIndex0 in
                  let textureUnit :=
                    getSamplerMapping (getCurrentProgramBinary (state data))
                      shaderType samplerIndex0 in
                  if negb (textureUnit =? -1)
                  then
                    let texture :=
                      getSamplerTexture (state data) textureUnit textureType in
                    let sampler := getSamplerState texture in
                    let sampler0 :=
                      match getSampler (state data) textureUnit with
                      | Some samplerObject => getState samplerObject sampler
                      | None => sampler
                      end in
                    if isSamplerComplete texture sampler0
                       && negb (binary_search serials (getTextureSerial texture))
                    then
                      try! setSamplerState B shaderType samplerIndex0 texture sampler0 in
                      try! setTexture B shaderType samplerIndex0 (ClientTexture texture) in
                      ret NoError
                    else
                      let! incompleteTexture := getIncompleteTexture B textureType in
                      try! setTexture B shaderType samplerIndex0 incompleteTexture in
                      ret NoError
                  else
                    try! setTexture B shaderType samplerIndex0 NullTexture in
                    ret NoError) samplerIndex r'))).
  { cbv beta zeta. cbv beta zeta in Hbody.
    destruct (negb (getSamplerMapping (getCurrentProgramBinary (state data))
                      shaderType samplerIndex =? -1)).
    - match goal with |- context [if ?c then _ else _] => destruct c end.
      + destruct (orReturn_success _ _ _ Hbody) as (_ & _ & ->).
        eexists _, _. apply in_or_app. right. apply setTexture_last.
      + rewrite run_bind. unfold calls at 1. cbn [snd].
        eexists _, _. apply in_or_app. right. apply setTexture_last.
    - eexists _, _. apply setTexture_last. }
  destruct Hin as (texture & result & Hin).
  exists texture, result. apply in_or_app. left. apply Hincl. exact Hin.
Qed.

Lemma applyTextures_binds (data : Data) (shaderType : SamplerType)
    (r : Renderer Device) (samplerIndex : nat) :
  isError (returned (applyTextures B maxDrawBuffers data r)) = false ->
  (samplerIndex < getUsedSamplerRange (getCurrentProgramBinary (state data)) shaderType)%nat ->
  exists texture result,
    In (EvSetTexture shaderType samplerIndex texture result)
       (calls (applyTextures B maxDrawBuffers data r)).
Proof.
  unfold applyTextures. cbv zeta. intros Hok Hused.
  destruct (orReturn_success _ _ _ Hok) as (Hv & Hrest & ->).
  destruct (orReturn_success _ _ _ Hrest) as (Hp & _ & ->).
  destruct shaderType.
  - destruct (applyTexturesFor_binds data SAMPLER_PIXEL _ _ samplerIndex Hp Hused)
      as (texture & result & Hin).
    exists texture, result. apply in_or_app. right. apply in_or_app. left. exact Hin.
  - destruct (applyTexturesFor_binds data SAMPLER_VERTEX _ _ samplerIndex Hv Hused)
      as (texture & result & Hin).
    exists texture, result. apply in_or_app. left. exact Hin.
Qed.

(** *** The serials of the framebuffer's textures *)

Lemma colorbufferSerials_spec (framebuffer : Framebuffer) (n i : nat) (serials : list Z) :
  colorbufferSerials framebuffer n i serials =
  serials ++ flat_map attachmentSerial (map (getColorbuffer framebuffer) (seq i n)).
Proof.
  revert i serials. induction n as [|n IH]; intros i serials; simpl.
  - symmetry. apply app_nil_r.
  - destruct (getColorbuffer framebuffer i) as [[texture|renderbuffer]|];
      rewrite IH; simpl; rewrite <- ?app_assoc; reflexivity.
Qed.

Lemma getBoundFramebufferTextureSerials_permutation (data : Data) :
  Permutation (getBoundFramebufferTextureSerials maxDrawBuffers data)
    (attachedTextureSerials maxDrawBuffers (getDrawFramebuffer (state data))).
Proof.
  unfold getBoundFramebufferTextureSerials, attachedTextureSerials.
  rewrite std_sort_permutation, colorbufferSerials_spec, flat_map_app. simpl.
  destruct (getDepthOrStencilbuffer _) as [[texture|renderbuffer]|];
    simpl; rewrite ?app_nil_r; reflexivity.
Qed.

(** *** The mask applyState hands to setBlendState *)

Lemma applyState_blend_mask (data : Data) (mode : GLenum) (r : Renderer Device) :
  Forall (fun ev =>
            match ev with
            | EvSetBlendState _ _ _ mask _ =>
                mask = sampleMask (isSampleCoverageEnabled (state data))
                         (fst (getSampleCoverageParams (state data)))
                         (snd (getSampleCoverageParams (state data)))
                         (getSamples (getDrawFramebuffer (state data)))
            | _ => True
            end)
    (calls (applyState B data mode r)).
Proof.
  unfold applyState, setRasterizerState, setBlendState, setDepthStencilState,
    orReturn, bind, call, ret.
  destruct (getSampleCoverageParams (state data)) as [coverageValue coverageInvert].
  cbn [fst snd].
  repeat match goal with
    | |- context [impl_setRasterizerState Device B ?a ?d] =>
        destruct (impl_setRasterizerState Device B a d) as [? ?]
    | |- context [impl_setBlendState Device B ?a ?b ?c ?m ?d] =>
        destruct (impl_setBlendState Device B a b c m d) as [? ?]
    | |- context [impl_setDepthStencilState Device B ?a ?b ?c ?f ?d] =>
        destruct (impl_setDepthStencilState Device B a b c f d) as [? ?]
    | |- context [isError ?e] => destruct (isError e)
    end;
    unfold calls; cbn [fst snd app device]; repeat constructor.
Qed.

(** *** The draws only grow the renderer *)

(** [applyState] first sets the rasterizer state and, when that did not
    fail, the blend state, with the sample mask. *)
Lemma applyState_blend_call (data : Data) (mode : GLenum) (r : Renderer Device) :
  exists rasterizer result rest,
    calls (applyState B data mode r) = EvSetRasterizerState rasterizer result :: rest
    /\ (isError result = false ->
        exists blended rest',
          rest = EvSetBlendState (getDrawFramebuffer (state data))
                   (getBlendState (state data)) (getBlendColor (state data))
                   (sampleMask (isSampleCoverageEnabled (state data))
                      (fst (getSampleCoverageParams (state data)))
                      (snd (getSampleCoverageParams (state data)))
                      (getSamples (getDrawFramebuffer (state data))))
                   blended :: rest').
Proof.
  unfold applyState, setRasterizerState, setBlendState, setDepthStencilState,
    orReturn, bind, call, ret.
  destruct (getSampleCoverageParams (state data)) as [coverageValue coverageInvert].
  cbn [fst snd].
  match goal with
  | |- context [impl_setRasterizerState Device B ?a ?d] =>
      destruct (impl_setRasterizerState Device B a d) as [e1 d1] eqn:H1
  end.
  destruct (isError e1) eqn:He1.
  - unfold calls. cbn [fst snd app]. eexists _, _, _. split; [reflexivity|].
    intros H. congruence.
  - cbn [device].
    match goal with
    | |- context [impl_setBlendState Device B ?a ?b ?c ?m ?d] =>
        destruct (impl_setBlendState Device B a b c m d) as [e2 d2] eqn:H2
    end.
    destruct (isError e2).
    + unfold calls. cbn [fst snd app]. eexists _, _, _. split; [reflexivity|].
      intros _. eexists _, _. reflexivity.
    + cbn [device].
      match goal with
      | |- context [impl_setDepthStencilState Device B ?a ?b ?c ?f ?d] =>
          destruct (impl_setDepthStencilState Device B a b c f d) as [e3 d3] eqn:H3
      end.
      destruct (isError e3); unfold calls; cbn [fst snd app];
        (eexists _, _, _; split; [reflexivity|]; intros _; eexists _, _; reflexivity).
Qed.

Lemma skipDraw_grows (data : Data) (mode : GLenum) :
  Grows (skipDraw (Device := Device) data mode).
Proof.
  intros r. destruct (skipDraw_returned data mode r) as [_ ->]. apply grows_refl.
Qed.

Lemma drawArrays_grows (data : Data) (mode : GLenum) (first count instances : Z) :
  Grows (drawArrays B maxDrawBuffers data mode first count instances).
Proof.
  unfold drawArrays, updateSamplerMapping, applyPrimitiveType, applyVertexBuffer,
    drawArraysImpl.
  grows_spec;
    first [ apply generateSwizzles_grows | apply applyRenderTarget_grows
          | apply applyState_grows | apply applyTransformFeedbackBuffers_grows
          | apply applyShaders_grows | apply applyTextures_grows
          | apply applyUniformBuffers_grows | apply skipDraw_grows
          | apply markTransformFeedbackUsage_grows ].
Qed.

Lemma drawElements_grows (data : Data) (mode : GLenum) (count type indices instances : Z)
    (indexRange0 : RangeUI) :
  Grows (drawElements B maxDrawBuffers data mode count type indices instances indexRange0).
Proof.
  unfold drawElements, updateSamplerMapping, applyPrimitiveType, applyVertexBuffer,
    applyIndexBuffer, drawElementsImpl.
  cbv zeta.
  grows_spec;
    first [ apply generateSwizzles_grows | apply applyRenderTarget_grows
          | apply applyState_grows | apply applyTransformFeedbackBuffers_grows
          | apply applyShaders_grows | apply applyTextures_grows
          | apply applyUniformBuffers_grows | apply skipDraw_grows ].
Qed.

End PipelineFacts.

(** ** What the runs of a draw have in common *)



Lemma benign_calm (evs : list Event) :
  Forall (fun ev => benign ev = true) evs ->
  Forall (fun ev => isDraw ev = false /\ eventFailed ev = false) evs.
Proof.
  intros Hall. eapply Forall_impl; [exact Hall|].
  intros ev H. split; [apply benign_not_draw | apply benign_not_failed]; auto.
Qed.


Lemma benign_no_draw (evs : list Event) :
  Forall (fun ev => benign ev = true) evs ->
  Forall (fun ev => isDraw ev = false) evs.
Proof.
  intros Hall. eapply Forall_impl; [exact Hall|]. apply benign_not_draw.
Qed.


Lemma failed_result (ev : Event) (e : Error) :
  eventResult ev = Some e -> isError e = true -> eventFailed ev = true.
Proof. unfold eventFailed. intros -> H. exact H. Qed.



Lemma swizzleWork_quiet (evs : list Event) :
  Forall (fun ev => isSwizzleWork ev = true) evs ->
  Forall (fun ev => benign ev = true) evs.
Proof.
  intros Hall. eapply Forall_impl; [exact Hall|]. apply isSwizzleWork_benign.
Qed.


(** An error returned is the error of the last call, or the error of the
    uniform-buffer validation, raised before any draw. *)
Lemma DrawRun_error (data : Data) (mode : GLenum) (count : Z)
    (e : Error) (evs : list Event) :
  DrawRun data mode count e evs -> isError e = true ->
  (exists before ev, evs = before ++ [ev] /\ eventResult ev = Some e)
  \/ (e = unboundUniformBufferError /\ usedBlockUnbound data
      /\ Forall (fun x => isDraw x = false /\ eventFailed x = false) evs).
Proof.
  intros [pre Hpre | e' evs' Htail]; [discriminate|].
  destruct Htail as [e1 pre x Hpre Hres _ Hdraw | pre Hpre Hu | pre Hpre Hb Hs
                    | e1 pre x Hpre Hdraw Hres _ Hb Hs | pre x marks Hpre Hdraw Hok Hm Hb Hs];
    intros He; try discriminate.
  - left. eauto.
  - right. split; [reflexivity|]. split; [assumption | apply benign_calm; assumption].
  - left. eauto.
Qed.

(** A run that returns no error returns [gl::Error(GL_NO_ERROR)]. *)
Lemma DrawRun_success (data : Data) (mode : GLenum) (count : Z)
    (e : Error) (evs : list Event) :
  DrawRun data mode count e evs -> isError e = false -> e = NoError.
Proof.
  intros [pre Hpre | e' evs' Htail]; [reflexivity|].
  destruct Htail; intros He; try reflexivity; try congruence.
  cbv in He. discriminate.
Qed.

(** From [applyRenderTarget] on, no call is a no-geometry answer. *)
Lemma TailRun_has_geometry (data : Data) (mode : GLenum) (e : Error) (evs : list Event) :
  TailRun data mode e evs ->
  Forall (fun ev => isNoGeometryAnswer ev = false) evs.
Proof.
  assert (Hb : forall l, Forall (fun ev => benign ev = true) l ->
                 Forall (fun ev => isNoGeometryAnswer ev = false) l).
  { intros l Hall. eapply Forall_impl; [exact Hall|]. apply benign_not_no_geometry. }
  assert (Hr : forall ev e, eventResult ev = Some e -> isNoGeometryAnswer ev = false).
  { intros ev e0. destruct ev; simpl; try discriminate; reflexivity. }
  intros H. destruct H; try (apply Hb; assumption).
  - apply Forall_app. split; [apply Hb; assumption|]. repeat constructor. eauto.
  - apply Forall_app. split; [apply Hb; assumption|]. repeat constructor. eauto.
  - apply Forall_app. split; [apply Hb; assumption|]. constructor.
    + destruct ev; try discriminate; reflexivity.
    + eapply Forall_impl; [eassumption|]. intros ev' Hm. apply isMark_facts. assumption.
Qed.

(** A draw is issued only when no used block is unbound and [skipDraw]
    does not skip. *)
Lemma DrawRun_draw (data : Data) (mode : GLenum) (count : Z)
    (e : Error) (evs : list Event) :
  DrawRun data mode count e evs ->
  usedBlockUnbound data \/ skipDrawResult data mode = true ->
  Forall (fun ev => isDraw ev = false) evs.
Proof.
  intros [pre Hpre | e' evs' Htail] Hno.
  - apply Forall_app. split.
    + apply benign_no_draw, swizzleWork_quiet. assumption.
    + repeat constructor.
  - destruct Htail as [e1 pre x Hpre Hres _ Hdraw | pre Hpre Hu | pre Hpre Hb Hs
                      | e1 pre x Hpre Hdraw Hres _ Hb Hs | pre x marks Hpre Hdraw Hok Hm Hb Hs].
    + apply Forall_app. split; [apply benign_no_draw; assumption|]. repeat constructor.
      assumption.
    + apply benign_no_draw; assumption.
    + apply benign_no_draw; assumption.
    + destruct Hno as [Hu | Hskip]; [contradiction | congruence].
    + destruct Hno as [Hu | Hskip]; [contradiction | congruence].
Qed.

(** ** More on the runs of the monad *)

Section MoreRuns.

Context {Device : Type}.

Lemma calls_bind {A C : Type} (m : M Device A) (k : A -> M Device C)
    (r : Renderer Device) :
  calls (bind m k r) = calls (m r) ++ calls (k (returned (m r)) (after (m r))).
Proof. rewrite run_bind. reflexivity. Qed.

Lemma returned_bind {A C : Type} (m : M Device A) (k : A -> M Device C)
    (r : Renderer Device) :
  returned (bind m k r) = returned (k (returned (m r)) (after (m r))).
Proof. rewrite run_bind. reflexivity. Qed.

Lemma after_bind {A C : Type} (m : M Device A) (k : A -> M Device C)
    (r : Renderer Device) :
  after (bind m k r) = after (k (returned (m r)) (after (m r))).
Proof. rewrite run_bind. reflexivity. Qed.

Lemma orReturn_failed (m k : M Device Error) (r : Renderer Device) :
  isError (returned (m r)) = true -> orReturn m k r = m r.
Proof. intros He. rewrite run_orReturn, He. reflexivity. Qed.

Lemma orReturn_passed (m k : M Device Error) (r : Renderer Device) :
  isError (returned (m r)) = false ->
  returned (orReturn m k r) = returned (k (after (m r)))
  /\ after (orReturn m k r) = after (k (after (m r)))
  /\ calls (orReturn m k r) = calls (m r) ++ calls (k (after (m r))).
Proof. intros He. rewrite run_orReturn, He. auto. Qed.

Lemma calls_call {A : Type} (f : Device -> A * Device) (ev : A -> Event)
    (r : Renderer Device) :
  calls (call f ev r) = [ev (returned (call f ev r))].
Proof. unfold call. destruct (f (device r)) as [a d]. reflexivity. Qed.

(** *** Calls that all satisfy a property *)

Lemma AllSpec_ret {A : Type} (P : Event -> Prop) (a : A) :
  AllSpec P (ret (Device := Device) a).
Proof. intros r. constructor. Qed.

Lemma AllSpec_silent {A : Type} (P : Event -> Prop) (m : M Device A) :
  (forall r, calls (m r) = []) -> AllSpec P m.
Proof. intros H r. rewrite H. constructor. Qed.

Lemma AllSpec_bind {A C : Type} (P : Event -> Prop)
    (m : M Device A) (k : A -> M Device C) :
  AllSpec P m -> (forall a, AllSpec P (k a)) -> AllSpec P (bind m k).
Proof.
  intros Hm Hk r. rewrite calls_bind. apply Forall_app. split; [apply Hm | apply Hk].
Qed.

(** The same when what [m] returns is known. *)
Lemma AllSpec_bind_value {A C : Type} (P : Event -> Prop)
    (m : M Device A) (k : A -> M Device C) (a : A) :
  (forall r, returned (m r) = a) -> AllSpec P m -> AllSpec P (k a) ->
  AllSpec P (bind m k).
Proof.
  intros Ha Hm Hk r. rewrite calls_bind, Ha. apply Forall_app.
  split; [apply Hm | apply Hk].
Qed.

Lemma AllSpec_orReturn (P : Event -> Prop) (m k : M Device Error) :
  AllSpec P m -> AllSpec P k -> AllSpec P (orReturn m k).
Proof.
  intros Hm Hk. unfold orReturn. apply AllSpec_bind; [assumption|].
  intros e. destruct (isError e); [apply AllSpec_ret | assumption].
Qed.

Lemma AllSpec_forLoop (P : Event -> Prop) (n i : nat) (body : nat -> M Device Error) :
  (forall j, (i <= j < i + n)%nat -> AllSpec P (body j)) -> AllSpec P (forLoop n i body).
Proof.
  revert i. induction n as [|n IH]; intros i Hb; simpl.
  - apply AllSpec_ret.
  - apply AllSpec_orReturn; [apply Hb; lia|]. apply IH. intros j Hj. apply Hb. lia.
Qed.

Lemma AllSpec_call {A : Type} (P : Event -> Prop)
    (f : Device -> A * Device) (ev : A -> Event) :
  (forall a, P (ev a)) -> AllSpec P (call f ev).
Proof. intros Hp r. rewrite calls_call. repeat constructor. apply Hp. Qed.

Lemma AllSpec_callVoid (P : Event -> Prop) (f : Device -> Device) (ev : Event) :
  P ev -> AllSpec P (callVoid f ev).
Proof. intros Hp r. unfold calls. simpl. repeat constructor. assumption. Qed.

Lemma AllSpec_weaken {A : Type} (P P' : Event -> Prop) (m : M Device A) :
  (forall ev, P ev -> P' ev) -> AllSpec P m -> AllSpec P' m.
Proof. intros Hw Hm r. eapply Forall_impl; [apply Hm | apply Hw]. Qed.

(** *** Calls seen through a projection *)

Section Projection.

Context {X : Type}.
Variable proj : Event -> option X.

Lemma ExactSpec_ret {A : Type} (a : A) : ExactSpec proj [] (ret (Device := Device) a).
Proof. intros r. reflexivity. Qed.

Lemma ExactSpec_silent {A : Type} (m : M Device A) :
  (forall r, calls (m r) = []) -> ExactSpec proj [] m.
Proof. intros H r. rewrite H. reflexivity. Qed.

Lemma ExactSpec_bind {A C : Type} (e1 e2 : list X)
    (m : M Device A) (k : A -> M Device C) :
  ExactSpec proj e1 m -> (forall a, ExactSpec proj e2 (k a)) ->
  ExactSpec proj (e1 ++ e2) (bind m k).
Proof. intros Hm Hk r. rewrite calls_bind, omap_app, Hm, Hk. reflexivity. Qed.

Lemma ExactSpec_call {A : Type} (e : list X)
    (f : Device -> A * Device) (ev : A -> Event) :
  (forall a, omap proj [ev a] = e) -> ExactSpec proj e (call f ev).
Proof. intros Hp r. rewrite calls_call. apply Hp. Qed.

Lemma ExactSpec_callVoid (e : list X) (f : Device -> Device) (ev : Event) :
  omap proj [ev] = e -> ExactSpec proj e (callVoid f ev).
Proof. intros Hp r. exact Hp. Qed.

Lemma ExactSpec_hidden {A : Type} (m : M Device A) :
  AllSpec (fun ev => proj ev = None) m -> ExactSpec proj [] m.
Proof.
  intros Hm r. specialize (Hm r). induction Hm as [|ev evs Hev _ IH]; [reflexivity|].
  cbn. rewrite Hev. exact IH.
Qed.

Lemma TraceSpec_ret (e : Error) :
  isError e = false -> TraceSpec proj [] (ret (Device := Device) e).
Proof. intros He r. split; [apply prefix_nil | reflexivity]. Qed.

Lemma TraceSpec_exact (e : list X) (m : M Device Error) :
  ExactSpec proj e m -> TraceSpec proj e m.
Proof. intros Hm r. rewrite Hm. split; [reflexivity | reflexivity]. Qed.

Lemma TraceSpec_orReturn (e1 e2 : list X) (m k : M Device Error) :
  TraceSpec proj e1 m -> TraceSpec proj e2 k -> TraceSpec proj (e1 ++ e2) (orReturn m k).
Proof.
  intros Hm Hk r. destruct (Hm r) as [Hp Hs].
  destruct (isError (returned (m r))) eqn:He.
  - rewrite (orReturn_failed m k r He). split.
    + apply prefix_app_r. exact Hp.
    + intros H. congruence.
  - destruct (orReturn_passed m k r He) as (-> & _ & ->).
    destruct (Hk (after (m r))) as [Hp' Hs'].
    rewrite omap_app, (Hs eq_refl). split.
    + apply prefix_app. exact Hp'.
    + intros H. rewrite (Hs' H). reflexivity.
Qed.

Lemma TraceSpec_bind {A : Type} (e1 e2 : list X)
    (m : M Device A) (k : A -> M Device Error) :
  ExactSpec proj e1 m -> (forall a, TraceSpec proj e2 (k a)) ->
  TraceSpec proj (e1 ++ e2) (bind m k).
Proof.
  intros Hm Hk r. rewrite calls_bind, returned_bind, omap_app, Hm.
  destruct (Hk (returned (m r)) (after (m r))) as [Hp Hs]. split.
  - apply prefix_app. exact Hp.
  - intros H. rewrite (Hs H). reflexivity.
Qed.

Lemma TraceSpec_call (e : list X) (f : Device -> Error * Device) (ev : Error -> Event) :
  (forall a, omap proj [ev a] = e) -> TraceSpec proj e (call f ev).
Proof. intros Hp. apply TraceSpec_exact, ExactSpec_call, Hp. Qed.

Lemma TraceSpec_forLoop (e : nat -> list X) (n i : nat) (body : nat -> M Device Error) :
  (forall j, (i <= j < i + n)%nat -> TraceSpec proj (e j) (body j)) ->
  TraceSpec proj (flat_map e (seq i n)) (forLoop n i body).
Proof.
  revert i. induction n as [|n IH]; intros i Hb; simpl.
  - apply TraceSpec_ret. reflexivity.
  - apply TraceSpec_orReturn; [apply Hb; lia|]. apply IH. intros j Hj. apply Hb. lia.
Qed.

Lemma TraceSpec_expected (e e' : list X) (m : M Device Error) :
  e = e' -> TraceSpec proj e m -> TraceSpec proj e' m.
Proof. intros <-. auto. Qed.

End Projection.

End MoreRuns.

(** * Properties of the draw pipeline *)

(** C4 (as amended): for a sample count of at most 32 (the width of the
    mask word), the number of bits set in the mask before inversion does
    not decrease when the coverage value increases; and for every sample
    count the mask returned with inversion is the bitwise complement, over
    the 32 bits of the word, of the mask returned without. *)
Theorem coverage_popcount_monotone :
  (forall (samples : Z) (c1 c2 : Float32.float),
      samples <= 32 ->
      Float32.valid c1 = true -> Float32.valid c2 = true ->
      Float32.le c1 c2 = true ->
      (popcount32 (coverageMaskBeforeInvert samples c1)
       <= popcount32 (coverageMaskBeforeInvert samples c2))%nat)
  /\ (forall (samples : Z) (c : Float32.float),
        sampleMask true c true samples = not32 (sampleMask true c false samples)
        /\ forall p, 0 <= p < 32 ->
             Z.testbit (sampleMask true c true samples) p =
             negb (Z.testbit (sampleMask true c false samples) p)).
Proof.
  split.
  - intros samples c1 c2 Hs Hv1 Hv2 Hle.
    rewrite !popcount_coverageMask by assumption.
    pose proof (crossings_mono (Z.to_nat samples) 0 c1 c2 0 0) as H.
    simpl in H. apply H; try assumption; lia.
  - intros samples c. split; [reflexivity|].
    intros p Hp. apply testbit_not32. assumption.
Qed.

Lemma coverage_popcount_monotone_witness :
  4 <= 32 /\ Float32.valid f_1_4 = true /\ Float32.valid Float32.half = true
  /\ Float32.le f_1_4 Float32.half = true
  /\ (popcount32 (coverageMaskBeforeInvert 4 f_1_4)
      <= popcount32 (coverageMaskBeforeInvert 4 Float32.half))%nat.
Proof.
  split; [lia|]. do 3 (split; [reflexivity|]).
  apply (proj1 coverage_popcount_monotone); [lia | reflexivity ..].
Defined.

(** C4 fails as stated: with 64 samples the first 32 shifts leave the mask
    word, so raising the coverage value from 1/128 to 1/64 takes the count
    of set bits from 1 down to 0. *)
Lemma coverage_popcount_not_monotone_64 :
  Float32.valid f_1_128 = true /\ Float32.valid f_1_64 = true
  /\ Float32.le f_1_128 f_1_64 = true
  /\ popcount32 (coverageMaskBeforeInvert 64 f_1_128) = 1%nat
  /\ popcount32 (coverageMaskBeforeInvert 64 f_1_64) = 0%nat.
Proof. repeat split; vm_compute; reflexivity. Qed.

(** C10: with sample-coverage testing enabled and inversion requested, the
    mask is the complement of the whole 32-bit word: for a sample count
    below 32 every bit at position [samples] and above is set, and with a
    coverage value of zero the mask is 0xFFFFFFFF whatever the sample
    count. *)
Theorem inverted_mask_sets_high_bits :
  (forall (samples : Z) (c : Float32.float) (p : Z),
      samples < 32 -> 0 <= p < 32 -> samples <= p ->
      Z.testbit (sampleMask true c true samples) p = true)
  /\ (forall (samples : Z) (c : Float32.float),
        sampleMask true c true samples =
        Z.lxor (coverageMaskBeforeInvert samples c) 0xFFFFFFFF)
  /\ (forall (samples : Z) (s : bool),
        sampleMask true (S754_zero s) true samples = 0xFFFFFFFF).
Proof.
  split; [|split].
  - intros samples c p Hs Hp Hsp.
    change (sampleMask true c true samples)
      with (not32 (coverageMaskBeforeInvert samples c)).
    rewrite testbit_not32 by assumption.
    pose proof (coverageMaskBeforeInvert_bound samples c ltac:(lia)) as Hb.
    rewrite (testbit_above _ (Z.max samples 0) p) by lia. reflexivity.
  - reflexivity.
  - intros samples s. reflexivity.
Qed.

Lemma inverted_mask_sets_high_bits_witness :
  4 < 32 /\ 0 <= 17 < 32 /\ 4 <= 17
  /\ Z.testbit (sampleMask true Float32.half true 4) 17 = true.
Proof.
  split; [lia|]. split; [lia|]. split; [lia|].
  apply (proj1 inverted_mask_sets_high_bits); lia.
Defined.

Lemma draw_run {Device : Type} (B : Backend Device) (maxDrawBuffers : nat)
    (data : Data) (mode : GLenum) (first count instances type indices : Z)
    (indexRange0 : RangeUI) (r : Renderer Device)
    (run : Error * Renderer Device * list Event) :
  run = drawArrays B maxDrawBuffers data mode first count instances r
  \/ run = drawElements B maxDrawBuffers data mode count type indices instances
             indexRange0 r ->
  DrawRun data mode count (returned run) (calls run).
Proof.
  intros [-> | ->]; [apply drawArrays_run | apply drawElements_run].
Qed.



(** C5: a [drawArrays] or [drawElements] in which [applyPrimitiveType]
    answers that the primitive has no geometry returns success, issues no
    draw and makes no call that sets device state: all it did before the
    answer was to refresh the sampler mapping and to generate swizzles. *)
Theorem no_geometry_draw_changes_nothing {Device : Type} (B : Backend Device)
    (maxDrawBuffers : nat) (data : Data) (mode : GLenum)
    (first count instances type indices : Z) (indexRange0 : RangeUI)
    (r : Renderer Device) (run : Error * Renderer Device * list Event) :
  run = drawArrays B maxDrawBuffers data mode first count instances r
  \/ run = drawElements B maxDrawBuffers data mode count type indices instances
             indexRange0 r ->
  In (EvApplyPrimitiveType mode count false) (calls run) ->
  returned run = NoError
  /\ Forall (fun ev => isDraw ev = false) (calls run)
  /\ Forall (fun ev => isDeviceStateChange ev = false) (calls run)
  /\ exists swizzles,
       calls run = swizzles ++ [EvApplyPrimitiveType mode count false]
       /\ Forall (fun ev => isSwizzleWork ev = true) swizzles.
Proof.
  intros Hrun Hin.
  pose proof (draw_run B maxDrawBuffers data mode first count instances type indices
                indexRange0 r run Hrun) as H.
  destruct H as [pre Hpre | e evs Htail].
  - split; [reflexivity|]. split; [|split].
    + apply Forall_app. split; [|repeat constructor].
      apply benign_no_draw, swizzleWork_quiet. assumption.
    + apply Forall_app. split; [|repeat constructor].
      eapply Forall_impl; [exact Hpre|]. apply isSwizzleWork_no_state_change.
    + exists pre. auto.
  - exfalso. pose proof (TailRun_has_geometry _ _ _ _ Htail) as Hgeo.
    rewrite List.Forall_forall in Hgeo. specialize (Hgeo _ Hin). discriminate.
Qed.

Lemma no_geometry_draw_changes_nothing_witness :
  In (EvApplyPrimitiveType GL_TRIANGLES 2 false) (calls noGeometryRun)
  /\ returned noGeometryRun = NoError
  /\ Forall (fun ev => isDraw ev = false) (calls noGeometryRun)
  /\ Forall (fun ev => isDeviceStateChange ev = false) (calls noGeometryRun).
Proof.
  assert (Hin : In (EvApplyPrimitiveType GL_TRIANGLES 2 false) (calls noGeometryRun))
    by (right; left; reflexivity).
  split; [exact Hin|].
  destruct (no_geometry_draw_changes_nothing (testBackend false NoError) 8 plainData
              GL_TRIANGLES 0 2 1 0 0 {| rangeStart := 0; rangeEnd := 0 |}
              (newRenderer tt) noGeometryRun (or_introl eq_refl) Hin)
    as (H1 & H2 & H3 & _).
  auto.
Defined.

(** C3 (as amended): when some active uniform block's binding point has
    no buffer bound, the uniform-buffer validation fails, without a backend
    call, with the invalid-operation error and its message; no draw is
    issued in that [drawArrays] or [drawElements]; and the draw returns
    that error unless it ended before the validation: with the error of a
    call that failed, or with success because the primitive has no
    geometry. *)
Theorem unbound_uniform_buffer_fails_validation {Device : Type} (B : Backend Device)
    (maxDrawBuffers : nat) (data : Data) (mode : GLenum)
    (first count instances type indices : Z) (indexRange0 : RangeUI)
    (r : Renderer Device) (run : Error * Renderer Device * list Event) :
  usedBlockUnbound data ->
  run = drawArrays B maxDrawBuffers data mode first count instances r
  \/ run = drawElements B maxDrawBuffers data mode count type indices instances
             indexRange0 r ->
  (forall r0, applyUniformBuffers B data r0 = (unboundUniformBufferError, r0, []))
  /\ code unboundUniformBufferError = GL_INVALID_OPERATION
  /\ message unboundUniformBufferError <> EmptyString
  /\ Forall (fun ev => isDraw ev = false) (calls run)
  /\ (returned run = unboundUniformBufferError
      \/ (exists before ev, calls run = before ++ [ev]
                            /\ eventResult ev = Some (returned run)
                            /\ eventFailed ev = true)
      \/ (returned run = NoError
          /\ exists swizzles,
               calls run = swizzles ++ [EvApplyPrimitiveType mode count false])).
Proof.
  intros Hu Hrun.
  pose proof (draw_run B maxDrawBuffers data mode first count instances type indices
                indexRange0 r run Hrun) as H.
  split.
  { destruct (applyUniformBuffers_cases B data) as [[_ Hv] | [Hb _]];
      [assumption | contradiction]. }
  split; [reflexivity|]. split; [discriminate|]. split.
  { eapply DrawRun_draw; [exact H | left; assumption]. }
  destruct H as [pre Hpre | e evs Htail].
  - right. right. split; [reflexivity|]. exists pre. reflexivity.
  - destruct Htail as [e pre x Hpre Hres He Hdraw | pre Hpre _ | pre Hpre Hb Hs
                      | e pre x Hpre Hdraw Hres He Hb Hs
                      | pre x marks Hpre Hdraw Hok Hm Hb Hs];
      try contradiction.
    + right. left. exists pre, x. split; [reflexivity|]. split; [assumption|].
      eapply failed_result; eauto.
    + left. reflexivity.
Qed.

Lemma unbound_uniform_buffer_fails_validation_witness :
  usedBlockUnbound unboundData
  /\ returned unboundRun = unboundUniformBufferError
  /\ Forall (fun ev => isDraw ev = false) (calls unboundRun).
Proof.
  assert (Hu : usedBlockUnbound unboundData)
    by (exists 0%nat; split; [repeat constructor | reflexivity]).
  split; [exact Hu|]. split; [reflexivity|].
  exact (proj1 (proj2 (proj2 (proj2
           (unbound_uniform_buffer_fails_validation (testBackend true NoError) 8
              unboundData GL_TRIANGLES 0 3 1 0 0 {| rangeStart := 0; rangeEnd := 0 |}
              (newRenderer tt)
              (drawArrays (testBackend true NoError) 8 unboundData GL_TRIANGLES 0 3 1
                 (newRenderer tt))
              Hu (or_introl eq_refl)))))).
Defined.

(** C3 fails as stated: a draw whose primitive has no geometry returns
    success before the validation is reached, although a used uniform
    block is unbound. *)
Lemma unbound_uniform_buffer_draw_succeeds :
  usedBlockUnbound unboundData
  /\ returned unboundNoGeometryRun = NoError
  /\ isError (returned unboundNoGeometryRun) = false.
Proof.
  split; [|split; reflexivity].
  exists 0%nat. split; [repeat constructor | reflexivity].
Qed.

(** C9 (as amended): when the program does not write the point size,
    [skipDraw] answers skip for the mode "points" and logs a diagnostic; no
    draw is issued in such a [drawArrays] or [drawElements]; and the draw
    returns success unless a step signalled an error: a call that failed,
    whose error is returned, or the uniform-buffer validation. *)
Theorem points_without_point_size_are_skipped {Device : Type} (B : Backend Device)
    (maxDrawBuffers : nat) (data : Data)
    (first count instances type indices : Z) (indexRange0 : RangeUI)
    (r : Renderer Device) (run : Error * Renderer Device * list Event) :
  usesPointSize (getCurrentProgramBinary (state data)) = false ->
  run = drawArrays B maxDrawBuffers data GL_POINTS first count instances r
  \/ run = drawElements B maxDrawBuffers data GL_POINTS count type indices instances
             indexRange0 r ->
  skipDraw data GL_POINTS r
  = (true, r, [EvERR "Point rendering without writing to gl_PointSize."])
  /\ Forall (fun ev => isDraw ev = false) (calls run)
  /\ (returned run = NoError
      \/ (exists before ev, calls run = before ++ [ev]
                            /\ eventResult ev = Some (returned run)
                            /\ eventFailed ev = true)
      \/ (returned run = unboundUniformBufferError /\ usedBlockUnbound data)).
Proof.
  intros Hps Hrun.
  pose proof (draw_run B maxDrawBuffers data GL_POINTS first count instances type indices
                indexRange0 r run Hrun) as H.
  assert (Hskip : skipDrawResult data GL_POINTS = true).
  { unfold skipDrawResult. rewrite Hps. reflexivity. }
  split.
  { unfold skipDraw. rewrite Hps. reflexivity. }
  split.
  { eapply DrawRun_draw; [exact H | right; assumption]. }
  destruct (isError (returned run)) eqn:He.
  - destruct (DrawRun_error _ _ _ _ _ H He) as [(before & ev & Hc & Hres) | (Hv & Hu & _)].
    + right. left. exists before, ev. split; [assumption|]. split; [assumption|].
      eapply failed_result; eauto.
    + right. right. auto.
  - left. eapply DrawRun_success; eauto.
Qed.

Lemma points_without_point_size_are_skipped_witness :
  usesPointSize (getCurrentProgramBinary (state noPointSizeData)) = false
  /\ Forall (fun ev => isDraw ev = false) (calls pointsRun)
  /\ returned pointsRun = NoError.
Proof.
  split; [reflexivity|].
  split; [|reflexivity].
  exact (proj1 (proj2
           (points_without_point_size_are_skipped (testBackend true NoError) 8
              noPointSizeData 0 3 1 0 0 {| rangeStart := 0; rangeEnd := 0 |}
              (newRenderer tt)
              (drawArrays (testBackend true NoError) 8 noPointSizeData GL_POINTS 0 3 1
                 (newRenderer tt))
              eq_refl (or_introl eq_refl)))).
Defined.

(** C9 fails as stated: the draw of points with a program that does not
    write the point size does not succeed when an earlier step fails; here
    [applyRenderTarget] runs out of memory and the draw returns that
    error. *)
Lemma points_draw_can_fail :
  usesPointSize (getCurrentProgramBinary (state noPointSizeData)) = false
  /\ returned pointsFailedRun = outOfMemory
  /\ isError (returned pointsFailedRun) = true.
Proof. repeat split. Qed.

(** C1 (as amended): with sample-coverage testing enabled the mask is the
    ladder of the specification cut to the 32 bits of the mask word,
    complemented when inversion is requested: for a sample count of at most
    32 it is the ladder itself (and this for every coverage value, in [0,1]
    or not); with testing disabled it is all-ones; for 4 samples and a
    coverage value of 0.5 without inversion it is binary 1010, with exactly
    2 bits set; and it is the mask [applyState] hands to [setBlendState],
    which it calls whenever setting the rasterizer state did not fail. *)
Theorem sample_mask_is_ladder {Device : Type} (B : Backend Device)
    (data : Data) (mode : GLenum) (r : Renderer Device)
    (c : Float32.float) (invert : bool) (samples : Z) :
  (samples <= 32 ->
   sampleMask true c invert samples
   = (if invert then not32 (ladderMask (Z.to_nat samples) c)
      else ladderMask (Z.to_nat samples) c))
  /\ sampleMask true c invert samples
     = (if invert then not32 (ladderMask (Z.to_nat samples) c mod 2 ^ 32)
        else ladderMask (Z.to_nat samples) c mod 2 ^ 32)
  /\ sampleMask false c invert samples = 0xFFFFFFFF
  /\ sampleMask true Float32.half false 4 = 10
  /\ popcount32 (sampleMask true Float32.half false 4) = 2%nat
  /\ Forall (fun ev =>
               match ev with
               | EvSetBlendState _ _ _ mask _ =>
                   mask = sampleMask (isSampleCoverageEnabled (state data))
                            (fst (getSampleCoverageParams (state data)))
                            (snd (getSampleCoverageParams (state data)))
                            (getSamples (getDrawFramebuffer (state data)))
               | _ => True
               end)
       (calls (applyState B data mode r))
  /\ (exists rasterizer result rest,
        calls (applyState B data mode r) = EvSetRasterizerState rasterizer result :: rest
        /\ (isError result = false ->
            exists blended rest',
              rest = EvSetBlendState (getDrawFramebuffer (state data))
                       (getBlendState (state data)) (getBlendColor (state data))
                       (sampleMask (isSampleCoverageEnabled (state data))
                          (fst (getSampleCoverageParams (state data)))
                          (snd (getSampleCoverageParams (state data)))
                          (getSamples (getDrawFramebuffer (state data))))
                       blended :: rest')).
Proof.
  split; [|split; [|split; [|split; [|split; [|split]]]]].
  - intros Hs. unfold sampleMask.
    rewrite (coverageMaskBeforeInvert_ladder_small samples c Hs). reflexivity.
  - unfold sampleMask. rewrite coverageMaskBeforeInvert_ladder. reflexivity.
  - reflexivity.
  - reflexivity.
  - reflexivity.
  - apply applyState_blend_mask.
  - apply applyState_blend_call.
Qed.

Lemma sample_mask_is_ladder_witness :
  4 <= 32
  /\ sampleMask true Float32.half true 4 = not32 (ladderMask (Z.to_nat 4) Float32.half)
  /\ ladderMask (Z.to_nat 4) Float32.half = 10.
Proof.
  assert (H : 4 <= 32) by lia.
  split; [exact H|]. split; [|reflexivity].
  exact (proj1 (sample_mask_is_ladder (testBackend true NoError) plainData GL_TRIANGLES
                  (newRenderer tt) Float32.half true 4) H).
Defined.

(** C1 fails as stated: with 33 samples and a coverage value of 1.0 the
    ladder of the specification has 33 bits set, and the mask of the code,
    an [unsigned int], is its low 32 bits. *)
Lemma sample_mask_wraps_at_33 :
  sampleMask true Float32.one false 33 = 0xFFFFFFFF
  /\ ladderMask 33 Float32.one = 2 ^ 33 - 1
  /\ sampleMask true Float32.one false 33 <> ladderMask (Z.to_nat 33) Float32.one.
Proof.
  assert (H1 : sampleMask true Float32.one false 33 = 0xFFFFFFFF)
    by (vm_compute; reflexivity).
  assert (H2 : ladderMask 33 Float32.one = 2 ^ 33 - 1) by (vm_compute; reflexivity).
  split; [exact H1|]. split; [exact H2|].
  change (Z.to_nat 33) with 33%nat. rewrite H1, H2. discriminate.
Qed.

(** C2: at a used and mapped sampler slot whose texture has its serial in
    the framebuffer texture serial set built for the call, whatever the
    completeness of the texture, every [setTexture] of [applyTextures] for
    the slot is given the incomplete texture kept for the slot's texture
    type, never the texture itself; its sampler state is not set; and when
    [applyTextures] succeeds the slot has been bound. *)
Theorem feedback_loop_texture_binds_placeholder {Device : Type} (B : Backend Device)
    (maxDrawBuffers : nat) (data : Data) (shaderType : SamplerType)
    (samplerIndex : nat) (r : Renderer Device) :
  (samplerIndex
   < getUsedSamplerRange (getCurrentProgramBinary (state data)) shaderType)%nat ->
  getSamplerMapping (getCurrentProgramBinary (state data)) shaderType samplerIndex
  <> -1 ->
  In (getTextureSerial (slotTexture data shaderType samplerIndex))
     (getBoundFramebufferTextureSerials maxDrawBuffers data) ->
  (forall texture result,
      In (EvSetTexture shaderType samplerIndex texture result)
         (calls (applyTextures B maxDrawBuffers data r)) ->
      texture <> ClientTexture (slotTexture data shaderType samplerIndex)
      /\ exists placeholder,
           texture = RendererTexture placeholder
           /\ mIncompleteTextures (after (applyTextures B maxDrawBuffers data r))
                !! getSamplerTextureType (getCurrentProgramBinary (state data))
                     shaderType samplerIndex
              = Some placeholder)
  /\ (forall texture sampler result,
         ~ In (EvSetSamplerState shaderType samplerIndex texture sampler result)
              (calls (applyTextures B maxDrawBuffers data r)))
  /\ (isError (returned (applyTextures B maxDrawBuffers data r)) = false ->
      exists texture result,
        In (EvSetTexture shaderType samplerIndex texture result)
           (calls (applyTextures B maxDrawBuffers data r))).
Proof.
  intros Hused Hmapped Hin.
  assert (Hslot : feedbackLoopSlot data
                    (getBoundFramebufferTextureSerials maxDrawBuffers data)
                    shaderType samplerIndex) by (repeat split; assumption).
  pose proof (applyTextures_placed B maxDrawBuffers data r) as Hplaced.
  rewrite List.Forall_forall in Hplaced.
  split; [|split].
  - intros texture result Hev. specialize (Hplaced _ Hev Hslot).
    destruct Hplaced as (o & -> & Ho). split; [discriminate|]. exists o. auto.
  - intros texture sampler result Hev. exact (Hplaced _ Hev Hslot).
  - intros Hok. apply applyTextures_binds; assumption.
Qed.

Lemma feedback_loop_texture_binds_placeholder_witness :
  (0 < getUsedSamplerRange (getCurrentProgramBinary (state feedbackData)) SAMPLER_PIXEL)%nat
  /\ getSamplerMapping (getCurrentProgramBinary (state feedbackData)) SAMPLER_PIXEL 0 <> -1
  /\ In (getTextureSerial (slotTexture feedbackData SAMPLER_PIXEL 0))
        (getBoundFramebufferTextureSerials 8 feedbackData)
  /\ In (EvSetTexture SAMPLER_PIXEL 0 (RendererTexture firstIncomplete2D) NoError)
        (calls feedbackRun)
  /\ RendererTexture firstIncomplete2D
     <> ClientTexture (slotTexture feedbackData SAMPLER_PIXEL 0).
Proof.
  assert (H1 : (0 < getUsedSamplerRange (getCurrentProgramBinary (state feedbackData))
                      SAMPLER_PIXEL)%nat) by (simpl; lia).
  assert (H2 : getSamplerMapping (getCurrentProgramBinary (state feedbackData))
                 SAMPLER_PIXEL 0 <> -1) by (simpl; lia).
  assert (H3 : In (getTextureSerial (slotTexture feedbackData SAMPLER_PIXEL 0))
                  (getBoundFramebufferTextureSerials 8 feedbackData))
    by (left; reflexivity).
  assert (H4 : In (EvSetTexture SAMPLER_PIXEL 0 (RendererTexture firstIncomplete2D) NoError)
                  (calls feedbackRun))
    by (right; right; right; left; reflexivity).
  repeat (split; [assumption|]).
  apply (proj1 (feedback_loop_texture_binds_placeholder (testBackend true NoError) 8
                  feedbackData SAMPLER_PIXEL 0 (newRenderer tt) H1 H2 H3)
           (RendererTexture firstIncomplete2D) NoError H4).
Defined.

(** C6 (as amended): the framebuffer texture serial set is sorted
    ascending and holds the serial of each texture attachment once per
    attachment point, so a texture attached at several points has its
    serial repeated. *)
Theorem framebuffer_serials_sorted (maxDrawBuffers : nat) (data : Data) :
  StronglySorted Z.le (getBoundFramebufferTextureSerials maxDrawBuffers data)
  /\ Permutation (getBoundFramebufferTextureSerials maxDrawBuffers data)
       (attachedTextureSerials maxDrawBuffers (getDrawFramebuffer (state data))).
Proof.
  split.
  - apply getBoundFramebufferTextureSerials_sorted.
  - apply getBoundFramebufferTextureSerials_permutation.
Qed.

(** C6 fails as stated: with one texture at colour attachments 0 and 1 the
    set holds its serial twice; it is not strictly ascending. *)
Lemma framebuffer_serials_repeat :
  getBoundFramebufferTextureSerials 8 twiceAttachedData = [7; 7]
  /\ ~ StronglySorted Z.lt (getBoundFramebufferTextureSerials 8 twiceAttachedData)
  /\ ~ NoDup (getBoundFramebufferTextureSerials 8 twiceAttachedData).
Proof.
  assert (Heq : getBoundFramebufferTextureSerials 8 twiceAttachedData = [7; 7])
    by (vm_compute; reflexivity).
  rewrite Heq. split; [reflexivity|]. split.
  - intros H. apply StronglySorted_inv in H. destruct H as [_ H].
    apply Forall_inv in H. lia.
  - intros H. inversion H as [|x l Hnotin _]; subst. apply Hnotin. now left.
Qed.

Lemma placeholderTarget_kind (type : Z) :
  isTextureKind type = true -> placeholderTarget type = type.
Proof.
  unfold isTextureKind, placeholderTarget.
  destruct (Z.eqb_spec type GL_TEXTURE_CUBE_MAP) as [->|]; [reflexivity|].
  destruct (Z.eqb_spec type GL_TEXTURE_3D) as [->|]; [reflexivity|].
  destruct (Z.eqb_spec type GL_TEXTURE_2D_ARRAY) as [->|]; [reflexivity|].
  destruct (Z.eqb_spec type GL_TEXTURE_2D) as [->|]; [reflexivity|].
  discriminate.
Qed.

Lemma newRenderer_cacheInvariant {Device : Type} (d : Device) :
  cacheInvariant (newRenderer d).
Proof.
  split.
  - intros type o H. simpl in H. rewrite lookup_empty in H. discriminate.
  - intros type1 type2 o1 o2 H. simpl in H. rewrite lookup_empty in H. discriminate.
Qed.

(** C8: in a renderer whose incomplete textures are objects it allocated,
    one per type, a lookup for a texture-target kind returns a texture of
    that kind that is then the one kept for the kind; it is the texture
    already kept, and nothing is created, or none was kept and this one is
    created now, by one [createTexture]; later lookups for the kind return
    the same object and create nothing, lookups for another kind return
    another object, and the draws keep the incomplete textures they
    find. *)
Theorem incomplete_texture_is_cached {Device : Type} (B : Backend Device)
    (type : GLenum) (r : Renderer Device) :
  cacheInvariant r -> isTextureKind type = true ->
  exists o,
    returned (getIncompleteTexture B type r) = RendererTexture o
    /\ objectType o = type
    /\ mIncompleteTextures (after (getIncompleteTexture B type r)) !! type = Some o
    /\ cacheInvariant (after (getIncompleteTexture B type r))
    /\ ((mIncompleteTextures r !! type = Some o
         /\ getIncompleteTexture B type r = (RendererTexture o, r, []))
        \/ (mIncompleteTextures r !! type = None
            /\ objectAddress o = nextObject r
            /\ exists impl images,
                 calls (getIncompleteTexture B type r)
                 = EvCreateTexture type impl :: images
                 /\ Forall (fun ev => isSetImage ev = true) images))
    /\ (forall r', grows (after (getIncompleteTexture B type r)) r' ->
          getIncompleteTexture B type r' = (RendererTexture o, r', []))
    /\ (forall r' type' o',
          grows (after (getIncompleteTexture B type r)) r' -> type' <> type ->
          returned (getIncompleteTexture B type' r') = RendererTexture o' ->
          objectAddress o' <> objectAddress o)
    /\ (forall maxDrawBuffers data mode first count instances indexType indices
               indexRange0 r0,
          grows r0 (after (drawArrays B maxDrawBuffers data mode first count
                             instances r0))
          /\ grows r0 (after (drawElements B maxDrawBuffers data mode count indexType
                                indices instances indexRange0 r0))).
Proof.
  intros Hinv Hkind.
  pose proof (getIncompleteTexture_grows B type r) as Hgrows.
  destruct (getIncompleteTexture_returns B type r) as (o & Hret & Hkept).
  assert (Hinv' : cacheInvariant (after (getIncompleteTexture B type r)))
    by (apply Hgrows; assumption).
  exists o. split; [assumption|]. split.
  { destruct Hinv' as [Hfresh _]. destruct (Hfresh _ _ Hkept) as [_ ->].
    apply placeholderTarget_kind. assumption. }
  split; [assumption|]. split; [assumption|]. split.
  { destruct (mIncompleteTextures r !! type) as [o0|] eqn:Hr.
    - left. rewrite (getIncompleteTexture_hit B type o0 r Hr) in Hret, Hkept |- *.
      unfold returned in Hret. simpl in Hret. injection Hret as ->. auto.
    - right. split; [reflexivity|].
      destruct (getIncompleteTexture_miss B type r Hr) as (impl & d & images & Hrun & Himg).
      rewrite Hrun in Hret |- *. unfold returned in Hret. simpl in Hret.
      injection Hret as <-. split; [reflexivity|].
      exists impl, images. rewrite (placeholderTarget_kind type Hkind). auto. }
  split.
  { intros r' Hr'. apply getIncompleteTexture_hit. apply Hr'. assumption. }
  split.
  { intros r' type' o' Hr' Hne Hret' Haddr.
    pose proof (getIncompleteTexture_grows B type' r') as Hgrows'.
    destruct (getIncompleteTexture_returns B type' r') as (o'' & Hret'' & Hkept').
    rewrite Hret' in Hret''. injection Hret'' as <-.
    assert (Hinv'' : cacheInvariant (after (getIncompleteTexture B type' r'))).
    { apply Hgrows'. apply Hr'. assumption. }
    destruct Hinv'' as [_ Hinj]. apply Hne.
    apply (Hinj type' type o' o); [assumption | | assumption].
    apply Hgrows'. apply Hr'. assumption. }
  intros. split; [apply drawArrays_grows | apply drawElements_grows].
Qed.

Lemma incomplete_texture_is_cached_witness :
  cacheInvariant (newRenderer tt) /\ isTextureKind GL_TEXTURE_2D = true
  /\ exists o,
       returned (getIncompleteTexture (testBackend true NoError) GL_TEXTURE_2D
                   (newRenderer tt)) = RendererTexture o
       /\ objectType o = GL_TEXTURE_2D.
Proof.
  split; [apply newRenderer_cacheInvariant|]. split; [reflexivity|].
  destruct (incomplete_texture_is_cached (testBackend true NoError) GL_TEXTURE_2D
              (newRenderer tt) (newRenderer_cacheInvariant tt) eq_refl)
    as (o & H1 & H2 & _).
  exists o. split; assumption.
Defined.

(** * Further properties of the steps *)

(** ** The framebuffer texture serials *)

Lemma isAttached_In (serials : list Z) (serial : Z) :
  isAttached serials serial = true <-> In serial serials.
Proof.
  unfold isAttached. rewrite existsb_exists. split.
  - intros (x & Hin & Heq). apply Z.eqb_eq in Heq. subst. exact Hin.
  - intros Hin. exists serial. split; [exact Hin | apply Z.eqb_refl].
Qed.

Lemma In_boundSerials (maxDrawBuffers : nat) (data : Data) (serial : Z) :
  In serial (getBoundFramebufferTextureSerials maxDrawBuffers data)
  <-> In serial (attachedTextureSerials maxDrawBuffers (getDrawFramebuffer (state data))).
Proof.
  pose proof (getBoundFramebufferTextureSerials_permutation maxDrawBuffers data) as Hperm.
  split; intros H.
  - eapply Permutation_in; [exact Hperm | exact H].
  - eapply Permutation_in; [symmetry; exact Hperm | exact H].
Qed.

Lemma binary_search_attached (maxDrawBuffers : nat) (data : Data) (serial : Z) :
  binary_search (getBoundFramebufferTextureSerials maxDrawBuffers data) serial
  = isAttached (attachedTextureSerials maxDrawBuffers (getDrawFramebuffer (state data)))
      serial.
Proof.
  apply eq_true_iff_eq.
  rewrite (binary_search_In _ _ (getBoundFramebufferTextureSerials_sorted maxDrawBuffers data)).
  rewrite isAttached_In. apply In_boundSerials.
Qed.

Lemma In_attachmentSerial (attachment : option FramebufferAttachment) (serial : Z) :
  In serial (attachmentSerial attachment)
  <-> exists texture, attachment = Some (TextureAttachment texture)
                      /\ getTextureSerial texture = serial.
Proof.
  destruct attachment as [[texture | renderbuffer]|]; simpl.
  - split.
    + intros [H | []]. exists texture. auto.
    + intros (t & Ht & Hs). injection Ht as ->. auto.
  - split; [intros [] | intros (t & Ht & _); discriminate].
  - split; [intros [] | intros (t & Ht & _); discriminate].
Qed.

Lemma length_flat_map_le {A C : Type} (f : A -> list C) (l : list A) :
  (forall x, (List.length (f x) <= 1)%nat) ->
  (List.length (flat_map f l) <= List.length l)%nat.
Proof.
  intros Hf. induction l as [|x l IH]; simpl; [lia|].
  rewrite length_app. specialize (Hf x). lia.
Qed.

(** X1: the test for a feedback loop is exact. The binary search of
    [applyTextures] in the serials collected and sorted by
    [getBoundFramebufferTextureSerials] finds a serial exactly when it is
    the serial of a texture attached to the draw framebuffer, at one of the
    colour attachment points below [IMPLEMENTATION_MAX_DRAW_BUFFERS] or as
    depth or stencil buffer; renderbuffers never match. *)
Theorem feedback_loop_test_is_exact (maxDrawBuffers : nat) (data : Data) (serial : Z) :
  binary_search (getBoundFramebufferTextureSerials maxDrawBuffers data) serial = true
  <-> ((exists i texture,
          (i < maxDrawBuffers)%nat
          /\ getColorbuffer (getDrawFramebuffer (state data)) i
             = Some (TextureAttachment texture)
          /\ getTextureSerial texture = serial)
       \/ (exists texture,
             getDepthOrStencilbuffer (getDrawFramebuffer (state data))
             = Some (TextureAttachment texture)
             /\ getTextureSerial texture = serial)).
Proof.
  rewrite binary_search_attached, isAttached_In.
  unfold attachedTextureSerials. rewrite in_flat_map. split.
  - intros (attachment & Hin & Hserial).
    apply In_attachmentSerial in Hserial. destruct Hserial as (texture & -> & Hs).
    apply in_app_or in Hin. destruct Hin as [Hin | [Hin | []]].
    + left. apply in_map_iff in Hin. destruct Hin as (i & Hi & Hseq).
      apply in_seq in Hseq. exists i, texture. split; [lia | auto].
    + right. exists texture. auto.
  - intros [(i & texture & Hi & Hc & Hs) | (texture & Hd & Hs)].
    + exists (Some (TextureAttachment texture)). split.
      * apply in_or_app. left. rewrite <- Hc. apply in_map. apply in_seq. lia.
      * simpl. auto.
    + exists (Some (TextureAttachment texture)). split.
      * apply in_or_app. right. left. exact Hd.
      * simpl. auto.
Qed.

(** X2: the serials collected for a draw fit the array they are written
    to: there are at most [IMPLEMENTATION_MAX_DRAW_BUFFERS + 1] of them,
    and none when no texture is attached. *)
Theorem framebuffer_serials_fit_array (maxDrawBuffers : nat) (data : Data) :
  (List.length (getBoundFramebufferTextureSerials maxDrawBuffers data)
   <= maxDrawBuffers + 1)%nat
  /\ ((forall i texture,
          getColorbuffer (getDrawFramebuffer (state data)) i
          <> Some (TextureAttachment texture)) ->
      (forall texture,
          getDepthOrStencilbuffer (getDrawFramebuffer (state data))
          <> Some (TextureAttachment texture)) ->
      getBoundFramebufferTextureSerials maxDrawBuffers data = []).
Proof.
  pose proof (getBoundFramebufferTextureSerials_permutation maxDrawBuffers data) as Hperm.
  split.
  - rewrite (Permutation_length Hperm). unfold attachedTextureSerials.
    etransitivity; [apply length_flat_map_le|].
    + intros [[texture | renderbuffer]|]; simpl; lia.
    + rewrite length_app, length_map, length_seq. simpl. lia.
  - intros Hcolor Hdepth.
    destruct (getBoundFramebufferTextureSerials maxDrawBuffers data) as [|serial l] eqn:Heq;
      [reflexivity|].
    exfalso.
    assert (Hin : In serial (getBoundFramebufferTextureSerials maxDrawBuffers data))
      by (rewrite Heq; left; reflexivity).
    apply In_boundSerials in Hin. unfold attachedTextureSerials in Hin.
    apply in_flat_map in Hin. destruct Hin as (attachment & Hin & Hserial).
    apply In_attachmentSerial in Hserial. destruct Hserial as (texture & -> & _).
    apply in_app_or in Hin. destruct Hin as [Hin | [Hin | []]].
    + apply in_map_iff in Hin. destruct Hin as (i & Hi & _). exact (Hcolor _ _ Hi).
    + exact (Hdepth _ Hin).
Qed.

Lemma framebuffer_serials_fit_array_witness :
  (List.length (getBoundFramebufferTextureSerials 8 twiceAttachedData) <= 8 + 1)%nat
  /\ getBoundFramebufferTextureSerials 8 plainData = [].
Proof.
  split.
  - exact (proj1 (framebuffer_serials_fit_array 8 twiceAttachedData)).
  - apply (proj2 (framebuffer_serials_fit_array 8 plainData)).
    + intros [|[|i]] texture; discriminate.
    + intros texture. discriminate.
Defined.

(** ** The uniform buffers *)

Lemma collectUniformBuffers_bound (data : Data) (programObject : Program)
    (n i : nat) (bound : list Buffer) :
  (forall j, (i <= j < i + n)%nat ->
     bufferId (getIndexedUniformBuffer (state data)
                 (getUniformBlockBinding programObject j)) <> 0) ->
  collectUniformBuffers data programObject n i bound
  = inr (bound ++ map (fun j => getIndexedUniformBuffer (state data)
                                  (getUniformBlockBinding programObject j))
                    (seq i n)).
Proof.
  revert i bound. induction n as [|n IH]; intros i bound Hb; simpl.
  - rewrite app_nil_r. reflexivity.
  - destruct (Z.eqb_spec
                (bufferId (getIndexedUniformBuffer (state data)
                             (getUniformBlockBinding programObject i))) 0) as [Hz|_].
    + exfalso. apply (Hb i); [lia | exact Hz].
    + rewrite IH by (intros j Hj; apply Hb; lia).
      rewrite <- app_assoc. reflexivity.
Qed.

(** X3: when every active uniform block has a buffer bound at its binding
    point, [applyUniformBuffers] makes exactly one call, to the program
    binary, with the buffers of the blocks in the order of the block
    indices (none for a program without blocks), and returns what that call
    returns; the renderer's incomplete textures are untouched. *)
Theorem bound_uniform_buffers_are_applied_in_block_order {Device : Type}
    (B : Backend Device) (data : Data) (r : Renderer Device) :
  ~ usedBlockUnbound data ->
  calls (applyUniformBuffers B data r)
  = [EvApplyUniformBuffers (blockBuffers data) (returned (applyUniformBuffers B data r))]
  /\ Forall (fun buffer => bufferId buffer <> 0) (blockBuffers data)
  /\ List.length (blockBuffers data)
     = getActiveUniformBlockCount
         (getProgramBinary (getProgram (resourceManager data)
                              (getCurrentProgramId (state data))))
  /\ mIncompleteTextures (after (applyUniformBuffers B data r)) = mIncompleteTextures r.
Proof.
  intros Hbound.
  assert (Hall : forall j,
             (0 <= j < 0 + getActiveUniformBlockCount
                           (getProgramBinary (getProgram (resourceManager data)
                                                (getCurrentProgramId (state data)))))%nat ->
             bufferId (getIndexedUniformBuffer (state data)
                         (getUniformBlockBinding
                            (getProgram (resourceManager data)
                               (getCurrentProgramId (state data))) j)) <> 0).
  { intros j Hj Hz. apply Hbound. exists j. split; [lia | exact Hz]. }
  split; [|split; [|split]].
  - unfold applyUniformBuffers.
    rewrite (collectUniformBuffers_bound _ _ _ _ _ Hall).
    unfold applyUniformBuffersImpl. rewrite calls_call. reflexivity.
  - unfold blockBuffers. apply List.Forall_forall. intros buffer Hin.
    apply in_map_iff in Hin. destruct Hin as (j & <- & Hj). apply in_seq in Hj.
    apply Hall. lia.
  - unfold blockBuffers. rewrite length_map, length_seq. reflexivity.
  - unfold applyUniformBuffers.
    rewrite (collectUniformBuffers_bound _ _ _ _ _ Hall).
    unfold applyUniformBuffersImpl, call.
    destruct (impl_applyUniformBuffers Device B _ (device r)) as [e d]. reflexivity.
Qed.

Lemma bound_uniform_buffers_are_applied_in_block_order_witness :
  ~ usedBlockUnbound boundData
  /\ calls (applyUniformBuffers (testBackend true NoError) boundData (newRenderer tt))
     = [EvApplyUniformBuffers [{| bufferId := 5 |}; {| bufferId := 5 |}] NoError].
Proof.
  assert (Hbound : ~ usedBlockUnbound boundData).
  { intros (j & _ & Hz). simpl in Hz. discriminate. }
  split; [exact Hbound|].
  exact (proj1 (bound_uniform_buffers_are_applied_in_block_order
                  (testBackend true NoError) boundData (newRenderer tt) Hbound)).
Defined.

(** ** The incomplete textures *)

Lemma getIncompleteTexture_created {Device : Type} (B : Backend Device)
    (type : GLenum) (r : Renderer Device) :
  mIncompleteTextures r !! type = None ->
  exists (impl : Z) (d : Device),
    getIncompleteTexture B type r =
    (RendererTexture {| objectAddress := nextObject r;
                        objectType := placeholderTarget type;
                        objectImpl := impl |},
     {| device := d;
        mIncompleteTextures :=
          <[type := {| objectAddress := nextObject r;
                       objectType := placeholderTarget type;
                       objectImpl := impl |}]> (mIncompleteTextures r);
        nextObject := S (nextObject r) |},
     EvCreateTexture (placeholderTarget type) impl
       :: map (fun target => EvSetImage (nextObject r) target 0 1 1 1)
            (imageTargets (placeholderTarget type))).
Proof.
  intros H.
  unfold getIncompleteTexture, incompleteTextureMissing, incompleteTextureAt,
    setIncompleteTexture, newTexture, createTexture, setImage, allocate, call, callVoid,
    bind, ret, placeholderTarget.
  rewrite H.
  destruct (type =? GL_TEXTURE_CUBE_MAP);
    [|destruct (type =? GL_TEXTURE_3D); [|destruct (type =? GL_TEXTURE_2D_ARRAY)]];
    match goal with
    | |- context [impl_createTexture Device B ?t (device r)] =>
        destruct (impl_createTexture Device B t (device r)) as [impl d]
    end;
    cbn [device mIncompleteTextures nextObject objectAddress app];
    rewrite lookup_insert_eq;
    (eexists _, _; reflexivity).
Qed.

(** X4: a lookup that finds no incomplete texture kept for a type creates
    one texture, of the class of the type (a 2D texture for a type that is
    none of the four texture kinds, as the [default] label falls through to
    [GL_TEXTURE_2D]), gives it one image of 1x1 at level 0 (one per face,
    in the order of the faces, for a cube map), and keeps it under the type
    it was asked for, whatever the class created. *)
Theorem incomplete_texture_creation {Device : Type} (B : Backend Device)
    (type : GLenum) (r : Renderer Device) :
  mIncompleteTextures r !! type = None ->
  exists impl,
    let created := {| objectAddress := nextObject r;
                      objectType := placeholderTarget type;
                      objectImpl := impl |} in
    returned (getIncompleteTexture B type r) = RendererTexture created
    /\ calls (getIncompleteTexture B type r)
       = EvCreateTexture (placeholderTarget type) impl
           :: map (fun target => EvSetImage (nextObject r) target 0 1 1 1)
                (imageTargets (placeholderTarget type))
    /\ mIncompleteTextures (after (getIncompleteTexture B type r))
       = <[type := created]> (mIncompleteTextures r)
    /\ nextObject (after (getIncompleteTexture B type r)) = S (nextObject r)
    /\ (isTextureKind type = true -> placeholderTarget type = type)
    /\ (isTextureKind type = false -> placeholderTarget type = GL_TEXTURE_2D)
    /\ List.length (imageTargets (placeholderTarget type))
       = if type =? GL_TEXTURE_CUBE_MAP then 6%nat else 1%nat.
Proof.
  intros H. destruct (getIncompleteTexture_created B type r H) as (impl & d & Hrun).
  exists impl. rewrite Hrun. cbn zeta.
  split; [reflexivity|]. split; [reflexivity|]. split; [reflexivity|].
  split; [reflexivity|]. split; [|split].
  - unfold isTextureKind, placeholderTarget.
    destruct (Z.eqb_spec type GL_TEXTURE_CUBE_MAP) as [->|]; [reflexivity|].
    destruct (Z.eqb_spec type GL_TEXTURE_3D) as [->|]; [reflexivity|].
    destruct (Z.eqb_spec type GL_TEXTURE_2D_ARRAY) as [->|]; [reflexivity|].
    destruct (Z.eqb_spec type GL_TEXTURE_2D) as [->|]; [reflexivity|]. discriminate.
  - unfold isTextureKind, placeholderTarget.
    destruct (type =? GL_TEXTURE_CUBE_MAP); [rewrite orb_true_r; discriminate|].
    destruct (type =? GL_TEXTURE_3D); [rewrite !orb_true_r; discriminate|].
    destruct (type =? GL_TEXTURE_2D_ARRAY); [rewrite !orb_true_r; discriminate|].
    reflexivity.
  - unfold placeholderTarget.
    destruct (type =? GL_TEXTURE_CUBE_MAP); [reflexivity|].
    destruct (type =? GL_TEXTURE_3D); [reflexivity|].
    destruct (type =? GL_TEXTURE_2D_ARRAY); reflexivity.
Qed.

Lemma incomplete_texture_creation_witness :
  mIncompleteTextures (newRenderer tt) !! GL_TEXTURE_CUBE_MAP = None
  /\ exists impl,
       calls (getIncompleteTexture (testBackend true NoError) GL_TEXTURE_CUBE_MAP
                (newRenderer tt))
       = EvCreateTexture GL_TEXTURE_CUBE_MAP impl
           :: map (fun target => EvSetImage 0 target 0 1 1 1)
                [GL_TEXTURE_CUBE_MAP_POSITIVE_X; GL_TEXTURE_CUBE_MAP_NEGATIVE_X;
                 GL_TEXTURE_CUBE_MAP_POSITIVE_Y; GL_TEXTURE_CUBE_MAP_NEGATIVE_Y;
                 GL_TEXTURE_CUBE_MAP_POSITIVE_Z; GL_TEXTURE_CUBE_MAP_NEGATIVE_Z].
Proof.
  split; [reflexivity|].
  destruct (incomplete_texture_creation (testBackend true NoError) GL_TEXTURE_CUBE_MAP
              (newRenderer tt) eq_refl) as (impl & _ & Hcalls & _).
  exists impl. exact Hcalls.
Defined.

(** ** The sample-coverage mask *)

Lemma mul_nan (x : Float32.float) : Float32.mul x S754_nan = S754_nan.
Proof. destruct x; reflexivity. Qed.

Lemma coverageLoop_nan (n : nat) (i : Z) (t : Float32.float) :
  coverageLoop n i S754_nan t 0 = 0.
Proof.
  revert i. induction n as [|n IH]; intros i; simpl; [reflexivity|].
  rewrite mul_nan. apply IH.
Qed.

Lemma crossings_le (n : nat) (i : Z) (c t : Float32.float) :
  (crossings n i c t <= n)%nat.
Proof.
  revert i t. induction n as [|n IH]; intros i t; simpl; [lia|].
  destruct (Float32.ge _ _); [specialize (IH (i + 1) (Float32.add t Float32.one))
                             | specialize (IH (i + 1) t)]; lia.
Qed.

Lemma up_to_32 (P : Z -> bool) :
  forallb (fun n => P (Z.of_nat n)) (seq 0 33) = true ->
  forall samples, 0 <= samples <= 32 -> P samples = true.
Proof.
  intros Hall samples Hs. rewrite forallb_forall in Hall.
  rewrite <- (Z2Nat.id samples) by lia. apply Hall. apply in_seq. lia.
Qed.

(** X5: the ends of the coverage ladder. With sample-coverage testing
    enabled and no inversion, a coverage value of zero (of either sign), a
    coverage value that is not a number, or a sample count that is not
    positive give the empty mask; for up to 32 samples a coverage value of
    1.0 sets exactly the [samples] low bits, and a coverage value of 0.5
    sets half of the samples, rounded up, as many bits. *)
Theorem coverage_mask_boundaries :
  (forall samples s, sampleMask true (S754_zero s) false samples = 0)
  /\ (forall samples, sampleMask true S754_nan false samples = 0)
  /\ (forall samples c, samples <= 0 -> sampleMask true c false samples = 0)
  /\ (forall samples, 0 <= samples <= 32 ->
        sampleMask true Float32.one false samples = 2 ^ samples - 1)
  /\ (forall samples, 0 <= samples <= 32 ->
        popcount32 (sampleMask true Float32.half false samples)
        = Z.to_nat ((samples + 1) / 2)).
Proof.
  split; [|split; [|split; [|split]]].
  - intros samples s. unfold sampleMask.
    rewrite coverageMaskBeforeInvert_loop. apply coverageLoop_zero.
  - intros samples. unfold sampleMask.
    rewrite coverageMaskBeforeInvert_loop. apply coverageLoop_nan.
  - intros samples c Hs. unfold sampleMask. rewrite coverageMaskBeforeInvert_loop.
    replace (Z.to_nat samples) with 0%nat by lia. reflexivity.
  - intros samples Hs. apply Z.eqb_eq.
    apply (up_to_32 (fun s => sampleMask true Float32.one false s =? 2 ^ s - 1));
      [vm_compute; reflexivity | exact Hs].
  - intros samples Hs. apply Nat.eqb_eq.
    apply (up_to_32 (fun s => (popcount32 (sampleMask true Float32.half false s)
                               =? Z.to_nat ((s + 1) / 2))%nat));
      [vm_compute; reflexivity | exact Hs].
Qed.

Lemma coverage_mask_boundaries_witness :
  -1 <= 0 /\ 0 <= 8 <= 32
  /\ sampleMask true Float32.half false (-1) = 0
  /\ sampleMask true Float32.one false 8 = 255
  /\ popcount32 (sampleMask true Float32.half false 8) = 4%nat.
Proof.
  split; [lia|]. split; [lia|]. split; [|split].
  - apply (proj1 (proj2 (proj2 coverage_mask_boundaries))). lia.
  - apply (proj1 (proj2 (proj2 (proj2 coverage_mask_boundaries))) 8). lia.
  - apply (proj2 (proj2 (proj2 (proj2 coverage_mask_boundaries))) 8). lia.
Defined.

(** X6: for up to 32 samples the mask before inversion fits the sample
    count: no bit at position [samples] or above is set, and at most
    [samples] bits are. *)
Theorem coverage_mask_fits_samples (samples : Z) (c : Float32.float) :
  samples <= 32 ->
  0 <= sampleMask true c false samples < 2 ^ Z.max samples 0
  /\ (forall p, Z.max samples 0 <= p ->
        Z.testbit (sampleMask true c false samples) p = false)
  /\ (popcount32 (sampleMask true c false samples) <= Z.to_nat samples)%nat.
Proof.
  intros Hs.
  change (sampleMask true c false samples) with (coverageMaskBeforeInvert samples c).
  pose proof (coverageMaskBeforeInvert_bound samples c Hs) as Hb.
  split; [exact Hb|]. split.
  - intros p Hp. apply (testbit_above _ (Z.max samples 0)); [exact Hb | lia].
  - rewrite popcount_coverageMask by exact Hs. apply crossings_le.
Qed.

Lemma coverage_mask_fits_samples_witness :
  4 <= 32 /\ 0 <= sampleMask true Float32.half false 4 < 2 ^ Z.max 4 0.
Proof.
  assert (H : 4 <= 32) by lia.
  split; [exact H|].
  exact (proj1 (coverage_mask_fits_samples 4 Float32.half H)).
Defined.

(** ** The sampler slots *)

Section SlotFacts.

Context {Device : Type}.
Variable B : Backend Device.

Lemma TraceSpec_last_call {X : Type} (proj : Event -> option X) (e : list X)
    (f : Device -> Error * Device) (ev : Error -> Event) :
  (forall a, omap proj [ev a] = e) ->
  TraceSpec proj e (try! call f ev in ret NoError).
Proof.
  intros Hp. apply (TraceSpec_expected proj (e ++ [])); [apply app_nil_r|].
  apply TraceSpec_orReturn; [apply TraceSpec_call, Hp | apply TraceSpec_ret; reflexivity].
Qed.

Lemma generateSwizzlesFor_trace (data : Data) (type : SamplerType) :
  TraceSpec swizzledTexture (stageSwizzles data type) (generateSwizzlesFor B data type).
Proof.
  unfold generateSwizzlesFor, stageSwizzles. cbv zeta.
  apply (TraceSpec_expected swizzledTexture
           (flat_map (slotSwizzles data type)
              (seq 0 (getUsedSamplerRange (getCurrentProgramBinary (state data)) type))
            ++ [])); [apply app_nil_r|].
  apply TraceSpec_orReturn; [|apply TraceSpec_ret; reflexivity].
  apply TraceSpec_forLoop. intros j _.
  unfold slotSwizzles, slotTexture. cbv zeta.
  destruct (getSamplerMapping (getCurrentProgramBinary (state data)) type j =? -1);
    simpl; [apply TraceSpec_ret; reflexivity|].
  destruct (swizzleRequired _); [|apply TraceSpec_ret; reflexivity].
  unfold generateSwizzle. apply TraceSpec_last_call. reflexivity.
Qed.

Lemma generateSwizzles_trace (data : Data) :
  TraceSpec swizzledTexture
    (stageSwizzles data SAMPLER_VERTEX ++ stageSwizzles data SAMPLER_PIXEL)
    (generateSwizzles B data).
Proof.
  unfold generateSwizzles.
  apply TraceSpec_orReturn; [apply generateSwizzlesFor_trace|].
  apply (TraceSpec_expected swizzledTexture (stageSwizzles data SAMPLER_PIXEL ++ []));
    [apply app_nil_r|].
  apply TraceSpec_orReturn; [apply generateSwizzlesFor_trace|].
  apply TraceSpec_ret. reflexivity.
Qed.

Lemma generateSwizzles_only (data : Data) :
  AllSpec (fun ev => exists texture result, ev = EvGenerateSwizzle texture result)
    (generateSwizzles B data).
Proof.
  unfold generateSwizzles, generateSwizzlesFor. cbv zeta.
  repeat first
    [ apply AllSpec_orReturn
    | apply AllSpec_ret
    | apply AllSpec_forLoop; intros j _
    | match goal with |- AllSpec _ (if ?c then _ else _) => destruct c end ].
  all: unfold generateSwizzle; apply AllSpec_call; intros result; eauto.
Qed.

(** *** The textures *)

Lemma getIncompleteTexture_hidden (type : GLenum) :
  ExactSpec slotCall [] (getIncompleteTexture B type).
Proof.
  apply ExactSpec_hidden. intros r.
  destruct (mIncompleteTextures r !! type) as [o|] eqn:H.
  - rewrite (getIncompleteTexture_hit B type o r H). constructor.
  - destruct (getIncompleteTexture_miss B type r H) as (impl & d & images & -> & Himg).
    unfold calls. simpl. constructor; [reflexivity|].
    eapply Forall_impl; [exact Himg|]. intros ev. destruct ev; try discriminate. reflexivity.
Qed.

Lemma incomplete_slot_trace (shaderType : SamplerType) (samplerIndex : nat)
    (type : GLenum) :
  TraceSpec slotCall [IncompleteBound shaderType samplerIndex]
    (let! incompleteTexture := getIncompleteTexture B type in
     try! setTexture B shaderType samplerIndex incompleteTexture in
     ret NoError).
Proof.
  intros r. rewrite calls_bind, returned_bind, omap_app.
  rewrite (getIncompleteTexture_hidden type r).
  destruct (getIncompleteTexture_returns B type r) as (o & -> & _).
  apply (TraceSpec_last_call slotCall). reflexivity.
Qed.

Lemma applyTexturesFor_trace (data : Data) (shaderType : SamplerType)
    (serials attached : list Z) :
  (forall serial, binary_search serials serial = isAttached attached serial) ->
  TraceSpec slotCall (stageCalls data attached shaderType)
    (applyTexturesFor B data shaderType serials).
Proof.
  intros Hsearch. unfold applyTexturesFor, stageCalls. cbv zeta.
  apply TraceSpec_orReturn.
  - apply TraceSpec_forLoop. intros j _.
    unfold slotCalls, slotSampler, slotTexture. cbv zeta.
    destruct (getSamplerMapping (getCurrentProgramBinary (state data)) shaderType j =? -1);
      simpl.
    + unfold setTexture. apply TraceSpec_last_call. reflexivity.
    + rewrite Hsearch.
      destruct (isSamplerComplete _ _ && negb (isAttached attached _)).
      * unfold setSamplerState, setTexture.
        apply (TraceSpec_orReturn slotCall [_] [_]);
          [apply TraceSpec_call; reflexivity|].
        apply TraceSpec_last_call. reflexivity.
      * apply incomplete_slot_trace.
  - apply (TraceSpec_expected slotCall
             (flat_map (fun samplerIndex => [NullBound shaderType samplerIndex])
                (seq (getUsedSamplerRange (getCurrentProgramBinary (state data)) shaderType)
                   (samplerCount data shaderType
                    - getUsedSamplerRange (getCurrentProgramBinary (state data))
                        shaderType))
              ++ [])).
    + rewrite app_nil_r. generalize (seq (getUsedSamplerRange
                                            (getCurrentProgramBinary (state data)) shaderType)
                                       (samplerCount data shaderType
                                        - getUsedSamplerRange
                                            (getCurrentProgramBinary (state data))
                                            shaderType)).
      intros l. induction l as [|x l IH]; simpl; [reflexivity | rewrite IH; reflexivity].
    + apply TraceSpec_orReturn; [|apply TraceSpec_ret; reflexivity].
      unfold samplerCount. destruct shaderType;
        (apply TraceSpec_forLoop; intros j _; unfold setTexture;
         apply TraceSpec_last_call; reflexivity).
Qed.

Lemma applyTextures_trace (maxDrawBuffers : nat) (data : Data) :
  TraceSpec slotCall
    (stageCalls data
       (attachedTextureSerials maxDrawBuffers (getDrawFramebuffer (state data)))
       SAMPLER_VERTEX
     ++ stageCalls data
          (attachedTextureSerials maxDrawBuffers (getDrawFramebuffer (state data)))
          SAMPLER_PIXEL)
    (applyTextures B maxDrawBuffers data).
Proof.
  unfold applyTextures. cbv zeta.
  apply TraceSpec_orReturn;
    [apply applyTexturesFor_trace; intros serial; apply binary_search_attached|].
  apply (TraceSpec_expected slotCall
           (stageCalls data
              (attachedTextureSerials maxDrawBuffers (getDrawFramebuffer (state data)))
              SAMPLER_PIXEL ++ [])); [apply app_nil_r|].
  apply TraceSpec_orReturn;
    [apply applyTexturesFor_trace; intros serial; apply binary_search_attached|].
  apply TraceSpec_ret. reflexivity.
Qed.

End SlotFacts.

(** X7: [generateSwizzles] calls nothing but [generateSwizzle], and calls
    it for the textures of the used and mapped sampler slots whose own
    sampler state requires a swizzle, the vertex slots before the pixel
    slots, each stage by slot index: the calls made are the first of
    these, up to the one that fails, and all of them when the step
    returns without error. *)
Theorem swizzles_are_generated_slot_by_slot {Device : Type} (B : Backend Device)
    (data : Data) (r : Renderer Device) :
  Forall (fun ev => exists texture result, ev = EvGenerateSwizzle texture result)
    (calls (generateSwizzles B data r))
  /\ omap swizzledTexture (calls (generateSwizzles B data r))
     `prefix_of` stageSwizzles data SAMPLER_VERTEX ++ stageSwizzles data SAMPLER_PIXEL
  /\ (isError (returned (generateSwizzles B data r)) = false ->
      omap swizzledTexture (calls (generateSwizzles B data r))
      = stageSwizzles data SAMPLER_VERTEX ++ stageSwizzles data SAMPLER_PIXEL).
Proof.
  split; [apply generateSwizzles_only|]. apply generateSwizzles_trace.
Qed.

Lemma swizzles_are_generated_slot_by_slot_witness :
  isError (returned (generateSwizzles (testBackend true NoError) swizzleData
                       (newRenderer tt))) = false
  /\ omap swizzledTexture
       (calls (generateSwizzles (testBackend true NoError) swizzleData (newRenderer tt)))
     = [swizzleTexture].
Proof.
  assert (H : isError (returned (generateSwizzles (testBackend true NoError) swizzleData
                                   (newRenderer tt))) = false) by reflexivity.
  split; [exact H|].
  exact (proj2 (proj2 (swizzles_are_generated_slot_by_slot (testBackend true NoError)
                         swizzleData (newRenderer tt))) H).
Defined.

(** X8: what [applyTextures] does to the sampler slots. Seen as calls on
    slots, its calls are a prefix of the expected ones, and all of them
    when it returns without error: the vertex stage before the pixel stage;
    in each stage the used slots by index, then every remaining slot up to
    the stage's number of texture units, bound to no texture. A used slot
    with no unit mapped is bound to no texture; one whose texture is
    sampler-complete, under the sampler object of its unit when there is
    one, and is not attached to the draw framebuffer gets its sampler state
    set and then the texture bound; any other gets an incomplete texture
    and no sampler state. *)
Theorem textures_are_bound_slot_by_slot {Device : Type} (B : Backend Device)
    (maxDrawBuffers : nat) (data : Data) (r : Renderer Device) :
  let attached :=
    attachedTextureSerials maxDrawBuffers (getDrawFramebuffer (state data)) in
  omap slotCall (calls (applyTextures B maxDrawBuffers data r))
  `prefix_of` stageCalls data attached SAMPLER_VERTEX
              ++ stageCalls data attached SAMPLER_PIXEL
  /\ (isError (returned (applyTextures B maxDrawBuffers data r)) = false ->
      omap slotCall (calls (applyTextures B maxDrawBuffers data r))
      = stageCalls data attached SAMPLER_VERTEX ++ stageCalls data attached SAMPLER_PIXEL).
Proof. apply applyTextures_trace. Qed.

Lemma textures_are_bound_slot_by_slot_witness :
  isError (returned (applyTextures (testBackend true NoError) 8 plainData
                       (newRenderer tt))) = false
  /\ omap slotCall
       (calls (applyTextures (testBackend true NoError) 8 plainData (newRenderer tt)))
     = [NullBound SAMPLER_VERTEX 0;
        SamplerStateSet SAMPLER_PIXEL 0 (testTexture 7) testSampler;
        TextureBound SAMPLER_PIXEL 0 (testTexture 7);
        NullBound SAMPLER_PIXEL 1].
Proof.
  assert (H : isError (returned (applyTextures (testBackend true NoError) 8 plainData
                                   (newRenderer tt))) = false) by reflexivity.
  split; [exact H|].
  exact (proj2 (textures_are_bound_slot_by_slot (testBackend true NoError) 8 plainData
                  (newRenderer tt)) H).
Defined.

(** ** The calls each step makes *)

Ltac all_spec :=
  repeat match goal with
    | |- AllSpec _ (orReturn _ _) => apply AllSpec_orReturn
    | |- AllSpec _ (forLoop _ _ _) => apply AllSpec_forLoop; intros
    | |- AllSpec _ (ret _) => apply AllSpec_ret
    | |- AllSpec _ (call _ _) => apply AllSpec_call; intros
    | |- AllSpec _ (callVoid _ _) => apply AllSpec_callVoid
    | |- AllSpec _ (bind _ _) => apply AllSpec_bind; [|intros]
    | |- AllSpec _ (if ?c then _ else _) => destruct c
    | |- AllSpec _ (match ?x with _ => _ end) => destruct x
    end.

Section Footprints.

Context {Device : Type}.
Variable B : Backend Device.
Variable P : Event -> Prop.

Lemma generateSwizzles_calls (data : Data) :
  (forall texture result, P (EvGenerateSwizzle texture result)) ->
  AllSpec P (generateSwizzles B data).
Proof.
  intros H. eapply AllSpec_weaken; [|apply generateSwizzles_only].
  intros ev (texture & result & ->). apply H.
Qed.

Lemma applyRenderTarget_calls (data : Data) (mode : GLenum) (ignoreViewport : bool) :
  (forall framebuffer result, P (EvApplyRenderTarget framebuffer result)) ->
  (forall viewport zNear zFar drawMode frontFace ignore,
      P (EvSetViewport viewport zNear zFar drawMode frontFace ignore)) ->
  (forall scissor enabled, P (EvSetScissorRectangle scissor enabled)) ->
  AllSpec P (applyRenderTarget B data mode ignoreViewport).
Proof.
  intros H1 H2 H3.
  unfold applyRenderTarget, applyRenderTargetImpl, setViewport, setScissorRectangle.
  all_spec; auto.
Qed.

Lemma applyState_calls (data : Data) (mode : GLenum) :
  (forall rasterizer result, P (EvSetRasterizerState rasterizer result)) ->
  (forall framebuffer blendState blendColor mask result,
      P (EvSetBlendState framebuffer blendState blendColor mask result)) ->
  (forall depthStencilState stencilRef stencilBackRef ccw result,
      P (EvSetDepthStencilState depthStencilState stencilRef stencilBackRef ccw result)) ->
  AllSpec P (applyState B data mode).
Proof.
  intros H1 H2 H3.
  unfold applyState, setRasterizerState, setBlendState, setDepthStencilState.
  all_spec; auto.
Qed.

Lemma applyTransformFeedbackBuffers_calls (data : Data) :
  P EvApplyTransformFeedbackBuffers ->
  AllSpec P (applyTransformFeedbackBuffers B data).
Proof.
  intros H. unfold applyTransformFeedbackBuffers, applyTransformFeedbackBuffersImpl.
  all_spec; auto.
Qed.

Lemma applyShaders_calls (data : Data) (active : bool) :
  (forall programBinary framebuffer discard feedback result,
      P (EvApplyShaders programBinary framebuffer discard feedback result)) ->
  (forall result, P (EvApplyUniforms result)) ->
  AllSpec P (applyShaders B data active).
Proof.
  intros H1 H2. unfold applyShaders, applyShadersImpl, applyUniforms.
  all_spec; auto.
Qed.

Lemma getIncompleteTexture_calls (type : GLenum) :
  (forall target impl, P (EvCreateTexture target impl)) ->
  (forall object target level width height depth,
      P (EvSetImage object target level width height depth)) ->
  AllSpec P (getIncompleteTexture B type).
Proof.
  intros H1 H2 r.
  destruct (mIncompleteTextures r !! type) as [o|] eqn:H.
  - rewrite (getIncompleteTexture_hit B type o r H). constructor.
  - destruct (getIncompleteTexture_miss B type r H) as (impl & d & images & -> & Himg).
    unfold calls. simpl. constructor; [apply H1|].
    eapply Forall_impl; [exact Himg|]. intros ev. destruct ev; try discriminate.
    intros _. apply H2.
Qed.

Lemma applyTextures_calls (maxDrawBuffers : nat) (data : Data) :
  (forall type index texture sampler result,
      P (EvSetSamplerState type index texture sampler result)) ->
  (forall type index texture result, P (EvSetTexture type index texture result)) ->
  (forall target impl, P (EvCreateTexture target impl)) ->
  (forall object target level width height depth,
      P (EvSetImage object target level width height depth)) ->
  AllSpec P (applyTextures B maxDrawBuffers data).
Proof.
  intros H1 H2 H3 H4.
  unfold applyTextures, applyTexturesFor, setSamplerState, setTexture.
  all_spec; auto; apply getIncompleteTexture_calls; assumption.
Qed.

Lemma applyUniformBuffers_calls (data : Data) :
  (forall boundBuffers result, P (EvApplyUniformBuffers boundBuffers result)) ->
  AllSpec P (applyUniformBuffers B data).
Proof.
  intros H. unfold applyUniformBuffers, applyUniformBuffersImpl. all_spec; auto.
Qed.

Lemma skipDraw_calls (data : Data) (mode : GLenum) :
  (forall text, P (EvERR text)) ->
  AllSpec P (skipDraw (Device := Device) data mode).
Proof.
  intros H. unfold skipDraw. all_spec. intros r. repeat constructor. apply H.
Qed.

Lemma markTransformFeedbackUsage_calls (data : Data) :
  (forall buffer, P (EvMarkTransformFeedbackUsage buffer)) ->
  AllSpec P (markTransformFeedbackUsage B data).
Proof.
  intros H. unfold markTransformFeedbackUsage.
  generalize 0%nat. induction (maxTransformFeedbackSeparateAttributes (caps data))
    as [|n IH]; intros i; simpl.
  - apply AllSpec_ret.
  - apply AllSpec_bind; [|intros _; apply IH].
    destruct (getIndexedTransformFeedbackBuffer (state data) i);
      [apply AllSpec_callVoid; apply H | apply AllSpec_ret].
Qed.

End Footprints.

(** ** The order of the calls *)

Section Order.

Context {Device : Type}.
Variable B : Backend Device.

Lemma Ordered_lists (lo mid hi : nat) (l1 l2 : list Event) :
  (lo <= S mid)%nat -> (mid <= hi)%nat ->
  StronglySorted follows l1 ->
  Forall (fun ev => (lo <= pipelineStep ev <= mid)%nat) l1 ->
  StronglySorted follows l2 ->
  Forall (fun ev => (S mid <= pipelineStep ev <= hi)%nat) l2 ->
  StronglySorted follows (l1 ++ l2)
  /\ Forall (fun ev => (lo <= pipelineStep ev <= hi)%nat) (l1 ++ l2).
Proof.
  intros Hlo Hhi Hs1 Hr1 Hs2 Hr2. split.
  - apply StronglySorted_app_2; try assumption.
    intros x1 x2 Hx1 Hx2. left.
    rewrite List.Forall_forall in Hr1, Hr2.
    apply list_elem_of_In in Hx1, Hx2.
    specialize (Hr1 _ Hx1). specialize (Hr2 _ Hx2). lia.
  - apply Forall_app. split.
    + eapply Forall_impl; [exact Hr1|]. intros ev Hev. simpl in Hev. lia.
    + eapply Forall_impl; [exact Hr2|]. intros ev Hev. simpl in Hev. lia.
Qed.

Lemma Ordered_ret {A : Type} (lo hi : nat) (a : A) :
  Ordered lo hi (ret (Device := Device) a).
Proof. intros r. split; constructor. Qed.

Lemma Ordered_bind {A C : Type} (lo mid hi : nat)
    (m : M Device A) (k : A -> M Device C) :
  (lo <= S mid)%nat -> (mid <= hi)%nat ->
  Ordered lo mid m -> (forall a, Ordered (S mid) hi (k a)) ->
  Ordered lo hi (bind m k).
Proof.
  intros Hlo Hhi Hm Hk r. rewrite calls_bind.
  destruct (Hm r) as [Hs1 Hr1].
  destruct (Hk (returned (m r)) (after (m r))) as [Hs2 Hr2].
  apply (Ordered_lists lo mid hi); assumption.
Qed.

Lemma Ordered_orReturn (lo mid hi : nat) (m k : M Device Error) :
  (lo <= S mid)%nat -> (mid <= hi)%nat ->
  Ordered lo mid m -> Ordered (S mid) hi k ->
  Ordered lo hi (orReturn m k).
Proof.
  intros Hlo Hhi Hm Hk. unfold orReturn. apply (Ordered_bind lo mid hi); try assumption.
  intros e. destruct (isError e); [apply Ordered_ret | assumption].
Qed.

Lemma Ordered_call {A : Type} (lo hi : nat) (f : Device -> A * Device) (ev : A -> Event) :
  (forall a, (lo <= pipelineStep (ev a) <= hi)%nat) -> Ordered lo hi (call f ev).
Proof.
  intros Hp r. rewrite calls_call. split; repeat constructor; apply Hp.
Qed.

Lemma Ordered_callVoid (lo hi : nat) (f : Device -> Device) (ev : Event) :
  (lo <= pipelineStep ev <= hi)%nat -> Ordered lo hi (callVoid f ev).
Proof. intros Hp r. split; repeat constructor; apply Hp. Qed.

Lemma Ordered_repeated {A : Type} (step lo hi : nat) (m : M Device A) :
  repeatedStep step = true -> (lo <= step <= hi)%nat ->
  AllSpec (fun ev => pipelineStep ev = step) m -> Ordered lo hi m.
Proof.
  intros Hrep Hstep Hm r. specialize (Hm r). split.
  - induction Hm as [|ev evs Hev Hevs IH]; constructor; [exact IH|].
    eapply Forall_impl; [exact Hevs|]. intros ev' Hev'. simpl in Hev'.
    right. rewrite Hev, Hev'. auto.
  - eapply Forall_impl; [exact Hm|]. intros ev Hev. simpl in Hev. lia.
Qed.

Lemma applyRenderTarget_ordered (data : Data) (mode : GLenum) (ignoreViewport : bool) :
  Ordered 3 5 (applyRenderTarget B data mode ignoreViewport).
Proof.
  unfold applyRenderTarget, applyRenderTargetImpl, setViewport, setScissorRectangle.
  cbv zeta. apply (Ordered_orReturn 3 3 5); [lia | lia | |].
  - apply Ordered_call. intros a. simpl. lia.
  - destruct (getDepthRange (state data)) as [nearZ farZ].
    apply (Ordered_bind 4 4 5); [lia | lia | |].
    + apply Ordered_callVoid. simpl. lia.
    + intros _. apply (Ordered_bind 5 5 5); [lia | lia | |].
      * apply Ordered_callVoid. simpl. lia.
      * intros _. apply Ordered_ret.
Qed.

Lemma applyState_ordered (data : Data) (mode : GLenum) :
  Ordered 6 8 (applyState B data mode).
Proof.
  unfold applyState, setRasterizerState, setBlendState, setDepthStencilState.
  cbv zeta. apply (Ordered_orReturn 6 6 8); [lia | lia | |].
  - apply Ordered_call. intros a. simpl. lia.
  - destruct (getSampleCoverageParams (state data)) as [coverageValue coverageInvert].
    apply (Ordered_orReturn 7 7 8); [lia | lia | |].
    + apply Ordered_call. intros a. simpl. lia.
    + apply (Ordered_orReturn 8 8 8); [lia | lia | |].
      * apply Ordered_call. intros a. simpl. lia.
      * apply Ordered_ret.
Qed.

Lemma applyTransformFeedbackBuffers_ordered (data : Data) :
  Ordered 11 11 (applyTransformFeedbackBuffers B data).
Proof.
  unfold applyTransformFeedbackBuffers, applyTransformFeedbackBuffersImpl.
  destruct (getCurrentTransformFeedback (state data)) as [tf|]; [|apply Ordered_ret].
  destruct (isStarted tf && negb (isPaused tf)); [|apply Ordered_ret].
  apply (Ordered_bind 11 11 11); [lia | lia | |].
  - apply Ordered_callVoid. simpl. lia.
  - intros _. apply Ordered_ret.
Qed.

Lemma applyShaders_ordered (data : Data) (active : bool) :
  Ordered 12 13 (applyShaders B data active).
Proof.
  unfold applyShaders, applyShadersImpl, applyUniforms. cbv zeta.
  apply (Ordered_orReturn 12 12 13); [lia | lia | |].
  - apply Ordered_call. intros a. simpl. lia.
  - apply Ordered_call. intros a. simpl. lia.
Qed.

Lemma applyUniformBuffers_ordered (data : Data) :
  Ordered 15 15 (applyUniformBuffers B data).
Proof.
  unfold applyUniformBuffers, applyUniformBuffersImpl. cbv zeta.
  destruct (collectUniformBuffers _ _ _ _ _); [apply Ordered_ret|].
  apply Ordered_call. intros a. simpl. lia.
Qed.

Lemma skipDraw_ordered (data : Data) (mode : GLenum) :
  Ordered 16 16 (skipDraw (Device := Device) data mode).
Proof.
  intros r. split.
  - unfold skipDraw.
    destruct (mode =? GL_POINTS);
      [destruct (negb _) | destruct (IsTriangleMode mode); [destruct (_ && _)|]];
      repeat constructor.
  - eapply Forall_impl; [apply (skipDraw_calls (fun ev => pipelineStep ev = 16%nat))|].
    + intros text. reflexivity.
    + intros ev Hev. simpl in Hev. lia.
Qed.

(** The part of a draw that [drawArrays] and [drawElements] share, after
    the vertex buffer. *)
Lemma draw_end_ordered (maxDrawBuffers : nat) (data : Data) (mode : GLenum)
    (draw : bool -> M Device Error) :
  (forall active, Ordered 17 18 (draw active)) ->
  Ordered 11 18
    (let! transformFeedbackActive := applyTransformFeedbackBuffers B data in
     try! applyShaders B data transformFeedbackActive in
     try! applyTextures B maxDrawBuffers data in
     try! applyUniformBuffers B data in
     let! skip := skipDraw data mode in
     if negb skip then draw transformFeedbackActive else ret NoError).
Proof.
  intros Hdraw.
  apply (Ordered_bind 11 11 18); [lia | lia | apply applyTransformFeedbackBuffers_ordered|].
  intros active.
  apply (Ordered_orReturn 12 13 18); [lia | lia | apply applyShaders_ordered|].
  apply (Ordered_orReturn 14 14 18); [lia | lia | |].
  { apply (Ordered_repeated 14); [reflexivity | lia|].
    apply applyTextures_calls; reflexivity. }
  apply (Ordered_orReturn 15 15 18); [lia | lia | apply applyUniformBuffers_ordered|].
  apply (Ordered_bind 16 16 18); [lia | lia | apply skipDraw_ordered|].
  intros skip. destruct skip; simpl; [apply Ordered_ret | apply Hdraw].
Qed.

Lemma drawArrays_ordered (maxDrawBuffers : nat) (data : Data) (mode : GLenum)
    (first count instances : Z) :
  Ordered 0 18 (drawArrays B maxDrawBuffers data mode first count instances).
Proof.
  unfold drawArrays.
  apply (Ordered_bind 0 0 18); [lia | lia | |].
  { apply Ordered_callVoid. simpl. lia. }
  intros _. apply (Ordered_orReturn 1 1 18); [lia | lia | |].
  { apply (Ordered_repeated 1); [reflexivity | lia|].
    apply generateSwizzles_calls. reflexivity. }
  apply (Ordered_bind 2 2 18); [lia | lia | |].
  { apply Ordered_call. intros a. simpl. lia. }
  intros hasGeometry. destruct hasGeometry; simpl; [|apply Ordered_ret].
  apply (Ordered_orReturn 3 5 18); [lia | lia | apply applyRenderTarget_ordered|].
  apply (Ordered_orReturn 6 8 18); [lia | lia | apply applyState_ordered|].
  apply (Ordered_orReturn 9 10 18); [lia | lia | |].
  { apply Ordered_call. intros a. simpl. lia. }
  apply (draw_end_ordered maxDrawBuffers data mode
           (fun active =>
              try! drawArraysImpl B mode count instances active in
              do! (if active then markTransformFeedbackUsage B data else ret tt) in
              ret NoError)).
  intros active. apply (Ordered_orReturn 17 17 18); [lia | lia | |].
  { apply Ordered_call. intros a. simpl. lia. }
  apply (Ordered_bind 18 18 18); [lia | lia | |intros _; apply Ordered_ret].
  destruct active; [|apply Ordered_ret].
  apply (Ordered_repeated 18); [reflexivity | lia|].
  apply markTransformFeedbackUsage_calls. reflexivity.
Qed.

Lemma drawElements_ordered (maxDrawBuffers : nat) (data : Data) (mode : GLenum)
    (count type indices instances : Z) (indexRange0 : RangeUI) :
  Ordered 0 18
    (drawElements B maxDrawBuffers data mode count type indices instances indexRange0).
Proof.
  unfold drawElements.
  apply (Ordered_bind 0 0 18); [lia | lia | |].
  { apply Ordered_callVoid. simpl. lia. }
  intros _. apply (Ordered_orReturn 1 1 18); [lia | lia | |].
  { apply (Ordered_repeated 1); [reflexivity | lia|].
    apply generateSwizzles_calls. reflexivity. }
  apply (Ordered_bind 2 2 18); [lia | lia | |].
  { apply Ordered_call. intros a. simpl. lia. }
  intros hasGeometry. destruct hasGeometry; simpl; [|apply Ordered_ret].
  apply (Ordered_orReturn 3 5 18); [lia | lia | apply applyRenderTarget_ordered|].
  apply (Ordered_orReturn 6 8 18); [lia | lia | apply applyState_ordered|].
  cbv zeta.
  apply (Ordered_bind 9 9 18); [lia | lia | |].
  { unfold applyIndexBuffer. apply Ordered_call. intros a. simpl. lia. }
  intros [error indexInfo]. destruct (isError error); [apply Ordered_ret|].
  apply (Ordered_orReturn 10 10 18); [lia | lia | |].
  { apply Ordered_call. intros a. simpl. lia. }
  apply (draw_end_ordered maxDrawBuffers data mode
           (fun _ =>
              try! drawElementsImpl B mode count type indices
                     (getElementArrayBuffer (getVertexArray (state data)))
                     indexInfo instances in
              ret NoError)).
  intros _. apply (Ordered_orReturn 17 17 18); [lia | lia | |apply Ordered_ret].
  apply Ordered_call. intros a. simpl. lia.
Qed.

End Order.

(** X9: the calls of a draw are made in the order of the pipeline: the
    refresh of the sampler mapping, the swizzles, the primitive type, the
    render target, the viewport, the scissor rectangle, the rasterizer,
    blend and depth-stencil states, the index buffer, the vertex buffer,
    the transform-feedback buffers, the shaders, the uniforms, the
    textures, the uniform buffers, the diagnostic of a skipped draw, the
    draw, the marking of the transform-feedback buffers. Of two calls of a
    draw the later one belongs to a later step, or to the same step when it
    is the swizzles, the textures or the marking: every other step is made
    of at most one call. *)
Theorem draw_calls_follow_the_pipeline {Device : Type} (B : Backend Device)
    (maxDrawBuffers : nat) (data : Data) (mode : GLenum)
    (first count instances type indices : Z) (indexRange0 : RangeUI)
    (r : Renderer Device) :
  StronglySorted follows
    (calls (drawArrays B maxDrawBuffers data mode first count instances r))
  /\ StronglySorted follows
       (calls (drawElements B maxDrawBuffers data mode count type indices instances
                 indexRange0 r)).
Proof.
  split.
  - apply (drawArrays_ordered B maxDrawBuffers data mode first count instances r).
  - apply (drawElements_ordered B maxDrawBuffers data mode count type indices instances
             indexRange0 r).
Qed.

(** ** The end of a draw *)

Section DrawEnd.

Context {Device : Type}.
Variable B : Backend Device.


Lemma EndsWith_prefix (Q : list Event -> list Event -> Prop) (more evs : list Event) :
  Prepends Q -> Forall (fun ev => beforeDraw ev = true) more ->
  EndsWith Q evs -> EndsWith Q (more ++ evs).
Proof.
  intros HQ Hmore (pre & post & -> & Hpre & Hpost).
  exists (more ++ pre), post. split; [apply app_assoc|]. split.
  - apply Forall_app. auto.
  - destruct Hpost as [-> | Hpost]; [left; reflexivity | right; apply HQ; exact Hpost].
Qed.

Lemma EndSpec_ret {A : Type} (Q : list Event -> list Event -> Prop) (a : A) :
  EndSpec Q (ret (Device := Device) a).
Proof. intros r. exists [], []. split; [reflexivity|]. split; [constructor | auto]. Qed.

Lemma EndSpec_bind {A C : Type} (Q : list Event -> list Event -> Prop)
    (m : M Device A) (k : A -> M Device C) :
  Prepends Q -> AllSpec (fun ev => beforeDraw ev = true) m ->
  (forall a, EndSpec Q (k a)) -> EndSpec Q (bind m k).
Proof.
  intros HQ Hm Hk r. rewrite calls_bind.
  apply EndsWith_prefix; [exact HQ | apply Hm | apply Hk].
Qed.

Lemma EndSpec_bind_value {A C : Type} (Q : list Event -> list Event -> Prop)
    (m : M Device A) (k : A -> M Device C) (a : A) :
  Prepends Q -> (forall r, returned (m r) = a) ->
  AllSpec (fun ev => beforeDraw ev = true) m ->
  EndSpec Q (k a) -> EndSpec Q (bind m k).
Proof.
  intros HQ Ha Hm Hk r. rewrite calls_bind, Ha.
  apply EndsWith_prefix; [exact HQ | apply Hm | apply Hk].
Qed.

Lemma EndSpec_orReturn (Q : list Event -> list Event -> Prop) (m k : M Device Error) :
  Prepends Q -> AllSpec (fun ev => beforeDraw ev = true) m ->
  EndSpec Q k -> EndSpec Q (orReturn m k).
Proof.
  intros HQ Hm Hk. unfold orReturn. apply EndSpec_bind; try assumption.
  intros e. destruct (isError e); [apply EndSpec_ret | assumption].
Qed.

Lemma EndSpec_here {A : Type} (Q : list Event -> list Event -> Prop) (m : M Device A) :
  (forall r, Q [] (calls (m r))) -> EndSpec Q m.
Proof.
  intros H r. exists [], (calls (m r)). split; [reflexivity|].
  split; [constructor | right; apply H].
Qed.

Lemma EndSpec_weaken {A : Type} (Q Q' : list Event -> list Event -> Prop)
    (m : M Device A) :
  (forall pre post, Q pre post -> Q' pre post) -> EndSpec Q m -> EndSpec Q' m.
Proof.
  intros Hw Hm r. destruct (Hm r) as (pre & post & Heq & Hpre & Hpost).
  exists pre, post. split; [exact Heq|]. split; [exact Hpre|].
  destruct Hpost as [-> | Hpost]; auto.
Qed.

(** A call whose result the rest of the run depends on. *)
Lemma EndSpec_call_then {A C : Type} (Q : list Event -> list Event -> Prop)
    (f : Device -> A * Device) (ev : A -> Event) (k : A -> M Device C) :
  (forall a, beforeDraw (ev a) = true) ->
  (forall a, EndSpec (fun pre post => Q (ev a :: pre) post) (k a)) ->
  EndSpec Q (bind (call f ev) k).
Proof.
  intros Hev Hk r. rewrite calls_bind, calls_call.
  destruct (Hk (returned (call f ev r)) (after (call f ev r)))
    as (pre & post & -> & Hpre & Hpost).
  exists (ev (returned (call f ev r)) :: pre), post.
  split; [reflexivity|]. split; [constructor; auto|].
  destruct Hpost as [-> | Hpost]; auto.
Qed.

Lemma EndSpec_orReturn_call_then (Q : list Event -> list Event -> Prop)
    (f : Device -> Error * Device) (ev : Error -> Event) (k : M Device Error) :
  (forall e, beforeDraw (ev e) = true) ->
  (forall e, EndSpec (fun pre post => Q (ev e :: pre) post) k) ->
  EndSpec Q (orReturn (call f ev) k).
Proof.
  intros Hev Hk. unfold orReturn. apply EndSpec_call_then; [exact Hev|].
  intros e. destruct (isError e); [apply EndSpec_ret | apply Hk].
Qed.

Lemma applyTransformFeedbackBuffers_returned (data : Data) (r : Renderer Device) :
  returned (applyTransformFeedbackBuffers B data r) = feedbackActive data.
Proof.
  unfold applyTransformFeedbackBuffers, feedbackActive.
  destruct (getCurrentTransformFeedback (state data)) as [tf|]; [|reflexivity].
  destruct (isStarted tf && negb (isPaused tf)); reflexivity.
Qed.

Lemma markTransformFeedbackUsage_marks (data : Data) (r : Renderer Device) :
  calls (markTransformFeedbackUsage B data r)
  = map EvMarkTransformFeedbackUsage (boundFeedbackBuffers data).
Proof.
  unfold markTransformFeedbackUsage, boundFeedbackBuffers.
  generalize 0%nat. revert r.
  induction (maxTransformFeedbackSeparateAttributes (caps data)) as [|n IH];
    intros r i; [reflexivity|].
  cbn [markTransformFeedbackUsageFrom seq]. rewrite calls_bind, IH. cbn [omap list_omap].
  destruct (getIndexedTransformFeedbackBuffer (state data) i); reflexivity.
Qed.

(** The steps between the vertex buffer and the draw. *)
Lemma draw_end_spec (Q : list Event -> list Event -> Prop) (maxDrawBuffers : nat)
    (data : Data) (mode : GLenum) (draw : bool -> M Device Error) :
  Prepends Q ->
  EndSpec Q (draw (feedbackActive data)) ->
  EndSpec Q
    (let! transformFeedbackActive := applyTransformFeedbackBuffers B data in
     try! applyShaders B data transformFeedbackActive in
     try! applyTextures B maxDrawBuffers data in
     try! applyUniformBuffers B data in
     let! skip := skipDraw data mode in
     if negb skip then draw transformFeedbackActive else ret NoError).
Proof.
  intros HQ Hdraw.
  apply (EndSpec_bind_value Q _ _ (feedbackActive data)); [exact HQ | | |].
  { apply applyTransformFeedbackBuffers_returned. }
  { apply applyTransformFeedbackBuffers_calls. reflexivity. }
  apply EndSpec_orReturn; [exact HQ | apply applyShaders_calls; reflexivity|].
  apply EndSpec_orReturn; [exact HQ | apply applyTextures_calls; reflexivity|].
  apply EndSpec_orReturn; [exact HQ | apply applyUniformBuffers_calls; reflexivity|].
  apply EndSpec_bind; [exact HQ | apply skipDraw_calls; reflexivity|].
  intros skip. destruct skip; simpl; [apply EndSpec_ret | exact Hdraw].
Qed.

(** The steps up to the state. *)
Lemma draw_start_spec (Q : list Event -> list Event -> Prop)
    (data : Data) (mode : GLenum) (count : Z) (rest : M Device Error) :
  Prepends Q ->
  EndSpec Q rest ->
  EndSpec Q
    (do! updateSamplerMapping B in
     try! generateSwizzles B data in
     let! hasGeometry := applyPrimitiveType B mode count in
     if negb hasGeometry then ret NoError
     else
       try! applyRenderTarget B data mode false in
       try! applyState B data mode in
       rest).
Proof.
  intros HQ Hrest.
  apply EndSpec_bind; [exact HQ | apply AllSpec_callVoid; reflexivity|].
  intros _. apply EndSpec_orReturn; [exact HQ | apply generateSwizzles_calls; reflexivity|].
  apply EndSpec_bind; [exact HQ | apply AllSpec_call; reflexivity|].
  intros hasGeometry. destruct hasGeometry; simpl; [|apply EndSpec_ret].
  apply EndSpec_orReturn; [exact HQ | apply applyRenderTarget_calls; reflexivity|].
  apply EndSpec_orReturn; [exact HQ | apply applyState_calls; reflexivity|].
  exact Hrest.
Qed.


Lemma drawArrays_end (maxDrawBuffers : nat) (data : Data) (mode : GLenum)
    (first count instances : Z) :
  EndSpec (fun _ post => arraysEnd data mode count instances post)
    (drawArrays B maxDrawBuffers data mode first count instances).
Proof.
  assert (HQ : Prepends (fun _ post => arraysEnd data mode count instances post))
    by (intros more pre post H; exact H).
  unfold drawArrays. apply draw_start_spec; [exact HQ|].
  apply EndSpec_orReturn; [exact HQ | apply AllSpec_call; reflexivity|].
  apply (draw_end_spec _ maxDrawBuffers data mode
           (fun active =>
              try! drawArraysImpl B mode count instances active in
              do! (if active then markTransformFeedbackUsage B data else ret tt) in
              ret NoError)); [exact HQ|].
  apply EndSpec_here. intros r. unfold arraysEnd.
  set (draw := drawArraysImpl B mode count instances (feedbackActive data)).
  exists (returned (draw r)).
  destruct (isError (returned (draw r))) eqn:He.
  - rewrite orReturn_failed by exact He. unfold draw, drawArraysImpl.
    rewrite calls_call. reflexivity.
  - destruct (orReturn_passed draw
                (do! (if feedbackActive data then markTransformFeedbackUsage B data
                      else ret tt) in ret NoError) r He) as (_ & _ & ->).
    unfold draw at 1, drawArraysImpl. rewrite calls_call, calls_bind. simpl.
    rewrite app_nil_r. f_equal.
    destruct (feedbackActive data); simpl; [|reflexivity].
    apply markTransformFeedbackUsage_marks.
Qed.


Lemma drawElements_end (maxDrawBuffers : nat) (data : Data) (mode : GLenum)
    (count type indices instances : Z) (indexRange0 : RangeUI) :
  EndSpec (elementsEnd data mode count type indices instances)
    (drawElements B maxDrawBuffers data mode count type indices instances indexRange0).
Proof.
  assert (HQ : Prepends (elementsEnd data mode count type indices instances)).
  { intros more pre post (indexInfo & translated & applied & result & H1 & H2 & H3 & H4).
    exists indexInfo, translated, applied, result.
    split; [exact H1|]. split; [apply in_or_app; auto|].
    split; [apply in_or_app; auto | exact H4]. }
  unfold drawElements. apply draw_start_spec; [exact HQ|]. cbv zeta.
  unfold applyIndexBuffer. apply EndSpec_call_then; [reflexivity|].
  intros [translated indexInfo]. cbn [fst snd].
  destruct (isError translated) eqn:He; [apply EndSpec_ret|].
  unfold applyVertexBuffer. apply EndSpec_orReturn_call_then; [reflexivity|].
  intros applied.
  apply (EndSpec_weaken
           (fun _ post =>
              exists result,
                post = [EvDrawElements mode count type indices
                          (getElementArrayBuffer (getVertexArray (state data)))
                          indexInfo instances result])).
  { intros pre post (result & ->).
    exists indexInfo, translated, applied, result.
    split; [exact He|]. split; [left; reflexivity|].
    split; [right; left; reflexivity | reflexivity]. }
  apply (draw_end_spec _ maxDrawBuffers data mode
           (fun _ =>
              try! drawElementsImpl B mode count type indices
                     (getElementArrayBuffer (getVertexArray (state data)))
                     indexInfo instances in
              ret NoError)).
  { intros more pre post H. exact H. }
  apply EndSpec_here. intros r.
  set (draw := drawElementsImpl B mode count type indices
                 (getElementArrayBuffer (getVertexArray (state data)))
                 indexInfo instances).
  exists (returned (draw r)).
  destruct (isError (returned (draw r))) eqn:Hd.
  - rewrite orReturn_failed by exact Hd. unfold draw, drawElementsImpl.
    rewrite calls_call. reflexivity.
  - destruct (orReturn_passed draw (ret NoError) r Hd) as (_ & _ & ->).
    unfold draw, drawElementsImpl. rewrite calls_call. reflexivity.
Qed.

End DrawEnd.

Lemma beforeDraw_facts (evs : list Event) :
  Forall (fun ev => beforeDraw ev = true) evs ->
  Forall (fun ev => isDraw ev = false /\ isMark ev = false) evs.
Proof.
  intros H. eapply Forall_impl; [exact H|]. intros ev Hev. simpl in Hev.
  unfold beforeDraw in Hev. apply andb_true_iff in Hev.
  destruct Hev as [H1 H2]. apply negb_true_iff in H1, H2. auto.
Qed.

(** A run that returns without error, has geometry and is not skipped has
    issued a draw. *)
Lemma DrawRun_drawn (data : Data) (mode : GLenum) (count : Z)
    (e : Error) (evs : list Event) :
  DrawRun data mode count e evs -> isError e = false ->
  In (EvApplyPrimitiveType mode count true) evs ->
  skipDrawResult data mode = false ->
  exists ev, In ev evs /\ isDraw ev = true.
Proof.
  intros [pre Hpre | e' evs' Htail] He Hin Hskip.
  - exfalso. apply in_app_or in Hin. destruct Hin as [Hin | [Hin | []]].
    + rewrite List.Forall_forall in Hpre. specialize (Hpre _ Hin). discriminate.
    + discriminate.
  - destruct Htail as [e1 pre x Hpre Hres He1 Hdraw | pre Hpre Hu | pre Hpre Hb Hs
                      | e1 pre x Hpre Hdraw Hres He1 Hb Hs
                      | pre x marks Hpre Hdraw Hok Hm Hb Hs]; try congruence.
    + cbv in He. discriminate.
    + exists x. split; [apply in_or_app; right; left; reflexivity | exact Hdraw].
Qed.

(** When the calls before the end hold no draw, the end is empty exactly
    when the run holds no draw. *)
Lemma end_without_draw (pre post : list Event) (ev : Event) (rest : list Event) :
  Forall (fun ev => isDraw ev = false) (pre ++ post) ->
  post = ev :: rest -> isDraw ev = true -> False.
Proof.
  intros Hall -> Hdraw. apply Forall_app in Hall. destruct Hall as [_ Hall].
  inversion Hall; subst. congruence.
Qed.

Lemma end_with_draw (pre : list Event) :
  Forall (fun ev => isDraw ev = false /\ isMark ev = false) pre ->
  (exists ev, In ev pre /\ isDraw ev = true) -> False.
Proof.
  intros Hall (ev & Hin & Hdraw). rewrite List.Forall_forall in Hall.
  destruct (Hall _ Hin). congruence.
Qed.

(** X10: how [drawArrays] ends. Its calls are calls that are neither
    draws nor markings, followed by nothing or by one backend draw, which
    carries the mode, the count and the instances of the call and whether
    transform feedback is active (current, started and not paused); the
    draw is followed by the marking of the bound transform-feedback
    buffers, by index, exactly when it succeeded and transform feedback is
    active. There is no draw when [skipDraw] answers skip or a used
    uniform block is unbound, and there is one when the call returns
    without error, the primitive has geometry and the draw is not
    skipped. *)
Theorem drawArrays_ends_with_one_draw {Device : Type} (B : Backend Device)
    (maxDrawBuffers : nat) (data : Data) (mode : GLenum) (first count instances : Z)
    (r : Renderer Device) :
  exists pre post,
    calls (drawArrays B maxDrawBuffers data mode first count instances r) = pre ++ post
    /\ Forall (fun ev => isDraw ev = false /\ isMark ev = false) pre
    /\ (post = []
        \/ exists result,
             post = EvDrawArrays mode count instances (feedbackActive data) result
                    :: (if isError result || negb (feedbackActive data) then []
                        else map EvMarkTransformFeedbackUsage
                               (boundFeedbackBuffers data)))
    /\ (skipDrawResult data mode = true \/ usedBlockUnbound data -> post = [])
    /\ (isError (returned (drawArrays B maxDrawBuffers data mode first count instances r))
        = false ->
        In (EvApplyPrimitiveType mode count true)
           (calls (drawArrays B maxDrawBuffers data mode first count instances r)) ->
        skipDrawResult data mode = false ->
        post <> []).
Proof.
  pose proof (drawArrays_run B maxDrawBuffers data mode first count instances r) as Hrun.
  destruct (drawArrays_end B maxDrawBuffers data mode first count instances r)
    as (pre & post & Heq & Hpre & Hpost).
  apply beforeDraw_facts in Hpre.
  exists pre, post. split; [exact Heq|]. split; [exact Hpre|]. split; [exact Hpost|].
  split.
  - intros Hno. destruct Hpost as [-> | (result & Hpost)]; [reflexivity|].
    exfalso. eapply (end_without_draw pre post); [|exact Hpost|reflexivity].
    rewrite <- Heq. eapply DrawRun_draw; [exact Hrun|]. tauto.
  - intros He Hin Hskip ->. rewrite app_nil_r in Heq.
    apply (end_with_draw pre Hpre). rewrite <- Heq.
    eapply DrawRun_drawn; eauto.
Qed.

Lemma drawArrays_ends_with_one_draw_witness :
  isError (returned (drawArrays (testBackend true NoError) 8 plainData GL_TRIANGLES
                       0 3 1 (newRenderer tt))) = false
  /\ In (EvApplyPrimitiveType GL_TRIANGLES 3 true)
        (calls (drawArrays (testBackend true NoError) 8 plainData GL_TRIANGLES
                  0 3 1 (newRenderer tt)))
  /\ skipDrawResult plainData GL_TRIANGLES = false
  /\ exists pre post,
       calls (drawArrays (testBackend true NoError) 8 plainData GL_TRIANGLES
                0 3 1 (newRenderer tt)) = pre ++ post
       /\ post <> [].
Proof.
  assert (H1 : isError (returned (drawArrays (testBackend true NoError) 8 plainData
                                    GL_TRIANGLES 0 3 1 (newRenderer tt))) = false)
    by reflexivity.
  assert (H2 : In (EvApplyPrimitiveType GL_TRIANGLES 3 true)
                  (calls (drawArrays (testBackend true NoError) 8 plainData GL_TRIANGLES
                            0 3 1 (newRenderer tt))))
    by (vm_compute; right; left; reflexivity).
  assert (H3 : skipDrawResult plainData GL_TRIANGLES = false) by reflexivity.
  split; [exact H1|]. split; [exact H2|]. split; [exact H3|].
  destruct (drawArrays_ends_with_one_draw (testBackend true NoError) 8 plainData
              GL_TRIANGLES 0 3 1 (newRenderer tt))
    as (pre & post & Heq & _ & _ & _ & Hlive).
  exists pre, post. split; [exact Heq | exact (Hlive H1 H2 H3)].
Defined.

(** X11: how [drawElements] ends. Its calls are calls that are neither
    draws nor markings, followed by nothing or by one backend draw. When
    there is a draw, [applyIndexBuffer] came back without error with the
    translated index data the draw is given, and [applyVertexBuffer] was
    given the start of the translated index range as first vertex and the
    length of the range plus one, in [unsigned int], as vertex count. The
    transform-feedback buffers are never marked. There is no draw when
    [skipDraw] answers skip or a used uniform block is unbound, and there
    is one when the call returns without error, the primitive has geometry
    and the draw is not skipped. *)
Theorem drawElements_ends_with_one_draw {Device : Type} (B : Backend Device)
    (maxDrawBuffers : nat) (data : Data) (mode : GLenum)
    (count type indices instances : Z) (indexRange0 : RangeUI) (r : Renderer Device) :
  let run := drawElements B maxDrawBuffers data mode count type indices instances
               indexRange0 r in
  let buffer := getElementArrayBuffer (getVertexArray (state data)) in
  exists pre post,
    calls run = pre ++ post
    /\ Forall (fun ev => isDraw ev = false /\ isMark ev = false) pre
    /\ (post = []
        \/ exists indexInfo translated applied result,
             isError translated = false
             /\ In (EvApplyIndexBuffer indices buffer count mode type indexInfo
                      translated) pre
             /\ In (EvApplyVertexBuffer
                      (to_int (rangeStart (indexRange indexInfo)))
                      (to_int ((rangeLength (indexRange indexInfo) + 1) mod 2 ^ 32))
                      instances applied) pre
             /\ post = [EvDrawElements mode count type indices buffer indexInfo
                          instances result])
    /\ Forall (fun ev => isMark ev = false) (calls run)
    /\ (skipDrawResult data mode = true \/ usedBlockUnbound data -> post = [])
    /\ (isError (returned run) = false ->
        In (EvApplyPrimitiveType mode count true) (calls run) ->
        skipDrawResult data mode = false ->
        post <> []).
Proof.
  intros run buffer. subst run buffer.
  pose proof (drawElements_run B maxDrawBuffers data mode count type indices instances
                indexRange0 r) as Hrun.
  destruct (drawElements_end B maxDrawBuffers data mode count type indices instances
              indexRange0 r) as (pre & post & Heq & Hpre & Hpost).
  apply beforeDraw_facts in Hpre.
  exists pre, post. split; [exact Heq|]. split; [exact Hpre|]. split; [exact Hpost|].
  split; [|split].
  - rewrite Heq. apply Forall_app. split.
    + eapply Forall_impl; [exact Hpre|]. intros ev Hev. apply Hev.
    + destruct Hpost as [-> | (indexInfo & translated & applied & result & _ & _ & _ & ->)];
        repeat constructor.
  - intros Hno.
    destruct Hpost as [-> | (indexInfo & translated & applied & result & _ & _ & _ & Hpost)];
      [reflexivity|].
    exfalso. eapply (end_without_draw pre post); [|exact Hpost|reflexivity].
    rewrite <- Heq. eapply DrawRun_draw; [exact Hrun|]. tauto.
  - intros He Hin Hskip ->. rewrite app_nil_r in Heq.
    apply (end_with_draw pre Hpre). rewrite <- Heq.
    eapply DrawRun_drawn; eauto.
Qed.

Lemma drawElements_ends_with_one_draw_witness :
  isError (returned (drawElements (testBackend true NoError) 8 plainData GL_TRIANGLES
                       3 0x1405 0 1 {| rangeStart := 2; rangeEnd := 4 |}
                       (newRenderer tt))) = false
  /\ In (EvApplyPrimitiveType GL_TRIANGLES 3 true)
        (calls (drawElements (testBackend true NoError) 8 plainData GL_TRIANGLES
                  3 0x1405 0 1 {| rangeStart := 2; rangeEnd := 4 |} (newRenderer tt)))
  /\ skipDrawResult plainData GL_TRIANGLES = false
  /\ exists pre post,
       calls (drawElements (testBackend true NoError) 8 plainData GL_TRIANGLES
                3 0x1405 0 1 {| rangeStart := 2; rangeEnd := 4 |} (newRenderer tt))
       = pre ++ post
       /\ post <> [].
Proof.
  assert (H1 : isError (returned (drawElements (testBackend true NoError) 8 plainData
                                    GL_TRIANGLES 3 0x1405 0 1
                                    {| rangeStart := 2; rangeEnd := 4 |}
                                    (newRenderer tt))) = false)
    by reflexivity.
  assert (H2 : In (EvApplyPrimitiveType GL_TRIANGLES 3 true)
                  (calls (drawElements (testBackend true NoError) 8 plainData
                            GL_TRIANGLES 3 0x1405 0 1
                            {| rangeStart := 2; rangeEnd := 4 |} (newRenderer tt))))
    by (vm_compute; right; left; reflexivity).
  assert (H3 : skipDrawResult plainData GL_TRIANGLES = false) by reflexivity.
  split; [exact H1|]. split; [exact H2|]. split; [exact H3|].
  destruct (drawElements_ends_with_one_draw (testBackend true NoError) 8 plainData
              GL_TRIANGLES 3 0x1405 0 1 {| rangeStart := 2; rangeEnd := 4 |}
              (newRenderer tt))
    as (pre & post & Heq & _ & _ & _ & _ & Hlive).
  exists pre, post. split; [exact Heq | exact (Hlive H1 H2 H3)].
Defined.

(** ** What the calls carry *)

Ltac all_spec_eqn :=
  repeat match goal with
    | |- AllSpec _ (orReturn _ _) => apply AllSpec_orReturn
    | |- AllSpec _ (forLoop _ _ _) => apply AllSpec_forLoop; intros
    | |- AllSpec _ (ret _) => apply AllSpec_ret
    | |- AllSpec _ (call _ _) => apply AllSpec_call; intros
    | |- AllSpec _ (callVoid _ _) => apply AllSpec_callVoid
    | |- AllSpec _ (bind _ _) => apply AllSpec_bind; [|intros]
    | |- AllSpec _ (if ?c then _ else _) => destruct c eqn:?
    | |- AllSpec _ (match ?x with _ => _ end) => destruct x eqn:?
    end.

Section Carried.

Context {Device : Type}.
Variable B : Backend Device.

Lemma applyRenderTarget_carries (data : Data) (mode : GLenum) :
  AllSpec (carriesClientState data mode) (applyRenderTarget B data mode false).
Proof.
  unfold applyRenderTarget, applyRenderTargetImpl, setViewport, setScissorRectangle.
  all_spec_eqn; simpl; auto.
Qed.

Lemma applyState_carries (data : Data) (mode : GLenum) :
  AllSpec (carriesClientState data mode) (applyState B data mode).
Proof.
  unfold applyState, setRasterizerState, setBlendState, setDepthStencilState.
  all_spec_eqn; simpl; auto.
Qed.

Lemma applyTransformFeedbackBuffers_carries (data : Data) (mode : GLenum) :
  AllSpec (carriesClientState data mode) (applyTransformFeedbackBuffers B data).
Proof.
  unfold applyTransformFeedbackBuffers, applyTransformFeedbackBuffersImpl.
  all_spec_eqn. simpl. unfold feedbackActive.
  repeat match goal with H : _ = _ |- _ => rewrite H end. reflexivity.
Qed.

Lemma applyShaders_carries (data : Data) (mode : GLenum) :
  AllSpec (carriesClientState data mode) (applyShaders B data (feedbackActive data)).
Proof.
  unfold applyShaders, applyShadersImpl, applyUniforms.
  all_spec_eqn; simpl; auto.
Qed.

Lemma skipDraw_carries (data : Data) (mode : GLenum) :
  AllSpec (carriesClientState data mode) (skipDraw (Device := Device) data mode).
Proof.
  unfold skipDraw. all_spec_eqn.
  intros r. repeat constructor.
  - apply Z.eqb_eq. assumption.
  - match goal with H : negb _ = true |- _ => apply negb_true_iff in H; exact H end.
Qed.

Lemma draw_end_carries (maxDrawBuffers : nat) (data : Data) (mode : GLenum)
    (draw : bool -> M Device Error) :
  AllSpec (carriesClientState data mode) (draw (feedbackActive data)) ->
  AllSpec (carriesClientState data mode)
    (let! transformFeedbackActive := applyTransformFeedbackBuffers B data in
     try! applyShaders B data transformFeedbackActive in
     try! applyTextures B maxDrawBuffers data in
     try! applyUniformBuffers B data in
     let! skip := skipDraw data mode in
     if negb skip then draw transformFeedbackActive else ret NoError).
Proof.
  intros Hdraw.
  apply (AllSpec_bind_value _ _ _ (feedbackActive data)).
  { apply applyTransformFeedbackBuffers_returned. }
  { apply applyTransformFeedbackBuffers_carries. }
  apply AllSpec_orReturn; [apply applyShaders_carries|].
  apply AllSpec_orReturn; [apply applyTextures_calls; intros; exact I|].
  apply AllSpec_orReturn; [apply applyUniformBuffers_calls; intros; exact I|].
  apply AllSpec_bind; [apply skipDraw_carries|].
  intros skip. destruct skip; simpl; [apply AllSpec_ret | exact Hdraw].
Qed.

Lemma draw_start_carries (data : Data) (mode : GLenum) (count : Z)
    (rest : M Device Error) :
  AllSpec (carriesClientState data mode) rest ->
  AllSpec (carriesClientState data mode)
    (do! updateSamplerMapping B in
     try! generateSwizzles B data in
     let! hasGeometry := applyPrimitiveType B mode count in
     if negb hasGeometry then ret NoError
     else
       try! applyRenderTarget B data mode false in
       try! applyState B data mode in
       rest).
Proof.
  intros Hrest.
  apply AllSpec_bind; [apply AllSpec_callVoid; exact I|].
  intros _. apply AllSpec_orReturn; [apply generateSwizzles_calls; intros; exact I|].
  apply AllSpec_bind; [apply AllSpec_call; intros; exact I|].
  intros hasGeometry. destruct hasGeometry; simpl; [|apply AllSpec_ret].
  apply AllSpec_orReturn; [apply applyRenderTarget_carries|].
  apply AllSpec_orReturn; [apply applyState_carries | exact Hrest].
Qed.

Lemma drawArrays_carries (maxDrawBuffers : nat) (data : Data) (mode : GLenum)
    (first count instances : Z) :
  AllSpec (carriesClientState data mode)
    (drawArrays B maxDrawBuffers data mode first count instances).
Proof.
  unfold drawArrays. apply draw_start_carries.
  apply AllSpec_orReturn; [apply AllSpec_call; intros; exact I|].
  apply (draw_end_carries maxDrawBuffers data mode
           (fun active =>
              try! drawArraysImpl B mode count instances active in
              do! (if active then markTransformFeedbackUsage B data else ret tt) in
              ret NoError)).
  apply AllSpec_orReturn; [apply AllSpec_call; intros; exact I|].
  apply AllSpec_bind; [|intros _; apply AllSpec_ret].
  destruct (feedbackActive data) eqn:Hactive; [|apply AllSpec_ret].
  apply markTransformFeedbackUsage_calls. intros buffer. exact Hactive.
Qed.

Lemma drawElements_carries (maxDrawBuffers : nat) (data : Data) (mode : GLenum)
    (count type indices instances : Z) (indexRange0 : RangeUI) :
  AllSpec (carriesClientState data mode)
    (drawElements B maxDrawBuffers data mode count type indices instances indexRange0).
Proof.
  unfold drawElements. apply draw_start_carries. cbv zeta.
  apply AllSpec_bind; [apply AllSpec_call; intros; exact I|].
  intros [error indexInfo]. destruct (isError error); [apply AllSpec_ret|].
  apply AllSpec_orReturn; [apply AllSpec_call; intros; exact I|].
  apply (draw_end_carries maxDrawBuffers data mode
           (fun _ =>
              try! drawElementsImpl B mode count type indices
                     (getElementArrayBuffer (getVertexArray (state data)))
                     indexInfo instances in
              ret NoError)).
  apply AllSpec_orReturn; [apply AllSpec_call; intros; exact I | apply AllSpec_ret].
Qed.

End Carried.

(** X12: what the calls of a draw carry. In every [drawArrays] and
    [drawElements]: the render target is the draw framebuffer; the
    viewport is set with the draw mode, the front face of the client's
    rasterizer state and [ignoreViewport] false; the rasterizer state is
    the client's with [pointDrawMode] set exactly for the mode points and
    [multiSample] exactly when the framebuffer has samples; the
    depth-stencil state is told whether the front face is
    counter-clockwise; the transform-feedback buffers are applied, and
    marked, only when transform feedback is current, started and not
    paused, and the shaders are told whether it is; the diagnostic is
    logged only for the mode points with a program that does not write the
    point size. *)
Theorem draw_calls_carry_the_client_state {Device : Type} (B : Backend Device)
    (maxDrawBuffers : nat) (data : Data) (mode : GLenum)
    (first count instances type indices : Z) (indexRange0 : RangeUI)
    (r : Renderer Device) :
  Forall (carriesClientState data mode)
    (calls (drawArrays B maxDrawBuffers data mode first count instances r))
  /\ Forall (carriesClientState data mode)
       (calls (drawElements B maxDrawBuffers data mode count type indices instances
                 indexRange0 r)).
Proof.
  split; [apply drawArrays_carries | apply drawElements_carries].
Qed.

(** ** The incomplete textures bound *)

Section Kept.

Context {Device : Type}.
Variable B : Backend Device.

Lemma keptAt_grows (data : Data) (r r' : Renderer Device) (ev : Event) :
  grows r r' -> keptAt data r ev -> keptAt data r' ev.
Proof.
  intros (_ & Hkeep & _). destruct ev; simpl; auto.
  destruct texture; auto.
Qed.

Lemma KeptSpec_ret {A : Type} (data : Data) (a : A) :
  KeptSpec data (ret (Device := Device) a).
Proof. intros r. constructor. Qed.

Lemma KeptSpec_bind {A C : Type} (data : Data) (m : M Device A) (k : A -> M Device C) :
  KeptSpec data m -> (forall a, KeptSpec data (k a)) -> (forall a, Grows (k a)) ->
  KeptSpec data (bind m k).
Proof.
  intros Hm Hk Hg r. rewrite calls_bind, after_bind.
  apply Forall_app. split; [|apply Hk].
  eapply Forall_impl; [apply Hm|]. intros ev. apply keptAt_grows. apply Hg.
Qed.

Lemma KeptSpec_orReturn (data : Data) (m k : M Device Error) :
  KeptSpec data m -> KeptSpec data k -> Grows k -> KeptSpec data (orReturn m k).
Proof.
  intros Hm Hk Hg. unfold orReturn. apply KeptSpec_bind; [assumption| |].
  - intros e. destruct (isError e); [apply KeptSpec_ret | assumption].
  - intros e. destruct (isError e); [apply Grows_ret | assumption].
Qed.

Lemma KeptSpec_forLoop (data : Data) (n i : nat) (body : nat -> M Device Error) :
  (forall j, KeptSpec data (body j)) -> (forall j, Grows (body j)) ->
  KeptSpec data (forLoop n i body).
Proof.
  intros Hb Hg. revert i. induction n as [|n IH]; intros i; simpl.
  - apply KeptSpec_ret.
  - apply KeptSpec_orReturn; [apply Hb | apply IH | apply Grows_forLoop; assumption].
Qed.

Lemma KeptSpec_call (data : Data) (f : Device -> Error * Device) (ev : Error -> Event) :
  (forall e (r : Renderer Device), keptAt data r (ev e)) -> KeptSpec data (call f ev).
Proof. intros Hp r. rewrite calls_call. repeat constructor. apply Hp. Qed.

Lemma KeptSpec_last_call (data : Data) (f : Device -> Error * Device)
    (ev : Error -> Event) :
  (forall e (r : Renderer Device), keptAt data r (ev e)) ->
  KeptSpec data (try! call f ev in ret NoError).
Proof.
  intros Hp. apply KeptSpec_orReturn;
    [apply KeptSpec_call, Hp | apply KeptSpec_ret | apply Grows_ret].
Qed.

Lemma KeptSpec_incomplete (data : Data) (shaderType : SamplerType) (samplerIndex : nat) :
  KeptSpec data
    (let! incompleteTexture :=
       getIncompleteTexture B
         (getSamplerTextureType (getCurrentProgramBinary (state data))
            shaderType samplerIndex) in
     try! setTexture B shaderType samplerIndex incompleteTexture in
     ret NoError).
Proof.
  set (type := getSamplerTextureType (getCurrentProgramBinary (state data))
                 shaderType samplerIndex).
  intros r. rewrite calls_bind, after_bind.
  destruct (getIncompleteTexture_returns B type r) as (o & Hret & Hkept).
  rewrite Hret.
  set (r1 := after (getIncompleteTexture B type r)) in *.
  set (rest := try! setTexture B shaderType samplerIndex (RendererTexture o) in
               ret NoError).
  assert (Hgrows : grows r1 (after (rest r1))).
  { unfold rest, setTexture.
    apply (Grows_orReturn _ _ (Grows_call _ _) (Grows_ret NoError)). }
  apply Forall_app. split.
  - eapply Forall_impl;
      [apply (getIncompleteTexture_calls B (fun ev => isCreateTexture ev = true
                                                  \/ isSetImage ev = true) type)|].
    + intros. left. reflexivity.
    + intros. right. reflexivity.
    + intros ev [Hev | Hev]; destruct ev; try discriminate; exact I.
  - assert (Hall : AllSpec (fun ev => ev = EvSetTexture shaderType samplerIndex
                                            (RendererTexture o)
                                            (match eventResult ev with
                                             | Some e => e
                                             | None => NoError
                                             end)) rest).
    { unfold rest, setTexture. apply AllSpec_orReturn; [|apply AllSpec_ret].
      apply AllSpec_call. intros e. reflexivity. }
    eapply Forall_impl; [apply Hall|]. intros ev ->. simpl.
    destruct Hgrows as (_ & Hkeep & _). apply Hkeep. exact Hkept.
Qed.

Lemma applyTexturesFor_kept (data : Data) (shaderType : SamplerType) (serials : list Z) :
  KeptSpec data (applyTexturesFor B data shaderType serials).
Proof.
  unfold applyTexturesFor. cbv zeta.
  apply KeptSpec_orReturn.
  - apply KeptSpec_forLoop; intros j.
    + destruct (negb (getSamplerMapping (getCurrentProgramBinary (state data))
                        shaderType j =? -1)).
      * match goal with |- context [if ?c then _ else _] => destruct c end.
        -- unfold setSamplerState, setTexture.
           apply KeptSpec_orReturn;
             [apply KeptSpec_call; intros; exact I | | grows_spec].
           apply KeptSpec_last_call. intros; exact I.
        -- apply KeptSpec_incomplete.
      * unfold setTexture. apply KeptSpec_last_call. intros; exact I.
    + unfold setSamplerState, setTexture. grows_spec.
      all: apply getIncompleteTexture_grows.
  - apply KeptSpec_orReturn; [| apply KeptSpec_ret | apply Grows_ret].
    apply KeptSpec_forLoop; intros j; unfold setTexture; [|grows_spec].
    apply KeptSpec_last_call. intros; exact I.
  - unfold setTexture. grows_spec.
Qed.

Lemma applyTextures_kept (maxDrawBuffers : nat) (data : Data) :
  KeptSpec data (applyTextures B maxDrawBuffers data).
Proof.
  unfold applyTextures. cbv zeta.
  apply KeptSpec_orReturn; [apply applyTexturesFor_kept | |].
  - apply KeptSpec_orReturn;
      [apply applyTexturesFor_kept | apply KeptSpec_ret | apply Grows_ret].
  - apply Grows_orReturn; [apply applyTexturesFor_grows | apply Grows_ret].
Qed.

End Kept.

Lemma In_stageCalls_incomplete (data : Data) (attached : list Z)
    (stage shaderType : SamplerType) (samplerIndex : nat) :
  In (IncompleteBound shaderType samplerIndex) (stageCalls data attached stage) ->
  (samplerIndex < getUsedSamplerRange (getCurrentProgramBinary (state data))
                    shaderType)%nat
  /\ needsIncomplete data attached shaderType samplerIndex = true.
Proof.
  unfold stageCalls. cbv zeta. intros Hin. apply in_app_or in Hin.
  destruct Hin as [Hin | Hin].
  - apply in_flat_map in Hin. destruct Hin as (j & Hj & Hin). apply in_seq in Hj.
    unfold slotCalls, needsIncomplete in *. cbv zeta in Hin.
    destruct (getSamplerMapping (getCurrentProgramBinary (state data)) stage j =? -1)
      eqn:Hmapped.
    + destruct Hin as [Hin | []]. discriminate.
    + destruct (isSamplerComplete _ _ && negb (isAttached attached _)) eqn:Hc.
      * destruct Hin as [Hin | [Hin | []]]; discriminate.
      * destruct Hin as [Hin | []]. injection Hin as -> ->.
        split; [lia|]. rewrite Hmapped, Hc. reflexivity.
  - apply in_map_iff in Hin. destruct Hin as (j & Hj & _). discriminate.
Qed.

(** X13: the incomplete texture bound to a sampler slot is the one of the
    slot's texture type. In a renderer whose incomplete textures are
    objects it allocated, one per type, whenever [applyTextures] hands a
    texture of the renderer's own to [setTexture], it is the incomplete
    texture kept, from then on, for the texture type of the slot, an object
    of the class of that type; the slot is a used one, with a unit mapped,
    whose texture is not sampler-complete or is attached to the draw
    framebuffer. *)
Theorem incomplete_texture_bound_is_of_the_slot_type {Device : Type}
    (B : Backend Device) (maxDrawBuffers : nat) (data : Data) (r : Renderer Device)
    (shaderType : SamplerType) (samplerIndex : nat) (o : TextureObject)
    (result : Error) :
  cacheInvariant r ->
  In (EvSetTexture shaderType samplerIndex (RendererTexture o) result)
     (calls (applyTextures B maxDrawBuffers data r)) ->
  let type := getSamplerTextureType (getCurrentProgramBinary (state data))
                shaderType samplerIndex in
  mIncompleteTextures (after (applyTextures B maxDrawBuffers data r)) !! type = Some o
  /\ objectType o = placeholderTarget type
  /\ (samplerIndex < getUsedSamplerRange (getCurrentProgramBinary (state data))
                       shaderType)%nat
  /\ needsIncomplete data
       (attachedTextureSerials maxDrawBuffers (getDrawFramebuffer (state data)))
       shaderType samplerIndex = true.
Proof.
  intros Hinv Hin type.
  pose proof (applyTextures_kept B maxDrawBuffers data r) as Hkept.
  rewrite List.Forall_forall in Hkept. specialize (Hkept _ Hin). simpl in Hkept.
  split; [exact Hkept|]. split.
  - destruct (applyTextures_grows B maxDrawBuffers data r) as (_ & _ & Hinv').
    destruct (Hinv' Hinv) as [Hfresh _]. apply (Hfresh _ _ Hkept).
  - destruct (applyTextures_trace B maxDrawBuffers data r) as [Hprefix _].
    assert (Hcall : In (IncompleteBound shaderType samplerIndex)
                      (omap slotCall (calls (applyTextures B maxDrawBuffers data r)))).
    { apply list_elem_of_In. apply list_elem_of_omap.
      exists (EvSetTexture shaderType samplerIndex (RendererTexture o) result).
      split; [apply list_elem_of_In; exact Hin | reflexivity]. }
    destruct Hprefix as (rest & Heq).
    assert (Hexp : In (IncompleteBound shaderType samplerIndex)
                     (stageCalls data
                        (attachedTextureSerials maxDrawBuffers
                           (getDrawFramebuffer (state data))) SAMPLER_VERTEX
                      ++ stageCalls data
                           (attachedTextureSerials maxDrawBuffers
                              (getDrawFramebuffer (state data))) SAMPLER_PIXEL)).
    { rewrite Heq. apply in_or_app. left. exact Hcall. }
    apply in_app_or in Hexp.
    destruct Hexp as [Hexp | Hexp]; exact (In_stageCalls_incomplete _ _ _ _ _ Hexp).
Qed.

Lemma incomplete_texture_bound_is_of_the_slot_type_witness :
  cacheInvariant (newRenderer tt)
  /\ In (EvSetTexture SAMPLER_PIXEL 0 (RendererTexture firstIncomplete2D) NoError)
        (calls (applyTextures (testBackend true NoError) 8 feedbackData (newRenderer tt)))
  /\ objectType firstIncomplete2D
     = placeholderTarget
         (getSamplerTextureType (getCurrentProgramBinary (state feedbackData))
            SAMPLER_PIXEL 0).
Proof.
  assert (H1 : cacheInvariant (newRenderer tt)) by apply newRenderer_cacheInvariant.
  assert (H2 : In (EvSetTexture SAMPLER_PIXEL 0 (RendererTexture firstIncomplete2D)
                     NoError)
                  (calls (applyTextures (testBackend true NoError) 8 feedbackData
                            (newRenderer tt))))
    by (vm_compute; right; right; right; left; reflexivity).
  split; [exact H1|]. split; [exact H2|].
  exact (proj1 (proj2 (incomplete_texture_bound_is_of_the_slot_type
                         (testBackend true NoError) 8 feedbackData (newRenderer tt)
                         SAMPLER_PIXEL 0 firstIncomplete2D NoError H1 H2))).
Defined.

(** ** Steps that leave the incomplete textures alone *)

Section KeepsFacts.

Context {Device : Type}.
Variable B : Backend Device.

Lemma Keeps_ret {A : Type} (a : A) : Keeps (ret (Device := Device) a).
Proof. intros r. split; reflexivity. Qed.

Lemma Keeps_bind {A C : Type} (m : M Device A) (k : A -> M Device C) :
  Keeps m -> (forall a, Keeps (k a)) -> Keeps (bind m k).
Proof.
  intros Hm Hk r. rewrite after_bind.
  destruct (Hk (returned (m r)) (after (m r))) as [-> ->]. apply Hm.
Qed.

Lemma Keeps_orReturn (m k : M Device Error) : Keeps m -> Keeps k -> Keeps (orReturn m k).
Proof.
  intros Hm Hk. unfold orReturn. apply Keeps_bind; [assumption|].
  intros e. destruct (isError e); [apply Keeps_ret | assumption].
Qed.

Lemma Keeps_forLoop (n i : nat) (body : nat -> M Device Error) :
  (forall j, (i <= j < i + n)%nat -> Keeps (body j)) -> Keeps (forLoop n i body).
Proof.
  revert i. induction n as [|n IH]; intros i Hb; simpl.
  - apply Keeps_ret.
  - apply Keeps_orReturn; [apply Hb; lia|]. apply IH. intros j Hj. apply Hb. lia.
Qed.

Lemma Keeps_call {A : Type} (f : Device -> A * Device) (ev : A -> Event) :
  Keeps (call f ev).
Proof. intros r. unfold call. destruct (f (device r)) as [a d]. split; reflexivity. Qed.

Lemma Keeps_callVoid (f : Device -> Device) (ev : Event) : Keeps (callVoid f ev).
Proof. intros r. split; reflexivity. Qed.

Lemma Keeps_markTransformFeedbackUsage (data : Data) :
  Keeps (markTransformFeedbackUsage B data).
Proof.
  unfold markTransformFeedbackUsage.
  generalize 0%nat. induction (maxTransformFeedbackSeparateAttributes (caps data))
    as [|n IH]; intros i; simpl.
  - apply Keeps_ret.
  - apply Keeps_bind; [|intros _; apply IH].
    destruct (getIndexedTransformFeedbackBuffer (state data) i);
      [apply Keeps_callVoid | apply Keeps_ret].
Qed.

End KeepsFacts.

Ltac keeps_spec :=
  repeat match goal with
    | |- Keeps (orReturn _ _) => apply Keeps_orReturn
    | |- Keeps (forLoop _ _ _) => apply Keeps_forLoop; intros
    | |- Keeps (ret _) => apply Keeps_ret
    | |- Keeps (call _ _) => apply Keeps_call
    | |- Keeps (callVoid _ _) => apply Keeps_callVoid
    | |- Keeps (bind _ _) => apply Keeps_bind; [|intros]
    | |- Keeps (if ?c then _ else _) => destruct c
    | |- Keeps (match ?x with _ => _ end) => destruct x
    end.

Section Lazy.

Context {Device : Type}.
Variable B : Backend Device.
Variable C : gmap Z TextureObject -> Prop.

Lemma KeepsWhen_of {A : Type} (m : M Device A) :
  Keeps m -> AllSpec (fun ev => createsNothing ev = true) m -> KeepsWhen C m.
Proof. intros Hk Ha r _. destruct (Hk r) as [H1 H2]. split; [|split]; auto. Qed.

Lemma KeepsWhen_bind {A D : Type} (m : M Device A) (k : A -> M Device D) :
  KeepsWhen C m -> (forall a, KeepsWhen C (k a)) -> KeepsWhen C (bind m k).
Proof.
  intros Hm Hk r Hc. rewrite after_bind, calls_bind.
  destruct (Hm r Hc) as (H1 & H2 & H3).
  destruct (Hk (returned (m r)) (after (m r))) as (H4 & H5 & H6);
    [rewrite H1; exact Hc|].
  split; [congruence|]. split; [congruence|]. apply Forall_app. auto.
Qed.

Lemma KeepsWhen_ret {A : Type} (a : A) : KeepsWhen C (ret (Device := Device) a).
Proof. intros r _. split; [|split]; [reflexivity | reflexivity | constructor]. Qed.

Lemma KeepsWhen_orReturn (m k : M Device Error) :
  KeepsWhen C m -> KeepsWhen C k -> KeepsWhen C (orReturn m k).
Proof.
  intros Hm Hk. unfold orReturn. apply KeepsWhen_bind; [assumption|].
  intros e. destruct (isError e); [apply KeepsWhen_ret | assumption].
Qed.

Lemma KeepsWhen_forLoop (n i : nat) (body : nat -> M Device Error) :
  (forall j, (i <= j < i + n)%nat -> KeepsWhen C (body j)) ->
  KeepsWhen C (forLoop n i body).
Proof.
  revert i. induction n as [|n IH]; intros i Hb; simpl.
  - apply KeepsWhen_ret.
  - apply KeepsWhen_orReturn; [apply Hb; lia|]. apply IH. intros j Hj. apply Hb. lia.
Qed.

Lemma KeepsWhen_call {A : Type} (f : Device -> A * Device) (ev : A -> Event) :
  (forall a, createsNothing (ev a) = true) -> KeepsWhen C (call f ev).
Proof.
  intros Hev. apply KeepsWhen_of; [apply Keeps_call | apply AllSpec_call, Hev].
Qed.

Lemma KeepsWhen_callVoid (f : Device -> Device) (ev : Event) :
  createsNothing ev = true -> KeepsWhen C (callVoid f ev).
Proof.
  intros Hev. apply KeepsWhen_of; [apply Keeps_callVoid | apply AllSpec_callVoid, Hev].
Qed.

(** A lookup that finds the incomplete texture, and its binding. *)
Lemma KeepsWhen_incomplete (shaderType : SamplerType) (samplerIndex : nat)
    (type : GLenum) :
  (forall kept, C kept -> exists o, kept !! type = Some o) ->
  KeepsWhen C
    (let! incompleteTexture := getIncompleteTexture B type in
     try! setTexture B shaderType samplerIndex incompleteTexture in
     ret NoError).
Proof.
  intros Hkept r Hc. destruct (Hkept _ Hc) as (o & Ho).
  rewrite after_bind, calls_bind, (getIncompleteTexture_hit B type o r Ho).
  change (returned (RendererTexture o, r, [])) with (RendererTexture o).
  change (after (RendererTexture o, r, [])) with r.
  change (calls (A := TexturePtr) (RendererTexture o, r, [])) with (@nil Event).
  apply (KeepsWhen_orReturn (setTexture B shaderType samplerIndex (RendererTexture o))
           (ret NoError)); [|apply KeepsWhen_ret|exact Hc].
  unfold setTexture. apply KeepsWhen_call. reflexivity.
Qed.

End Lazy.

Ltac keeps_when :=
  repeat match goal with
    | |- KeepsWhen _ (orReturn _ _) => apply KeepsWhen_orReturn
    | |- KeepsWhen _ (forLoop _ _ _) => apply KeepsWhen_forLoop; intros
    | |- KeepsWhen _ (ret _) => apply KeepsWhen_ret
    | |- KeepsWhen _ (call _ _) => apply KeepsWhen_call; intros
    | |- KeepsWhen _ (callVoid _ _) => apply KeepsWhen_callVoid
    | |- KeepsWhen _ (bind _ _) => apply KeepsWhen_bind; [|intros]
    | |- KeepsWhen _ (if ?c then _ else _) => destruct c
    | |- KeepsWhen _ (match ?x with _ => _ end) => destruct x
    end.

Section Cached.

Context {Device : Type}.
Variable B : Backend Device.

Lemma applyTexturesFor_cached (data : Data) (shaderType : SamplerType)
    (serials attached : list Z) :
  (forall serial, binary_search serials serial = isAttached attached serial) ->
  KeepsWhen (placeholdersKept data attached) (applyTexturesFor B data shaderType serials).
Proof.
  intros Hsearch.
  unfold applyTexturesFor, setSamplerState. cbv zeta.
  apply KeepsWhen_orReturn.
  - apply KeepsWhen_forLoop. intros j Hj.
    destruct (negb (getSamplerMapping (getCurrentProgramBinary (state data))
                      shaderType j =? -1)) eqn:Hmapped;
      [|unfold setTexture; keeps_when; reflexivity].
    match goal with |- context [if ?c then _ else _] => destruct c eqn:Hc end;
      [unfold setTexture; keeps_when; reflexivity|].
    apply KeepsWhen_incomplete. intros kept Hkept.
    apply (Hkept shaderType j); [lia|].
    unfold needsIncomplete, slotSampler, slotTexture. cbv zeta.
    rewrite Hmapped. rewrite Hsearch in Hc. rewrite Hc. reflexivity.
  - unfold setTexture. keeps_when; reflexivity.
Qed.

Lemma applyTextures_cached (maxDrawBuffers : nat) (data : Data) :
  KeepsWhen
    (placeholdersKept data
       (attachedTextureSerials maxDrawBuffers (getDrawFramebuffer (state data))))
    (applyTextures B maxDrawBuffers data).
Proof.
  unfold applyTextures. cbv zeta.
  apply KeepsWhen_orReturn;
    [apply applyTexturesFor_cached; intros serial; apply binary_search_attached|].
  apply KeepsWhen_orReturn;
    [apply applyTexturesFor_cached; intros serial; apply binary_search_attached|].
  apply KeepsWhen_ret.
Qed.

Lemma KeepsWhen_markTransformFeedbackUsage (C : gmap Z TextureObject -> Prop)
    (data : Data) :
  KeepsWhen C (markTransformFeedbackUsage B data).
Proof.
  apply KeepsWhen_of; [apply Keeps_markTransformFeedbackUsage|].
  apply markTransformFeedbackUsage_calls. reflexivity.
Qed.

Lemma KeepsWhen_ERR (C : gmap Z TextureObject -> Prop) (text : string) :
  KeepsWhen C (ERR (Device := Device) text).
Proof. intros r _. split; [|split]; [reflexivity | reflexivity | repeat constructor]. Qed.

Lemma drawArrays_cached (maxDrawBuffers : nat) (data : Data) (mode : GLenum)
    (first count instances : Z) :
  KeepsWhen
    (placeholdersKept data
       (attachedTextureSerials maxDrawBuffers (getDrawFramebuffer (state data))))
    (drawArrays B maxDrawBuffers data mode first count instances).
Proof.
  pose proof (applyTextures_cached maxDrawBuffers data) as Htextures.
  unfold drawArrays, updateSamplerMapping, generateSwizzles, generateSwizzlesFor,
    generateSwizzle, applyPrimitiveType, applyRenderTarget, applyRenderTargetImpl,
    setViewport, setScissorRectangle, applyState, setRasterizerState, setBlendState,
    setDepthStencilState, applyVertexBuffer, applyTransformFeedbackBuffers,
    applyTransformFeedbackBuffersImpl, applyShaders, applyShadersImpl, applyUniforms,
    applyUniformBuffers, applyUniformBuffersImpl, skipDraw, drawArraysImpl.
  cbv zeta.
  keeps_when;
    first [ reflexivity | exact Htextures | apply KeepsWhen_markTransformFeedbackUsage
          | apply KeepsWhen_ERR ].
Qed.

Lemma drawElements_cached (maxDrawBuffers : nat) (data : Data) (mode : GLenum)
    (count type indices instances : Z) (indexRange0 : RangeUI) :
  KeepsWhen
    (placeholdersKept data
       (attachedTextureSerials maxDrawBuffers (getDrawFramebuffer (state data))))
    (drawElements B maxDrawBuffers data mode count type indices instances indexRange0).
Proof.
  pose proof (applyTextures_cached maxDrawBuffers data) as Htextures.
  unfold drawElements, updateSamplerMapping, generateSwizzles, generateSwizzlesFor,
    generateSwizzle, applyPrimitiveType, applyRenderTarget, applyRenderTargetImpl,
    setViewport, setScissorRectangle, applyState, setRasterizerState, setBlendState,
    setDepthStencilState, applyIndexBuffer, applyVertexBuffer,
    applyTransformFeedbackBuffers, applyTransformFeedbackBuffersImpl, applyShaders,
    applyShadersImpl, applyUniforms, applyUniformBuffers, applyUniformBuffersImpl,
    skipDraw, drawElementsImpl.
  cbv zeta.
  keeps_when; first [ reflexivity | exact Htextures | apply KeepsWhen_ERR ].
Qed.

(** After an [applyTextures] that returns without error, an incomplete
    texture is kept for every slot that needs one. *)
Lemma applyTextures_establishes (maxDrawBuffers : nat) (data : Data)
    (r : Renderer Device) :
  isError (returned (applyTextures B maxDrawBuffers data r)) = false ->
  placeholdersKept data
    (attachedTextureSerials maxDrawBuffers (getDrawFramebuffer (state data)))
    (mIncompleteTextures (after (applyTextures B maxDrawBuffers data r))).
Proof.
  intros Hok shaderType samplerIndex Hused Hneeds.
  destruct (applyTextures_trace B maxDrawBuffers data r) as [_ Hall].
  specialize (Hall Hok).
  assert (Hin : In (IncompleteBound shaderType samplerIndex)
                  (omap slotCall (calls (applyTextures B maxDrawBuffers data r)))).
  { rewrite Hall.
    assert (Hstage : In (IncompleteBound shaderType samplerIndex)
                       (stageCalls data
                          (attachedTextureSerials maxDrawBuffers
                             (getDrawFramebuffer (state data))) shaderType)).
    { unfold stageCalls. cbv zeta. apply in_or_app. left. apply in_flat_map.
      exists samplerIndex. split; [apply in_seq; lia|].
      unfold needsIncomplete in Hneeds. unfold slotCalls. cbv zeta.
      apply andb_true_iff in Hneeds. destruct Hneeds as [Hmapped Hc].
      apply negb_true_iff in Hmapped, Hc. rewrite Hmapped, Hc. left. reflexivity. }
    apply in_or_app. destruct shaderType; [right | left]; exact Hstage. }
  apply list_elem_of_In, list_elem_of_omap in Hin.
  destruct Hin as (ev & Hev & Hcall). apply list_elem_of_In in Hev.
  pose proof (applyTextures_kept B maxDrawBuffers data r) as Hkept.
  rewrite List.Forall_forall in Hkept. specialize (Hkept _ Hev).
  destruct ev; try discriminate. destruct texture; try discriminate.
  injection Hcall as -> ->. simpl in Hkept. eauto.
Qed.

End Cached.

(** X14: incomplete textures are created only when one is missing. When
    the renderer keeps an incomplete texture for the texture type of every
    used sampler slot that needs one (a slot with a unit mapped whose
    texture is not sampler-complete, under the sampler object of its unit
    when there is one, or is attached to the draw framebuffer),
    [applyTextures], [drawArrays] and [drawElements] leave the renderer's
    incomplete textures as they are, allocate nothing and make no call that
    creates a texture or sets an image. That is so, in particular, when no
    slot needs one. *)
Theorem placeholders_are_created_only_when_needed {Device : Type} (B : Backend Device)
    (maxDrawBuffers : nat) (data : Data) (mode : GLenum)
    (first count instances type indices : Z) (indexRange0 : RangeUI)
    (r : Renderer Device) (run : Error * Renderer Device * list Event) :
  (forall shaderType samplerIndex,
      (samplerIndex < getUsedSamplerRange (getCurrentProgramBinary (state data))
                        shaderType)%nat ->
      needsIncomplete data
        (attachedTextureSerials maxDrawBuffers (getDrawFramebuffer (state data)))
        shaderType samplerIndex = true ->
      exists o,
        mIncompleteTextures r
          !! getSamplerTextureType (getCurrentProgramBinary (state data))
               shaderType samplerIndex = Some o) ->
  run = applyTextures B maxDrawBuffers data r
  \/ run = drawArrays B maxDrawBuffers data mode first count instances r
  \/ run = drawElements B maxDrawBuffers data mode count type indices instances
             indexRange0 r ->
  mIncompleteTextures (after run) = mIncompleteTextures r
  /\ nextObject (after run) = nextObject r
  /\ Forall (fun ev => isCreateTexture ev = false /\ isSetImage ev = false) (calls run).
Proof.
  intros Hkept Hrun.
  assert (Hfacts : forall evs,
             Forall (fun ev => createsNothing ev = true) evs ->
             Forall (fun ev => isCreateTexture ev = false /\ isSetImage ev = false) evs).
  { intros evs H. eapply Forall_impl; [exact H|]. intros ev Hev. simpl in Hev.
    unfold createsNothing in Hev. apply andb_true_iff in Hev.
    destruct Hev as [H1 H2]. apply negb_true_iff in H1, H2. auto. }
  destruct Hrun as [-> | [-> | ->]].
  - destruct (applyTextures_cached B maxDrawBuffers data r Hkept) as (H1 & H2 & H3).
    auto.
  - destruct (drawArrays_cached B maxDrawBuffers data mode first count instances r Hkept)
      as (H1 & H2 & H3).
    auto.
  - destruct (drawElements_cached B maxDrawBuffers data mode count type indices instances
                indexRange0 r Hkept) as (H1 & H2 & H3).
    auto.
Qed.

Lemma placeholders_are_created_only_when_needed_witness :
  (forall shaderType samplerIndex,
      (samplerIndex < getUsedSamplerRange (getCurrentProgramBinary (state feedbackData))
                        shaderType)%nat ->
      needsIncomplete feedbackData
        (attachedTextureSerials 8 (getDrawFramebuffer (state feedbackData)))
        shaderType samplerIndex = true ->
      exists o,
        mIncompleteTextures afterFeedbackRun
          !! getSamplerTextureType (getCurrentProgramBinary (state feedbackData))
               shaderType samplerIndex = Some o)
  /\ needsIncomplete feedbackData
       (attachedTextureSerials 8 (getDrawFramebuffer (state feedbackData)))
       SAMPLER_PIXEL 0 = true
  /\ mIncompleteTextures
       (after (drawArrays (testBackend true NoError) 8 feedbackData GL_TRIANGLES 0 3 1
                 afterFeedbackRun))
     = mIncompleteTextures afterFeedbackRun
  /\ Forall (fun ev => isCreateTexture ev = false /\ isSetImage ev = false)
       (calls (drawArrays (testBackend true NoError) 8 feedbackData GL_TRIANGLES 0 3 1
                 afterFeedbackRun)).
Proof.
  assert (H : forall shaderType samplerIndex,
             (samplerIndex < getUsedSamplerRange
                               (getCurrentProgramBinary (state feedbackData))
                               shaderType)%nat ->
             needsIncomplete feedbackData
               (attachedTextureSerials 8 (getDrawFramebuffer (state feedbackData)))
               shaderType samplerIndex = true ->
             exists o,
               mIncompleteTextures afterFeedbackRun
                 !! getSamplerTextureType (getCurrentProgramBinary (state feedbackData))
                      shaderType samplerIndex = Some o).
  { intros [|] [|samplerIndex] Hlt; simpl in Hlt; try lia.
    intros _. exists firstIncomplete2D. vm_compute. reflexivity. }
  split; [exact H|]. split; [reflexivity|].
  destruct (placeholders_are_created_only_when_needed (testBackend true NoError) 8
              feedbackData GL_TRIANGLES 0 3 1 0 0 {| rangeStart := 0; rangeEnd := 0 |}
              afterFeedbackRun
              (drawArrays (testBackend true NoError) 8 feedbackData GL_TRIANGLES 0 3 1
                 afterFeedbackRun)
              H (or_intror (or_introl eq_refl))) as (H1 & _ & H3).
  split; [exact H1 | exact H3].
Defined.

(** X15: an [applyTextures] that returns without error has created every
    incomplete texture it needs. After it, the renderer keeps one for the
    texture type of every used slot that needs one, and goes on keeping it
    as it grows; so the same [applyTextures], [drawArrays] or
    [drawElements], run again later, creates nothing and leaves the
    incomplete textures and the allocator as they are. *)
Theorem applyTextures_creates_its_placeholders_once {Device : Type} (B : Backend Device)
    (maxDrawBuffers : nat) (data : Data) (mode : GLenum)
    (first count instances type indices : Z) (indexRange0 : RangeUI)
    (r r' : Renderer Device) (run : Error * Renderer Device * list Event) :
  isError (returned (applyTextures B maxDrawBuffers data r)) = false ->
  grows (after (applyTextures B maxDrawBuffers data r)) r' ->
  run = applyTextures B maxDrawBuffers data r'
  \/ run = drawArrays B maxDrawBuffers data mode first count instances r'
  \/ run = drawElements B maxDrawBuffers data mode count type indices instances
             indexRange0 r' ->
  mIncompleteTextures (after run) = mIncompleteTextures r'
  /\ nextObject (after run) = nextObject r'
  /\ Forall (fun ev => isCreateTexture ev = false /\ isSetImage ev = false) (calls run).
Proof.
  intros Hok Hgrows Hrun.
  assert (Hkept : placeholdersKept data
                    (attachedTextureSerials maxDrawBuffers
                       (getDrawFramebuffer (state data)))
                    (mIncompleteTextures r')).
  { intros shaderType samplerIndex Hused Hneeds.
    destruct (applyTextures_establishes B maxDrawBuffers data r Hok
                shaderType samplerIndex Hused Hneeds) as (o & Ho).
    exists o. destruct Hgrows as (_ & Hkeep & _). apply Hkeep. exact Ho. }
  assert (Hfacts : forall evs,
             Forall (fun ev => createsNothing ev = true) evs ->
             Forall (fun ev => isCreateTexture ev = false /\ isSetImage ev = false) evs).
  { intros evs H. eapply Forall_impl; [exact H|]. intros ev Hev. simpl in Hev.
    unfold createsNothing in Hev. apply andb_true_iff in Hev.
    destruct Hev as [H1 H2]. apply negb_true_iff in H1, H2. auto. }
  destruct Hrun as [-> | [-> | ->]].
  - destruct (applyTextures_cached B maxDrawBuffers data r' Hkept) as (H1 & H2 & H3).
    auto.
  - destruct (drawArrays_cached B maxDrawBuffers data mode first count instances r' Hkept)
      as (H1 & H2 & H3).
    auto.
  - destruct (drawElements_cached B maxDrawBuffers data mode count type indices instances
                indexRange0 r' Hkept) as (H1 & H2 & H3).
    auto.
Qed.

Lemma applyTextures_creates_its_placeholders_once_witness :
  isError (returned (applyTextures (testBackend true NoError) 8 feedbackData
                       (newRenderer tt))) = false
  /\ grows (after (applyTextures (testBackend true NoError) 8 feedbackData
                     (newRenderer tt))) afterFeedbackRun
  /\ Forall (fun ev => isCreateTexture ev = false /\ isSetImage ev = false)
       (calls (applyTextures (testBackend true NoError) 8 feedbackData afterFeedbackRun)).
Proof.
  assert (H1 : isError (returned (applyTextures (testBackend true NoError) 8 feedbackData
                                    (newRenderer tt))) = false) by reflexivity.
  assert (H2 : grows (after (applyTextures (testBackend true NoError) 8 feedbackData
                               (newRenderer tt))) afterFeedbackRun).
  { unfold grows. split; [apply Nat.le_refl|]. split; [intros type o H; exact H|].
    intros H; exact H. }
  split; [exact H1|]. split; [exact H2|].
  exact (proj2 (proj2 (applyTextures_creates_its_placeholders_once
                         (testBackend true NoError) 8 feedbackData GL_TRIANGLES
                         0 3 1 0 0 {| rangeStart := 0; rangeEnd := 0 |}
                         (newRenderer tt) afterFeedbackRun
                         (applyTextures (testBackend true NoError) 8 feedbackData
                            afterFeedbackRun)
                         H1 H2 (or_introl eq_refl)))).
Defined.
